(** * Titan: conversion of AlphaZero checkpoints to the tch naming convention

    A verification development for [convert_weights_working.py].  The
    checkpoint is a Python [dict] from parameter names to tensors; it is
    modelled as a [gmap string Tensor].  A failing subscript
    [state_dict[k]] raises [KeyError(k)]; the conversion therefore lives
    in an exception monad over the dictionary under construction. *)

From Stdlib Require Import Ascii.
From stdpp Require Import gmap strings list fin_maps pretty.

Local Open Scope Z_scope.
Local Open Scope string_scope.
Local Open Scope list_scope.

(** ** Data model *)

(** A Python [str] is modelled by the string of its characters, an [ascii]
    holding a code point from 0 to 255: the model covers the strings made
    of such characters, which include every name and every literal of the
    scripts.  Among these code points the decimal digits are 48 to 57, and
    the builtins below are those of CPython 3.11. *)

(** A tensor is never inspected by the conversion; only its shape is read by
    the architecture detection of the script's main block.  The element
    storage is kept as raw element words. *)
Record Tensor := mkTensor { shape : list Z; storage : list Z }.

(** The Python exceptions the modelled code can raise. *)
Inductive Exception :=
| KeyError (key : string)
| ValueError (msg : string)
| IndexError (msg : string).

Definition Result (A : Type) : Type := (Exception + A)%type.

Definition ret {A} (a : A) : Result A := inr a.
Definition raise {A} (e : Exception) : Result A := inl e.
Definition bind {A B} (r : Result A) (k : A → Result B) : Result B :=
  match r with
  | inl e => inl e
  | inr a => k a
  end.

Notation "x ←' r ; k" := (bind r (λ x, k))
  (at level 20, r at level 100, k at level 200, only parsing).

(** [str(i)] for a Python [int], as used by the f-strings of the script. *)
Definition str (i : Z) : string := pretty i.

(** A statement transforms the dictionary being built, or raises. *)
Definition Stmt : Type := gmap string Tensor → Result (gmap string Tensor).

Definition skip : Stmt := λ tch_dict, ret tch_dict.
Definition seq_stmt (a b : Stmt) : Stmt := λ tch_dict, bind (a tch_dict) b.
Declare Scope stmt_scope.
Delimit Scope stmt_scope with stmt.
Bind Scope stmt_scope with Stmt.
Notation "a ;; b" := (seq_stmt a b)
  (at level 100, b at level 200, right associativity) : stmt_scope.
Local Open Scope stmt_scope.

(** [for i in l: body(i)] *)
Definition for_each (l : list Z) (body : Z → Stmt) : Stmt :=
  foldr (λ i k, body i ;; k) skip l.

(** [range(n)] *)
Definition range (n : Z) : list Z := seqZ 0 n.

(** [state_dict[key]] *)
Definition getitem (state_dict : gmap string Tensor) (key : string)
  : Result Tensor :=
  match state_dict !! key with
  | Some t => ret t
  | None => raise (KeyError key)
  end.

(** [tch_dict[dst] = state_dict[src]]: the right-hand side is evaluated
    first, and may raise; then the entry is stored. *)
Definition assign (state_dict : gmap string Tensor) (dst src : string) : Stmt :=
  λ tch_dict, t ←' getitem state_dict src; ret (<[dst := t]> tch_dict).

Section convert.
Variable state_dict : gmap string Tensor.

Notation "dst ::= src" := (assign state_dict dst src) (at level 65).

Definition conv_block : Stmt :=
  "conv_block.weight" ::= "convBlock1.conv1.weight" ;;
  "conv_block.bias" ::= "convBlock1.conv1.bias" ;;
  "conv_block.weight__2" ::= "convBlock1.bn1.weight" ;;
  "conv_block.bias__3" ::= "convBlock1.bn1.bias" ;;
  "conv_block.running_mean" ::= "convBlock1.bn1.running_mean" ;;
  "conv_block.running_var" ::= "convBlock1.bn1.running_var".

Definition res_block (i : Z) : Stmt :=
  let py_prefix := "residualBlocks." +:+ str i in
  let tch_prefix := "res_block_" +:+ str i in
  tch_prefix +:+ ".weight" ::= py_prefix +:+ ".conv1.weight" ;;
  tch_prefix +:+ ".bias" ::= py_prefix +:+ ".conv1.bias" ;;
  tch_prefix +:+ ".running_mean" ::= py_prefix +:+ ".bn1.running_mean" ;;
  tch_prefix +:+ ".running_var" ::= py_prefix +:+ ".bn1.running_var" ;;
  if decide (i = 0) then
    tch_prefix +:+ ".weight__8" ::= py_prefix +:+ ".bn2.weight" ;;
    tch_prefix +:+ ".bias__9" ::= py_prefix +:+ ".bn2.bias" ;;
    tch_prefix +:+ ".bias__12" ::= py_prefix +:+ ".bn1.bias" ;;
    tch_prefix +:+ ".weight__13" ::= py_prefix +:+ ".conv2.weight" ;;
    tch_prefix +:+ ".weight__14" ::= py_prefix +:+ ".bn1.weight" ;;
    tch_prefix +:+ ".bias__15" ::= py_prefix +:+ ".conv2.bias" ;;
    tch_prefix +:+ ".running_mean__16" ::= py_prefix +:+ ".bn2.running_mean" ;;
    tch_prefix +:+ ".running_var__17" ::= py_prefix +:+ ".bn2.running_var"
  else
    let base := 20 + (i - 1) * 12 in
    tch_prefix +:+ ".weight__" +:+ str base ::= py_prefix +:+ ".bn2.weight" ;;
    tch_prefix +:+ ".bias__" +:+ str (base + 1) ::= py_prefix +:+ ".bn2.bias" ;;
    tch_prefix +:+ ".bias__" +:+ str (base + 4) ::= py_prefix +:+ ".bn1.bias" ;;
    tch_prefix +:+ ".weight__" +:+ str (base + 5) ::= py_prefix +:+ ".conv2.weight" ;;
    tch_prefix +:+ ".weight__" +:+ str (base + 6) ::= py_prefix +:+ ".bn1.weight" ;;
    tch_prefix +:+ ".bias__" +:+ str (base + 7) ::= py_prefix +:+ ".conv2.bias" ;;
    tch_prefix +:+ ".running_mean__" +:+ str (base + 8)
      ::= py_prefix +:+ ".bn2.running_mean" ;;
    tch_prefix +:+ ".running_var__" +:+ str (base + 9)
      ::= py_prefix +:+ ".bn2.running_var".

Definition value_head (num_blocks : Z) : Stmt :=
  if decide (num_blocks = 10) then
    "value_head.weight" ::= "valueHead.conv1.weight" ;;
    "value_head.bias" ::= "valueHead.conv1.bias" ;;
    "value_head.weight__128" ::= "valueHead.bn1.weight" ;;
    "value_head.bias__129" ::= "valueHead.bn1.bias" ;;
    "value_head.running_mean" ::= "valueHead.bn1.running_mean" ;;
    "value_head.running_var" ::= "valueHead.bn1.running_var" ;;
    "value_head.weight__133" ::= "valueHead.fc1.weight" ;;
    "value_head.bias__132" ::= "valueHead.fc1.bias" ;;
    "value_head.weight__135" ::= "valueHead.fc2.weight" ;;
    "value_head.bias__134" ::= "valueHead.fc2.bias"
  else
    "value_head.weight" ::= "valueHead.conv1.weight" ;;
    "value_head.bias" ::= "valueHead.conv1.bias" ;;
    "value_head.weight__248" ::= "valueHead.bn1.weight" ;;
    "value_head.bias__249" ::= "valueHead.bn1.bias" ;;
    "value_head.running_mean" ::= "valueHead.bn1.running_mean" ;;
    "value_head.running_var" ::= "valueHead.bn1.running_var" ;;
    "value_head.weight__253" ::= "valueHead.fc1.weight" ;;
    "value_head.bias__252" ::= "valueHead.fc1.bias" ;;
    "value_head.weight__255" ::= "valueHead.fc2.weight" ;;
    "value_head.bias__254" ::= "valueHead.fc2.bias".

Definition policy_head (num_blocks : Z) : Stmt :=
  if decide (num_blocks = 10) then
    "policy_head.weight" ::= "policyHead.conv1.weight" ;;
    "policy_head.bias" ::= "policyHead.conv1.bias" ;;
    "policy_head.weight__138" ::= "policyHead.bn1.weight" ;;
    "policy_head.bias__139" ::= "policyHead.bn1.bias" ;;
    "policy_head.running_mean" ::= "policyHead.bn1.running_mean" ;;
    "policy_head.running_var" ::= "policyHead.bn1.running_var" ;;
    "policy_head.weight__143" ::= "policyHead.fc1.weight" ;;
    "policy_head.bias__142" ::= "policyHead.fc1.bias"
  else
    "policy_head.weight" ::= "policyHead.conv1.weight" ;;
    "policy_head.bias" ::= "policyHead.conv1.bias" ;;
    "policy_head.weight__258" ::= "policyHead.bn1.weight" ;;
    "policy_head.bias__259" ::= "policyHead.bn1.bias" ;;
    "policy_head.running_mean" ::= "policyHead.bn1.running_mean" ;;
    "policy_head.running_var" ::= "policyHead.bn1.running_var" ;;
    "policy_head.weight__263" ::= "policyHead.fc1.weight" ;;
    "policy_head.bias__262" ::= "policyHead.fc1.bias".

(** [convert_to_tch_format(state_dict, num_blocks, num_filters)].  The
    third argument is accepted and never read, as in the script. *)
Definition convert_to_tch_format (num_blocks num_filters : Z)
  : Result (gmap string Tensor) :=
  (conv_block ;;
   for_each (range num_blocks) res_block ;;
   value_head num_blocks ;;
   policy_head num_blocks) ∅.
End convert.

(** ** Architecture detection of the script's main block *)

(** [s.split(sep)] for a one-character separator. *)
Fixpoint split (sep : ascii) (s : string) : list string :=
  match s with
  | EmptyString => [EmptyString]
  | String c s' =>
      if decide (c = sep) then EmptyString :: split sep s'
      else match split sep s' with
           | [] => [String c EmptyString]
           | piece :: pieces => String c piece :: pieces
           end
  end.

(** [k.startswith(p)] *)
Definition startswith (k p : string) : bool := String.prefix p k.

(** The value of a decimal digit, by its character code (48 to 57). *)
Definition digit_value (c : ascii) : option Z :=
  let code := Z.of_N (N_of_ascii c) in
  if decide (48 ≤ code ≤ 57)%Z then Some (code - 48) else None.

(** The characters that [int] skips around a numeral: tab to carriage
    return, the space, and the two spaces above 127 (next line, U+0085, and
    no-break space, U+00A0). *)
Definition int_space (c : ascii) : bool :=
  let code := Z.of_N (N_of_ascii c) in
  bool_decide ((9 ≤ code ≤ 13)%Z ∨ code = 32 ∨ code = 133 ∨ code = 160).

Fixpoint skip_spaces (s : string) : string :=
  match s with
  | EmptyString => EmptyString
  | String c s' => if int_space c then skip_spaces s' else s
  end.

(** An optional sign. *)
Definition parse_sign (s : string) : Z * string :=
  match s with
  | EmptyString => (1, s)
  | String c s' =>
      if decide (c = "-"%char) then (-1, s')
      else if decide (c = "+"%char) then (1, s')
      else (1, s)
  end.

(** The digits of a numeral, with single underscores allowed between two
    digits: the value read so far, the number of digits, and the text that
    follows the numeral; nothing when an underscore is doubled or is not
    followed by a digit. *)
Fixpoint scan_digits (after_underscore : bool) (acc digits : Z) (s : string)
  : option (Z * Z * string) :=
  match s with
  | EmptyString => if after_underscore then None else Some (acc, digits, s)
  | String c s' =>
      match digit_value c with
      | Some d => scan_digits false (10 * acc + d) (digits + 1) s'
      | None =>
          if decide (c = "_"%char) then
            if after_underscore then None else scan_digits true acc digits s'
          else if after_underscore then None else Some (acc, digits, s)
      end
  end.

(** [s[:n]] *)
Fixpoint string_take (n : nat) (s : string) : string :=
  match n, s with
  | S n', String c s' => String c (string_take n' s')
  | _, _ => EmptyString
  end.

Fixpoint has_char (c : ascii) (s : string) : bool :=
  match s with
  | EmptyString => false
  | String c' s' => bool_decide (c' = c) || has_char c s'
  end.

Definition double_quote : ascii := ascii_of_N 34.

Definition hex_digit (n : Z) : ascii :=
  ascii_of_N (Z.to_N (if decide (n < 10)%Z then 48 + n else 87 + n)).

(** One character of [repr(s)], inside the quotes [quote]. *)
Definition repr_char (quote c : ascii) : string :=
  let code := Z.of_N (N_of_ascii c) in
  if decide (c = quote ∨ c = "\"%char) then String "\" (String c "")
  else if decide (code = 9) then "\t"
  else if decide (code = 10) then "\n"
  else if decide (code = 13) then "\r"
  else if decide ((code < 32)%Z ∨ (127 ≤ code ≤ 160)%Z ∨ code = 173) then
    String "\" (String "x" (String (hex_digit (code / 16))
                              (String (hex_digit (code mod 16)) "")))
  else String c "".

Fixpoint repr_chars (quote : ascii) (s : string) : string :=
  match s with
  | EmptyString => String quote ""
  | String c s' => repr_char quote c +:+ repr_chars quote s'
  end.

(** [repr(s)] of a string: in single quotes, unless the string holds a
    single quote and no double quote; the characters that are not
    printable are escaped. *)
Definition repr (s : string) : string :=
  let quote := if has_char "'" s && negb (has_char double_quote s)
               then double_quote else "'"%char in
  String quote (repr_chars quote s).

(** [sys.get_int_max_str_digits()], at its default. *)
Definition int_max_str_digits : Z := 4300.

(** [int(s)] on a string, in base 10: spaces, an optional sign, digits with
    single underscores between them, spaces.  A numeral of more than
    [int_max_str_digits] digits is refused before the text after it is
    looked at.  An invalid literal is reported with the first 200
    characters of its [repr]. *)
Definition int (s : string) : Result Z :=
  let invalid :=
    ValueError ("invalid literal for int() with base 10: "
                +:+ string_take 200 (repr s)) in
  let '(sign, t) := parse_sign (skip_spaces s) in
  if startswith t "_" then raise invalid
  else match scan_digits false 0 0 t with
       | None => raise invalid
       | Some (n, digits, rest) =>
           if decide (int_max_str_digits < digits)%Z then
             raise (ValueError
                      ("Exceeds the limit (" +:+ str int_max_str_digits
                       +:+ " digits) for integer string conversion: value has "
                       +:+ str digits
                       +:+ " digits; use sys.set_int_max_str_digits() "
                       +:+ "to increase the limit"))
           else if decide (digits = 0) then raise invalid
           else if decide (skip_spaces rest = "") then ret (sign * n)
           else raise invalid
       end.

(** The value of a string of decimal digits, continuing from [acc]; used to
    state what [int] returns on a plain numeral. *)
Fixpoint int_digits (acc : Z) (s : string) : option Z :=
  match s with
  | EmptyString => Some acc
  | String c s' =>
      match digit_value c with
      | Some d => int_digits (10 * acc + d) s'
      | None => None
      end
  end.

(** [l[i]] on a list. *)
Definition list_getitem {A} (l : list A) (i : nat) : Result A :=
  match l !! i with
  | Some a => ret a
  | None => raise (IndexError "list index out of range")
  end.

(** [max(l)] on a list of integers. *)
Definition max_list_Z (l : list Z) : Result Z :=
  match l with
  | [] => raise (ValueError "max() arg is an empty sequence")
  | x :: l' => ret (foldl Z.max x l')
  end.

(** A list comprehension whose element expression may raise. *)
Fixpoint comprehension {A B} (f : A → Result B) (l : list A) : Result (list B) :=
  match l with
  | [] => ret []
  | a :: l' => b ←' f a; bs ←' comprehension f l'; ret (b :: bs)
  end.

(** [state_dict.keys()]; the order of the keys does not matter to [max]. *)
Definition keys (state_dict : gmap string Tensor) : list string :=
  (map_to_list state_dict).*1.

(** [max([int(k.split('.')[1]) for k in state_dict.keys()
          if k.startswith('residualBlocks.')]) + 1] *)
Definition detect_num_blocks (state_dict : gmap string Tensor) : Result Z :=
  indices ←' comprehension
               (λ k, piece ←' list_getitem (split "."%char k) 1; int piece)
               (filter (λ k, startswith k "residualBlocks." = true)
                       (keys state_dict));
  m ←' max_list_Z indices;
  ret (m + 1).

(** [state_dict['convBlock1.conv1.weight'].shape[0]] *)
Definition detect_num_filters (state_dict : gmap string Tensor) : Result Z :=
  t ←' getitem state_dict "convBlock1.conv1.weight";
  match shape t !! 0%nat with
  | Some n => ret n
  | None => raise (IndexError "tuple index out of range")
  end.

(** The main block after loading: detect the architecture, then convert. *)
Definition main_convert (state_dict : gmap string Tensor)
  : Result (gmap string Tensor) :=
  num_blocks ←' detect_num_blocks state_dict;
  num_filters ←' detect_num_filters state_dict;
  convert_to_tch_format state_dict num_blocks num_filters.

(** ** The name mapping as a table

    The straight-line code above performs one assignment per pair
    (destination name, source name).  The table below lists these pairs in
    execution order; [convert_runs_table] shows that the code is exactly the
    in-order execution of the table. *)

Definition conv_block_table : list (string * string) :=
  [ ("conv_block.weight", "convBlock1.conv1.weight");
    ("conv_block.bias", "convBlock1.conv1.bias");
    ("conv_block.weight__2", "convBlock1.bn1.weight");
    ("conv_block.bias__3", "convBlock1.bn1.bias");
    ("conv_block.running_mean", "convBlock1.bn1.running_mean");
    ("conv_block.running_var", "convBlock1.bn1.running_var") ].

(** The eight numeric suffixes of residual block [i], in assignment order. *)
Definition block_suffixes (i : Z) : list Z :=
  if decide (i = 0) then [8; 9; 12; 13; 14; 15; 16; 17]
  else let base := 20 + (i - 1) * 12 in
       [base; base + 1; base + 4; base + 5; base + 6; base + 7; base + 8; base + 9].

(** The role of each suffixed destination name and the source parameter it
    receives, in assignment order. *)
Definition suffixed_roles : list (string * string) :=
  [ (".weight__", ".bn2.weight"); (".bias__", ".bn2.bias");
    (".bias__", ".bn1.bias"); (".weight__", ".conv2.weight");
    (".weight__", ".bn1.weight"); (".bias__", ".conv2.bias");
    (".running_mean__", ".bn2.running_mean");
    (".running_var__", ".bn2.running_var") ].

Definition bare_roles : list (string * string) :=
  [ (".weight", ".conv1.weight"); (".bias", ".conv1.bias");
    (".running_mean", ".bn1.running_mean"); (".running_var", ".bn1.running_var") ].

Definition res_block_table (i : Z) : list (string * string) :=
  ((λ r, ("res_block_" +:+ str i +:+ r.1, "residualBlocks." +:+ str i +:+ r.2))
     <$> bare_roles) ++
  zip_with (λ n r, ("res_block_" +:+ str i +:+ r.1 +:+ str n,
                    "residualBlocks." +:+ str i +:+ r.2))
           (block_suffixes i) suffixed_roles.

Definition value_head_table (num_blocks : Z) : list (string * string) :=
  if decide (num_blocks = 10) then
    [ ("value_head.weight", "valueHead.conv1.weight");
      ("value_head.bias", "valueHead.conv1.bias");
      ("value_head.weight__128", "valueHead.bn1.weight");
      ("value_head.bias__129", "valueHead.bn1.bias");
      ("value_head.running_mean", "valueHead.bn1.running_mean");
      ("value_head.running_var", "valueHead.bn1.running_var");
      ("value_head.weight__133", "valueHead.fc1.weight");
      ("value_head.bias__132", "valueHead.fc1.bias");
      ("value_head.weight__135", "valueHead.fc2.weight");
      ("value_head.bias__134", "valueHead.fc2.bias") ]
  else
    [ ("value_head.weight", "valueHead.conv1.weight");
      ("value_head.bias", "valueHead.conv1.bias");
      ("value_head.weight__248", "valueHead.bn1.weight");
      ("value_head.bias__249", "valueHead.bn1.bias");
      ("value_head.running_mean", "valueHead.bn1.running_mean");
      ("value_head.running_var", "valueHead.bn1.running_var");
      ("value_head.weight__253", "valueHead.fc1.weight");
      ("value_head.bias__252", "valueHead.fc1.bias");
      ("value_head.weight__255", "valueHead.fc2.weight");
      ("value_head.bias__254", "valueHead.fc2.bias") ].

Definition policy_head_table (num_blocks : Z) : list (string * string) :=
  if decide (num_blocks = 10) then
    [ ("policy_head.weight", "policyHead.conv1.weight");
      ("policy_head.bias", "policyHead.conv1.bias");
      ("policy_head.weight__138", "policyHead.bn1.weight");
      ("policy_head.bias__139", "policyHead.bn1.bias");
      ("policy_head.running_mean", "policyHead.bn1.running_mean");
      ("policy_head.running_var", "policyHead.bn1.running_var");
      ("policy_head.weight__143", "policyHead.fc1.weight");
      ("policy_head.bias__142", "policyHead.fc1.bias") ]
  else
    [ ("policy_head.weight", "policyHead.conv1.weight");
      ("policy_head.bias", "policyHead.conv1.bias");
      ("policy_head.weight__258", "policyHead.bn1.weight");
      ("policy_head.bias__259", "policyHead.bn1.bias");
      ("policy_head.running_mean", "policyHead.bn1.running_mean");
      ("policy_head.running_var", "policyHead.bn1.running_var");
      ("policy_head.weight__263", "policyHead.fc1.weight");
      ("policy_head.bias__262", "policyHead.fc1.bias") ].

Definition name_mapping (num_blocks : Z) : list (string * string) :=
  conv_block_table ++ (range num_blocks ≫= res_block_table) ++
  value_head_table num_blocks ++ policy_head_table num_blocks.

(** In-order execution of a table of assignments. *)
Definition run_table (state_dict : gmap string Tensor)
    (table : list (string * string)) : Stmt :=
  foldr (λ p k, assign state_dict p.1 p.2 ;; k) skip table.

(** ** The key inventories of the specification

    These definitions follow the words of the specification, not the code:
    they are the inventories the conversion is compared against. *)

Inductive Preset := Preset10x128 | Preset20x256.

Definition preset_blocks (p : Preset) : Z :=
  match p with Preset10x128 => 10 | Preset20x256 => 20 end.

Definition preset_filters (p : Preset) : Z :=
  match p with Preset10x128 => 128 | Preset20x256 => 256 end.

Definition conv_params : list string := ["weight"; "bias"].
Definition bn_params : list string :=
  ["weight"; "bias"; "running_mean"; "running_var"].

(** The parameter names of one layer of one module of the source model. *)
Definition layer (module name : string) (params : list string) : list string :=
  (λ p, module +:+ "." +:+ name +:+ "." +:+ p) <$> params.

(** The source inventory: a stem block, [num_blocks] residual blocks with two
    convolutions and two normalisation layers each, and the two heads. *)
Definition required_source_keys (num_blocks : Z) : list string :=
  layer "convBlock1" "conv1" conv_params ++
  layer "convBlock1" "bn1" bn_params ++
  (range num_blocks ≫= λ i,
     let m := "residualBlocks." +:+ str i in
     layer m "conv1" conv_params ++ layer m "conv2" conv_params ++
     layer m "bn1" bn_params ++ layer m "bn2" bn_params) ++
  layer "valueHead" "conv1" conv_params ++
  layer "valueHead" "bn1" bn_params ++
  layer "valueHead" "fc1" conv_params ++
  layer "valueHead" "fc2" conv_params ++
  layer "policyHead" "conv1" conv_params ++
  layer "policyHead" "bn1" bn_params ++
  layer "policyHead" "fc1" conv_params.

(** The names of one destination group. *)
Definition group (name : string) (roles : list string) : list string :=
  (λ r, name +:+ "." +:+ r) <$> roles.

Definition conv_block_keys : list string :=
  group "conv_block"
    ["weight"; "bias"; "weight__2"; "bias__3"; "running_mean"; "running_var"].

(** Residual block [i]: four bare roles, and eight numbered roles whose
    numbers are the literal set of block 0 or follow
    [base = 20 + (i-1)*12]. *)
Definition res_block_keys (i : Z) : list string :=
  group ("res_block_" +:+ str i)
    (["weight"; "bias"; "running_mean"; "running_var"] ++
     if decide (i = 0) then
       ["weight__8"; "bias__9"; "bias__12"; "weight__13"; "weight__14";
        "bias__15"; "running_mean__16"; "running_var__17"]
     else
       let base := 20 + (i - 1) * 12 in
       ["weight__" +:+ str base; "bias__" +:+ str (base + 1);
        "bias__" +:+ str (base + 4); "weight__" +:+ str (base + 5);
        "weight__" +:+ str (base + 6); "bias__" +:+ str (base + 7);
        "running_mean__" +:+ str (base + 8);
        "running_var__" +:+ str (base + 9)]).

Definition head_keys (p : Preset) : list string :=
  match p with
  | Preset10x128 =>
      group "value_head"
        ["weight"; "bias"; "weight__128"; "bias__129"; "running_mean";
         "running_var"; "weight__133"; "bias__132"; "weight__135"; "bias__134"] ++
      group "policy_head"
        ["weight"; "bias"; "weight__138"; "bias__139"; "running_mean";
         "running_var"; "weight__143"; "bias__142"]
  | Preset20x256 =>
      group "value_head"
        ["weight"; "bias"; "weight__248"; "bias__249"; "running_mean";
         "running_var"; "weight__253"; "bias__252"; "weight__255"; "bias__254"] ++
      group "policy_head"
        ["weight"; "bias"; "weight__258"; "bias__259"; "running_mean";
         "running_var"; "weight__263"; "bias__262"]
  end.

(** The destination inventory of a preset. *)
Definition destination_keys (p : Preset) : list string :=
  conv_block_keys ++ (range (preset_blocks p) ≫= res_block_keys) ++ head_keys p.

(** The destination inventory of the one-block scenario as the specification
    lists it: stem, block 0, and the heads of the 10x128 preset. *)
Definition scenario_keys : list string :=
  conv_block_keys ++ res_block_keys 0 ++ head_keys Preset10x128.

(** The one-block inventory with the heads of the 20x256 table. *)
Definition one_block_keys : list string :=
  conv_block_keys ++ res_block_keys 0 ++ head_keys Preset20x256.

(** ** Synthetic checkpoints *)

(** A tensor of a checkpoint with [num_filters] channels; the storage word
    [n] makes the tensors of a checkpoint pairwise different. *)
Definition sample_tensor (num_filters : Z) (n : nat) : Tensor :=
  mkTensor [num_filters; 16; 3; 3] [Z.of_nat n].

(** A checkpoint holding exactly the required source names. *)
Definition sample_state_dict (num_blocks num_filters : Z) : gmap string Tensor :=
  list_to_map (imap (λ n k, (k, sample_tensor num_filters n))
                    (required_source_keys num_blocks)).

(** What the conversion returns on a synthetic checkpoint (the empty
    dictionary should it raise). *)
Definition sample_output (num_blocks num_filters : Z) : gmap string Tensor :=
  match convert_to_tch_format (sample_state_dict num_blocks num_filters)
          num_blocks num_filters with
  | inr tch_dict => tch_dict
  | inl _ => ∅
  end.

(** ** Auxiliary notions on names *)

(** Strings made of decimal digits only. *)
Fixpoint all_digits (s : string) : Prop :=
  match s with
  | EmptyString => True
  | String c s' => is_Some (digit_value c) ∧ all_digits s'
  end.

(** The first character of a name tells its group apart. *)
Definition first_char (s : string) : option ascii :=
  match s with
  | EmptyString => None
  | String c _ => Some c
  end.

(** The source name of residual block [i] with the given dotted path. *)
Definition block_key (i : Z) (rest : string) : string :=
  "residualBlocks." +:+ str i +:+ "." +:+ rest.

(** The parts of the names of residual block [i] that follow the index. *)
Definition block_dst_suffixes (i : Z) : list string :=
  bare_roles.*1 ++
  zip_with (λ n r, r.1 +:+ str n) (block_suffixes i) suffixed_roles.

Definition block_src_suffixes : list string :=
  (bare_roles ++ suffixed_roles).*2.

Arguments str : simpl never.

(** ** The rest of the main block of [convert_weights_working.py] *)

(** [s[n:]] *)
Fixpoint string_drop (n : nat) (s : string) : string :=
  match n, s with
  | O, _ => s
  | S n', String _ s' => string_drop n' s'
  | S _, EmptyString => EmptyString
  end.

(** [sub in s], for strings. *)
Fixpoint contains (sub s : string) : bool :=
  String.prefix sub s
  || match s with
     | EmptyString => false
     | String _ s' => contains sub s'
     end.

(** [s.replace("", new)]: [new] before every character and at the end. *)
Fixpoint replace_empty (new s : string) : string :=
  match s with
  | EmptyString => new
  | String c s' => new +:+ String c (replace_empty new s')
  end.

(** [s.replace(old, new)] for a non-empty [old]: the occurrences are taken
    from left to right and do not overlap.  Every step consumes at least one
    character of [s], so a fuel above the length of [s] is never used up. *)
Fixpoint replace_go (fuel : nat) (old new s : string) : string :=
  match fuel with
  | O => s
  | S fuel' =>
      if String.prefix old s
      then new +:+ replace_go fuel' old new (string_drop (String.length old) s)
      else match s with
           | EmptyString => EmptyString
           | String c s' => String c (replace_go fuel' old new s')
           end
  end.

(** [s.replace(old, new)] *)
Definition replace (s old new : string) : string :=
  match old with
  | EmptyString => replace_empty new s
  | _ => replace_go (S (String.length s)) old new s
  end.

(** The command line of the script: [None] is the usage message followed by
    [sys.exit(1)] when no input file is given; otherwise the output file is
    the second argument, or by default the input file with [.pt] replaced. *)
Definition output_file (argv : list string) : option string :=
  match argv with
  | _ :: input_file :: rest =>
      Some match rest with
           | given :: _ => given
           | [] => replace input_file ".pt" "_rust.pt"
           end
  | _ => None
  end.

(** ** The mapping of [debug_tch_names.py]

    A Python [dict] from names to names whose order of insertion matters
    (the inverse mapping is built by iterating over it): an association list
    in insertion order.  Assigning to a key that is present replaces its
    value in place; a new key goes to the end. *)
Fixpoint od_set (k v : string) (d : list (string * string))
  : list (string * string) :=
  match d with
  | [] => [(k, v)]
  | (k', v') :: d' =>
      if decide (k' = k) then (k, v) :: d' else (k', v') :: od_set k v d'
  end.

Fixpoint od_get (d : list (string * string)) (k : string) : option string :=
  match d with
  | [] => None
  | (k', v') :: d' => if decide (k' = k) then Some v' else od_get d' k
  end.

(** A run of assignments [mapping[k] = v], one per row, in order. *)
Definition assignments (rows : list (string * string))
    (mapping : list (string * string)) : list (string * string) :=
  foldl (λ m row, od_set row.1 row.2 m) mapping rows.

Definition debug_conv_rows : list (string * string) :=
  [ ("conv_block.weight", "convBlock1.conv1.weight");
    ("conv_block.bias", "convBlock1.conv1.bias");
    ("conv_block.weight__2", "convBlock1.bn1.weight");
    ("conv_block.bias__3", "convBlock1.bn1.bias");
    ("conv_block.running_mean", "convBlock1.bn1.running_mean");
    ("conv_block.running_var", "convBlock1.bn1.running_var") ].

(** The assignments of one iteration of the loop over the blocks. *)
Definition debug_block_rows (i : Z) : list (string * string) :=
  let prefix := "res_block_" +:+ str i in
  let py_prefix := "residualBlocks." +:+ str i in
  if decide (i = 0) then
    [ (prefix +:+ ".weight", py_prefix +:+ ".conv1.weight");
      (prefix +:+ ".bias", py_prefix +:+ ".conv1.bias");
      (prefix +:+ ".weight__8", py_prefix +:+ ".bn2.weight");
      (prefix +:+ ".bias__9", py_prefix +:+ ".bn2.bias");
      (prefix +:+ ".bias__12", py_prefix +:+ ".bn1.bias");
      (prefix +:+ ".weight__13", py_prefix +:+ ".conv2.weight");
      (prefix +:+ ".weight__14", py_prefix +:+ ".bn1.weight");
      (prefix +:+ ".bias__15", py_prefix +:+ ".conv2.bias");
      (prefix +:+ ".running_mean", py_prefix +:+ ".bn1.running_mean");
      (prefix +:+ ".running_var", py_prefix +:+ ".bn1.running_var");
      (prefix +:+ ".running_mean__16", py_prefix +:+ ".bn2.running_mean");
      (prefix +:+ ".running_var__17", py_prefix +:+ ".bn2.running_var") ]
  else
    let base := 20 + (i - 1) * 12 in
    [ (prefix +:+ ".weight", py_prefix +:+ ".conv1.weight");
      (prefix +:+ ".bias", py_prefix +:+ ".conv1.bias");
      (prefix +:+ ".weight__" +:+ str base, py_prefix +:+ ".bn2.weight");
      (prefix +:+ ".bias__" +:+ str (base + 1), py_prefix +:+ ".conv1.bias");
      (prefix +:+ ".weight__" +:+ str (base + 2), py_prefix +:+ ".bn2.weight");
      (prefix +:+ ".bias__" +:+ str (base + 3), py_prefix +:+ ".bn2.bias");
      (prefix +:+ ".bias__" +:+ str (base + 4), py_prefix +:+ ".bn1.bias");
      (prefix +:+ ".weight__" +:+ str (base + 5), py_prefix +:+ ".bn1.weight");
      (prefix +:+ ".weight__" +:+ str (base + 6), py_prefix +:+ ".conv2.weight");
      (prefix +:+ ".bias__" +:+ str (base + 7), py_prefix +:+ ".conv2.bias");
      (prefix +:+ ".running_mean", py_prefix +:+ ".bn1.running_mean");
      (prefix +:+ ".running_var", py_prefix +:+ ".bn1.running_var");
      (prefix +:+ ".running_mean__" +:+ str (base + 8),
       py_prefix +:+ ".bn2.running_mean");
      (prefix +:+ ".running_var__" +:+ str (base + 9),
       py_prefix +:+ ".bn2.running_var") ].

(** [create_correct_mapping(num_blocks)] *)
Definition create_correct_mapping (num_blocks : Z) : list (string * string) :=
  foldl (λ mapping i, assignments (debug_block_rows i) mapping)
        (assignments debug_conv_rows [])
        (range num_blocks).

(** [{v: k for k, v in mapping.items()}] *)
Definition inverse_mapping (mapping : list (string * string))
  : list (string * string) :=
  foldl (λ inv item, od_set item.2 item.1 inv) [] mapping.


(** ** The heuristic mapping of [generate_mapping.py] *)

(** [s.split(sep)] for a non-empty separator string (every call of the
    script passes ['__']): the separators are taken from left to right and
    do not overlap. *)
Fixpoint split_str_go (fuel : nat) (sep s : string) : list string :=
  match fuel with
  | O => [s]
  | S fuel' =>
      if String.prefix sep s
      then EmptyString
           :: split_str_go fuel' sep (string_drop (String.length sep) s)
      else match s with
           | EmptyString => [EmptyString]
           | String c s' =>
               match split_str_go fuel' sep s' with
               | piece :: pieces => String c piece :: pieces
               | [] => [String c EmptyString]
               end
           end
  end.

Definition split_str (s sep : string) : list string :=
  split_str_go (S (String.length s)) sep s.

(** [mapping[name] = v] when a rule chose a source name [v]; nothing when
    no branch of the rule assigns. *)
Definition setitem_opt (name : string) (v : option string)
    (mapping : list (string * string)) : list (string * string) :=
  match v with
  | Some v => od_set name v mapping
  | None => mapping
  end.

(** [for name, shape in items: ...] where the body is a rule that chooses
    the source name to store under [name], if any, or raises. *)
Fixpoint for_items (rule : string → string → Result (option string))
    (items mapping : list (string * string)) : Result (list (string * string)) :=
  match items with
  | [] => ret mapping
  | (name, shape) :: items' =>
      v ←' rule name shape;
      for_items rule items' (setitem_opt name v mapping)
  end.

(** The body of the loop over the stem names. *)
Definition conv_rule (name shape : string) : Result (option string) :=
  if startswith name "conv_block." then
    if decide (shape = "[128, 16, 3, 3]" ∨ shape = "[256, 16, 3, 3]") then
      ret (Some "convBlock1.conv1.weight")
    else if decide (name = "conv_block.bias"
                    ∧ (shape = "[128]" ∨ shape = "[256]")) then
      ret (Some "convBlock1.conv1.bias")
    else if decide (name = "conv_block.weight__2") then
      ret (Some "convBlock1.bn1.weight")
    else if decide (name = "conv_block.bias__3") then
      ret (Some "convBlock1.bn1.bias")
    else if decide (name = "conv_block.running_mean") then
      ret (Some "convBlock1.bn1.running_mean")
    else if decide (name = "conv_block.running_var") then
      ret (Some "convBlock1.bn1.running_var")
    else ret None
  else ret None.

(** The body of the loop over the names of residual block [i]. *)
Definition block_rule (i : Z) (name shape : string) : Result (option string) :=
  let prefix := "res_block_" +:+ str i in
  let py := "residualBlocks." +:+ str i in
  let suffix := string_drop (String.length prefix + 1) name in
  if contains "3, 3]" shape then
    if decide (name = prefix +:+ ".weight"
               ∨ (startswith suffix "weight" = true
                  ∧ split_str suffix "__" !! 0%nat = Some "weight")) then
      ret (Some (py +:+ ".conv1.weight"))
    else ret (Some (py +:+ ".conv2.weight"))
  else if decide (shape = "[128]" ∨ shape = "[256]") then
    if decide (name = prefix +:+ ".bias") then
      ret (Some (py +:+ ".conv1.bias"))
    else if startswith suffix "bias__" then
      let parts := split_str suffix "__" in
      if decide (length parts = 2%nat) then
        num ←' (piece ←' list_getitem parts 1; int piece);
        if decide (i = 0) then
          if decide (num = 9) then ret (Some (py +:+ ".bn2.bias"))
          else if decide (num = 12) then ret (Some (py +:+ ".bn1.bias"))
          else if decide (num = 15) then ret (Some (py +:+ ".conv2.bias"))
          else ret None
        else
          let block_base := 20 + (i - 1) * 12 in
          if decide (num = block_base + 1) then
            ret (Some (py +:+ ".conv1.bias"))
          else if decide (num = block_base + 3) then
            ret (Some (py +:+ ".bn2.bias"))
          else if decide (num = block_base + 4) then
            ret (Some (py +:+ ".bn1.bias"))
          else if decide (num = block_base + 7) then
            ret (Some (py +:+ ".conv2.bias"))
          else ret None
      else ret None
    else if startswith suffix "weight__" then
      let parts := split_str suffix "__" in
      if decide (length parts = 2%nat) then
        num ←' (piece ←' list_getitem parts 1; int piece);
        if decide (i = 0) then
          if decide (num = 8) then ret (Some (py +:+ ".bn2.weight"))
          else if decide (num = 14) then ret (Some (py +:+ ".bn1.weight"))
          else ret None
        else
          let block_base := 20 + (i - 1) * 12 in
          if decide (num = block_base + 2) then
            ret (Some (py +:+ ".bn2.weight"))
          else if decide (num = block_base + 5) then
            ret (Some (py +:+ ".bn1.weight"))
          else ret None
      else ret None
    else ret None
  else if contains "running_mean" name then
    if decide (suffix = "running_mean") then
      ret (Some (py +:+ ".bn1.running_mean"))
    else ret (Some (py +:+ ".bn2.running_mean"))
  else if contains "running_var" name then
    if decide (suffix = "running_var") then
      ret (Some (py +:+ ".bn1.running_var"))
    else ret (Some (py +:+ ".bn2.running_var"))
  else ret None.

(** [{k: v for k, v in tch_vars.items() if k.startswith(prefix + '.')}] *)
Definition block_vars (i : Z) (tch_vars : list (string * string))
  : list (string * string) :=
  filter (λ item, startswith item.1 (("res_block_" +:+ str i) +:+ ".") = true)
         tch_vars.

(** The body of the loop over the value head names. *)
Definition value_rule (name shape : string) : Result (option string) :=
  if startswith name "value_head." then
    if decide (shape = "[1, 128, 1, 1]" ∨ shape = "[1, 256, 1, 1]") then
      ret (Some "valueHead.conv1.weight")
    else if decide (name = "value_head.bias" ∧ shape = "[1]") then
      ret (Some "valueHead.conv1.bias")
    else if contains "weight__" name then
      if decide (shape = "[1]") then ret (Some "valueHead.bn1.weight")
      else if decide (shape = "[256, 64]") then ret (Some "valueHead.fc1.weight")
      else if decide (shape = "[1, 256]") then ret (Some "valueHead.fc2.weight")
      else ret None
    else if decide (contains "bias__" name = true ∧ shape ≠ "[1]") then
      if decide (shape = "[256]") then ret (Some "valueHead.fc1.bias")
      else
        let parts := split_str name "__" in
        if decide (length parts = 2%nat) then
          num ←' (piece ←' list_getitem parts 1; int piece);
          if decide (num = 129 ∨ num = 249) then
            ret (Some "valueHead.bn1.bias")
          else if decide (num = 134 ∨ num = 254) then
            ret (Some "valueHead.fc2.bias")
          else if decide (num = 132 ∨ num = 252) then
            ret (Some "valueHead.fc1.bias")
          else ret None
        else ret None
    else if decide (name = "value_head.running_mean") then
      ret (Some "valueHead.bn1.running_mean")
    else if decide (name = "value_head.running_var") then
      ret (Some "valueHead.bn1.running_var")
    else ret None
  else ret None.

(** The body of the loop over the policy head names. *)
Definition policy_rule (name shape : string) : Result (option string) :=
  if startswith name "policy_head." then
    if decide (shape = "[2, 128, 1, 1]" ∨ shape = "[2, 256, 1, 1]") then
      ret (Some "policyHead.conv1.weight")
    else if decide (name = "policy_head.bias" ∧ shape = "[2]") then
      ret (Some "policyHead.conv1.bias")
    else if contains "weight__" name then
      if decide (shape = "[2]") then ret (Some "policyHead.bn1.weight")
      else if decide (shape = "[4608, 128]" ∨ shape = "[4608, 256]") then
        ret (Some "policyHead.fc1.weight")
      else ret None
    else if contains "bias__" name then
      if decide (shape = "[4608]") then ret (Some "policyHead.fc1.bias")
      else if decide (shape = "[2]") then ret (Some "policyHead.bn1.bias")
      else ret None
    else if decide (name = "policy_head.running_mean") then
      ret (Some "policyHead.bn1.running_mean")
    else if decide (name = "policy_head.running_var") then
      ret (Some "policyHead.bn1.running_var")
    else ret None
  else ret None.

(** [for i in range(num_blocks): ...] over the blocks. *)
Fixpoint for_blocks (blocks : list Z) (tch_vars mapping : list (string * string))
  : Result (list (string * string)) :=
  match blocks with
  | [] => ret mapping
  | i :: blocks' =>
      mapping ←' for_items (block_rule i) (block_vars i tch_vars) mapping;
      for_blocks blocks' tch_vars mapping
  end.

(** [create_mapping(tch_vars, num_blocks)]; [tch_vars] is a dictionary from
    names to shape strings, given by its items in insertion order. *)
Definition create_mapping (tch_vars : list (string * string)) (num_blocks : Z)
  : Result (list (string * string)) :=
  mapping ←' for_items conv_rule tch_vars [];
  mapping ←' for_blocks (range num_blocks) tch_vars mapping;
  mapping ←' for_items value_rule tch_vars mapping;
  for_items policy_rule tch_vars mapping.

(** The names and shapes of block 0 of the 10x128 model, as dumped in
    [debug_tch_names.py]. *)
Definition block0_dump : list (string * string) :=
  [ ("res_block_0.bias", "[128]");
    ("res_block_0.bias__12", "[128]");
    ("res_block_0.bias__15", "[128]");
    ("res_block_0.bias__9", "[128]");
    ("res_block_0.running_mean", "[128]");
    ("res_block_0.running_mean__16", "[128]");
    ("res_block_0.running_var", "[128]");
    ("res_block_0.running_var__17", "[128]");
    ("res_block_0.weight", "[128, 128, 3, 3]");
    ("res_block_0.weight__13", "[128, 128, 3, 3]");
    ("res_block_0.weight__14", "[128]");
    ("res_block_0.weight__8", "[128]") ].

(** ** The grouping of [create_model_trace.py] *)

(** [if base not in components: components[base] = []] followed by
    [components[base].append(name)]: a new key goes to the end of the
    dictionary, an existing one keeps its place. *)
Fixpoint append_to_component (base name : string)
    (components : list (string * list string)) : list (string * list string) :=
  match components with
  | [] => [(base, [name])]
  | (base', names) :: components' =>
      if decide (base' = base) then (base', names ++ [name]) :: components'
      else (base', names) :: append_to_component base name components'
  end.

(** [for name in var_names: base = name.split('.')[0]; ...] *)
Fixpoint group_names (var_names : list string)
    (components : list (string * list string))
  : Result (list (string * list string)) :=
  match var_names with
  | [] => ret components
  | name :: var_names' =>
      base ←' list_getitem (split "." name) 0;
      group_names var_names' (append_to_component base name components)
  end.

(** The dictionary [components] after the loop, starting from [{}]. *)
Definition components (var_names : list string)
  : Result (list (string * list string)) :=
  group_names var_names [].

(** The names of [var_names] whose first dotted piece is [base], in the
    order of [var_names]. *)
Definition names_of_component (base : string) (var_names : list string)
  : list string :=
  filter (λ name, split "." name !! 0%nat = Some base) var_names.

(** * Statements and tables *)

Lemma bind_ret_r {A} (r : Result A) : bind r ret = r.
Proof. by destruct r. Qed.

Lemma bind_ext {A B} (r : Result A) (f g : A → Result B) :
  (∀ a, f a = g a) → bind r f = bind r g.
Proof. intros Hfg. destruct r; simpl; [done | apply Hfg]. Qed.

Lemma bind_assoc {A B C} (r : Result A) (f : A → Result B) (g : B → Result C) :
  bind (bind r f) g = bind r (λ a, bind (f a) g).
Proof. by destruct r. Qed.

Lemma seq_skip_r (a : Stmt) tch : (a ;; skip) tch = a tch.
Proof. unfold seq_stmt, skip. apply bind_ret_r. Qed.

Lemma run_table_cons sd d s table tch :
  run_table sd ((d, s) :: table) tch = bind (assign sd d s tch) (run_table sd table).
Proof. reflexivity. Qed.

Lemma run_table_app sd l1 l2 tch :
  run_table sd (l1 ++ l2) tch = bind (run_table sd l1 tch) (run_table sd l2).
Proof.
  revert tch. induction l1 as [|[d s] l1 IH]; intros tch; [done|].
  rewrite <-app_comm_cons, !run_table_cons, bind_assoc.
  apply bind_ext. intros a. apply IH.
Qed.

Lemma for_each_ext l (f g : Z → Stmt) tch :
  (∀ i t, f i t = g i t) → for_each l f tch = for_each l g tch.
Proof.
  intros Hfg. revert tch. induction l as [|i l IH]; intros tch; [done|].
  simpl. unfold seq_stmt. rewrite Hfg. apply bind_ext. intros a. apply IH.
Qed.

Lemma for_each_run_table sd l (f : Z → list (string * string)) tch :
  for_each l (λ i, run_table sd (f i)) tch = run_table sd (l ≫= f) tch.
Proof.
  revert tch. induction l as [|i l IH]; intros tch; [done|].
  rewrite bind_cons, run_table_app. simpl. unfold seq_stmt.
  apply bind_ext. intros a. apply IH.
Qed.

Lemma run_table_step sd d s (k : Stmt) table tch :
  (∀ t, k t = run_table sd table t) →
  (assign sd d s ;; k) tch = run_table sd ((d, s) :: table) tch.
Proof. intros Hk. rewrite run_table_cons. apply bind_ext, Hk. Qed.

Lemma run_table_last sd d s tch :
  assign sd d s tch = run_table sd [(d, s)] tch.
Proof. rewrite run_table_cons. symmetry. apply bind_ret_r. Qed.

(** Walks through a straight-line block of assignments, matching each one
    with the next row of the table. *)
Ltac walk_assignments :=
  repeat (apply run_table_step; intros ?); apply run_table_last.

Lemma conv_block_runs sd tch :
  conv_block sd tch = run_table sd conv_block_table tch.
Proof. unfold conv_block, conv_block_table. walk_assignments. Qed.

Lemma value_head_runs sd num_blocks tch :
  value_head sd num_blocks tch = run_table sd (value_head_table num_blocks) tch.
Proof.
  unfold value_head, value_head_table. case_decide; walk_assignments.
Qed.

Lemma policy_head_runs sd num_blocks tch :
  policy_head sd num_blocks tch = run_table sd (policy_head_table num_blocks) tch.
Proof.
  unfold policy_head, policy_head_table. case_decide; walk_assignments.
Qed.

Lemma str_0 : str 0 = "0".
Proof. reflexivity. Qed.

Lemma res_block_table_0 :
  res_block_table 0 =
  [ ("res_block_0.weight", "residualBlocks.0.conv1.weight");
    ("res_block_0.bias", "residualBlocks.0.conv1.bias");
    ("res_block_0.running_mean", "residualBlocks.0.bn1.running_mean");
    ("res_block_0.running_var", "residualBlocks.0.bn1.running_var");
    ("res_block_0.weight__8", "residualBlocks.0.bn2.weight");
    ("res_block_0.bias__9", "residualBlocks.0.bn2.bias");
    ("res_block_0.bias__12", "residualBlocks.0.bn1.bias");
    ("res_block_0.weight__13", "residualBlocks.0.conv2.weight");
    ("res_block_0.weight__14", "residualBlocks.0.bn1.weight");
    ("res_block_0.bias__15", "residualBlocks.0.conv2.bias");
    ("res_block_0.running_mean__16", "residualBlocks.0.bn2.running_mean");
    ("res_block_0.running_var__17", "residualBlocks.0.bn2.running_var") ].
Proof. vm_compute. reflexivity. Qed.

Lemma res_block_runs sd i tch :
  res_block sd i tch = run_table sd (res_block_table i) tch.
Proof.
  destruct (decide (i = 0)) as [->|Hi].
  - rewrite res_block_table_0. unfold res_block.
    rewrite str_0. cbv [String.append]. walk_assignments.
  - unfold res_block, res_block_table, block_suffixes, bare_roles,
      suffixed_roles.
    rewrite !decide_False by done.
    cbv [fmap list_fmap zip_with fst snd String.append]. walk_assignments.
Qed.

(** The conversion is the in-order execution of the name mapping. *)
Lemma convert_runs_table sd num_blocks num_filters :
  convert_to_tch_format sd num_blocks num_filters
  = run_table sd (name_mapping num_blocks) ∅.
Proof.
  unfold convert_to_tch_format, name_mapping, seq_stmt.
  rewrite run_table_app, conv_block_runs.
  apply bind_ext. intros t1. rewrite run_table_app.
  rewrite (for_each_ext _ _ (λ i, run_table sd (res_block_table i)))
    by (intros; apply res_block_runs).
  rewrite for_each_run_table. apply bind_ext. intros t2.
  rewrite run_table_app, value_head_runs. apply bind_ext. intros t3.
  apply policy_head_runs.
Qed.

(** * What a table of assignments computes *)

Lemma assign_Some sd d s tch t :
  sd !! s = Some t → assign sd d s tch = inr (<[d := t]> tch).
Proof. intros Hs. unfold assign, getitem. by rewrite Hs. Qed.

Lemma assign_None sd d s tch :
  sd !! s = None → assign sd d s tch = inl (KeyError s).
Proof. intros Hs. unfold assign, getitem. by rewrite Hs. Qed.

Lemma run_table_cons_inv sd d s table tch out :
  run_table sd ((d, s) :: table) tch = inr out →
  ∃ t, sd !! s = Some t ∧ run_table sd table (<[d := t]> tch) = inr out.
Proof.
  rewrite run_table_cons. destruct (sd !! s) as [t|] eqn:Hs.
  - rewrite (assign_Some _ _ _ _ t) by done. simpl. eauto.
  - by rewrite assign_None.
Qed.

Lemma run_table_total sd table tch :
  (∀ s, s ∈ table.*2 → is_Some (sd !! s)) →
  ∃ out, run_table sd table tch = inr out.
Proof.
  revert tch. induction table as [|[d s] table IH]; intros tch Hall.
  - by exists tch.
  - destruct (Hall s) as [t Ht]; [rewrite fmap_cons; apply elem_of_cons; by left|].
    rewrite run_table_cons, (assign_Some _ _ _ _ t) by done. simpl.
    apply IH. intros s' Hs'. apply Hall.
    rewrite fmap_cons. apply elem_of_cons. by right.
Qed.

Lemma run_table_sources sd table tch out :
  run_table sd table tch = inr out →
  ∀ s, s ∈ table.*2 → is_Some (sd !! s).
Proof.
  revert tch. induction table as [|[d s] table IH]; intros tch Hrun s' Hs'.
  - by apply elem_of_nil in Hs'.
  - apply run_table_cons_inv in Hrun as (t & Ht & Hrun).
    rewrite fmap_cons, elem_of_cons in Hs'. destruct Hs' as [->|Hs']; eauto.
Qed.

Lemma run_table_dom sd table tch out :
  run_table sd table tch = inr out →
  dom out = list_to_set table.*1 ∪ dom tch.
Proof.
  revert tch. induction table as [|[d s] table IH]; intros tch Hrun.
  - injection Hrun as <-. simpl. by rewrite (left_id_L ∅ (∪)).
  - apply run_table_cons_inv in Hrun as (t & Ht & Hrun).
    rewrite (IH _ Hrun), dom_insert_L, fmap_cons. simpl.
    rewrite (assoc_L (∪)), (comm_L (∪) (list_to_set _) {[d]}). done.
Qed.

Lemma run_table_lookup_other sd table tch out d :
  run_table sd table tch = inr out → d ∉ table.*1 → out !! d = tch !! d.
Proof.
  revert tch. induction table as [|[d' s] table IH]; intros tch Hrun Hd.
  - by injection Hrun as <-.
  - apply run_table_cons_inv in Hrun as (t & Ht & Hrun).
    rewrite fmap_cons, not_elem_of_cons in Hd. destruct Hd as [Hne Hd].
    rewrite (IH _ Hrun Hd). by apply lookup_insert_ne.
Qed.

Lemma run_table_lookup sd table tch out d s :
  run_table sd table tch = inr out → NoDup table.*1 → (d, s) ∈ table →
  out !! d = sd !! s.
Proof.
  revert tch. induction table as [|[d' s'] table IH]; intros tch Hrun Hnd Hin.
  - by apply elem_of_nil in Hin.
  - apply run_table_cons_inv in Hrun as (t & Ht & Hrun).
    rewrite fmap_cons in Hnd. simpl in Hnd.
    apply NoDup_cons in Hnd as [Hfresh Hnd].
    apply elem_of_cons in Hin as [[= -> ->]|Hin].
    + rewrite (run_table_lookup_other _ _ _ _ _ Hrun Hfresh).
      by rewrite lookup_insert_eq.
    + by apply (IH _ Hrun).
Qed.

Lemma run_table_origin sd table tch out d t :
  run_table sd table tch = inr out → out !! d = Some t →
  tch !! d = Some t ∨ ∃ s, (d, s) ∈ table ∧ sd !! s = Some t.
Proof.
  revert tch. induction table as [|[d' s'] table IH]; intros tch Hrun Hout.
  - injection Hrun as <-. by left.
  - apply run_table_cons_inv in Hrun as (t' & Ht' & Hrun).
    destruct (IH _ Hrun Hout) as [Hins|(s & Hin & Hs)].
    + rewrite lookup_insert in Hins. case_decide as Hd.
      * injection Hins as <-. subst d'. right. exists s'. split; [|done].
        apply elem_of_cons. by left.
      * by left.
    + right. exists s. split; [|done]. apply elem_of_cons. by right.
Qed.

Lemma run_table_raises sd l1 d s l2 tch :
  (∀ s', s' ∈ l1.*2 → is_Some (sd !! s')) → sd !! s = None →
  run_table sd (l1 ++ (d, s) :: l2) tch = inl (KeyError s).
Proof.
  intros Hl1 Hs. rewrite run_table_app.
  destruct (run_table_total sd l1 tch Hl1) as [mid ->].
  change (run_table sd ((d, s) :: l2) mid = inl (KeyError s)).
  by rewrite run_table_cons, assign_None.
Qed.

Lemma run_table_error sd table tch e :
  run_table sd table tch = inl e →
  ∃ s, e = KeyError s ∧ s ∈ table.*2 ∧ sd !! s = None.
Proof.
  revert tch. induction table as [|[d s] table IH]; intros tch Hrun; [done|].
  rewrite run_table_cons in Hrun. destruct (sd !! s) as [t|] eqn:Hs.
  - rewrite (assign_Some _ _ _ _ t) in Hrun by done. simpl in Hrun.
    destruct (IH _ Hrun) as (s' & -> & Hin & Hnone).
    exists s'. split_and!; [done| |done].
    rewrite fmap_cons. apply elem_of_cons. by right.
  - rewrite assign_None in Hrun by done. injection Hrun as <-.
    exists s. split_and!; [done| |done].
    rewrite fmap_cons. apply elem_of_cons. by left.
Qed.

(** * Decimal numerals *)

Lemma digit_value_pretty_N_char x :
  (x < 10)%N → digit_value (pretty_N_char x) = Some (Z.of_N x).
Proof.
  intros Hx. destruct x as [|p]; [done|].
  do 4 (try destruct p as [p|p|]; try lia; try reflexivity).
Qed.

Lemma all_digits_pretty_N_go x s :
  all_digits s → all_digits (pretty_N_go x s).
Proof.
  revert s. induction (N.lt_wf_0 x) as [x _ IH]; intros s Hs.
  destruct (decide (x = 0)%N) as [->|Hx]; [by rewrite pretty_N_go_0|].
  rewrite pretty_N_go_step by lia. apply IH.
  - apply N.div_lt; lia.
  - split; [|done].
    rewrite digit_value_pretty_N_char; [done|]. apply N.mod_lt. lia.
Qed.

Lemma str_digits (i : Z) : (0 ≤ i)%Z → all_digits (str i).
Proof.
  intros Hi. unfold str, pretty, pretty_Z. destruct i as [|p|p]; [|  |lia].
  - split; [by exists 0|done].
  - unfold pretty, pretty_positive, pretty, pretty_N.
    case_decide; [done|]. by apply all_digits_pretty_N_go.
Qed.

Lemma str_inj (i j : Z) : str i = str j → i = j.
Proof. apply (inj (pretty : Z → string)). Qed.

Lemma digit_not_dot c : is_Some (digit_value c) → c ≠ "."%char.
Proof. intros [d Hd] ->. vm_compute in Hd. discriminate. Qed.

(** A numeral followed by a dot is read back unambiguously. *)
Lemma append_dot_inj a b s t :
  all_digits a → all_digits b →
  a +:+ String "." s = b +:+ String "." t → a = b ∧ s = t.
Proof.
  revert b. induction a as [|c a IH]; intros [|c' b] Ha Hb Heq; simpl in *.
  - by injection Heq as ->.
  - injection Heq as <- _. destruct Hb as [Hc' _].
    by apply digit_not_dot in Hc'.
  - injection Heq as -> _. destruct Ha as [Hc _].
    by apply digit_not_dot in Hc.
  - injection Heq as -> Heq. destruct Ha as [_ Ha], Hb as [_ Hb].
    destruct (IH b Ha Hb Heq) as [-> ->]. done.
Qed.

Lemma str_dot_inj (i j : Z) s t :
  (0 ≤ i)%Z → (0 ≤ j)%Z →
  str i +:+ String "." s = str j +:+ String "." t → i = j ∧ s = t.
Proof.
  intros Hi Hj Heq.
  apply append_dot_inj in Heq as [Heq ->]; [|by apply str_digits..].
  split; [|done]. by apply str_inj.
Qed.

Lemma append_inj_l (p s t : string) : p +:+ s = p +:+ t → s = t.
Proof. induction p as [|c p IH]; simpl; [done|]. intros [= Heq]. auto. Qed.

Lemma elem_of_range (i n : Z) : i ∈ range n ↔ (0 ≤ i < n)%Z.
Proof. unfold range. rewrite elem_of_seqZ. lia. Qed.

Lemma NoDup_range n : NoDup (range n).
Proof. apply NoDup_seqZ. Qed.

Lemma fmap_bind_list {A B C} (f : B → C) (g : A → list B) (l : list A) :
  f <$> (l ≫= g) = l ≫= (λ a, f <$> g a).
Proof.
  induction l as [|a l IH]; [done|].
  by rewrite !bind_cons, fmap_app, IH.
Qed.

(** * The name mapping is one-to-one *)

(** Refutes an equation between two names built from literal pieces and
    numerals. *)
Ltac name_neq :=
  let H := fresh "Heq" in
  intros H; repeat apply append_inj_l in H;
  cbv [String.append] in H; simplify_eq/=;
  try lia;
  try match goal with
      | H' : str _ = str _ |- _ => apply str_inj in H'; lia
      end.

Ltac NoDup_names :=
  repeat (apply NoDup_cons_2;
          [rewrite ?not_elem_of_cons; split_and?;
           first [apply not_elem_of_nil | name_neq]|]);
  apply NoDup_nil_2.

Lemma res_block_table_dst i :
  (res_block_table i).*1
  = (λ r, "res_block_" +:+ str i +:+ r) <$> block_dst_suffixes i.
Proof.
  unfold res_block_table, block_dst_suffixes, block_suffixes.
  by case_decide.
Qed.

Lemma res_block_table_src i :
  (res_block_table i).*2
  = (λ r, "residualBlocks." +:+ str i +:+ r) <$> block_src_suffixes.
Proof.
  unfold res_block_table, block_src_suffixes, block_suffixes.
  by case_decide.
Qed.

Lemma block_dst_suffixes_NoDup i : NoDup (block_dst_suffixes i).
Proof.
  destruct (decide (i = 0)) as [->|Hi].
  { apply (bool_decide_unpack _). by vm_compute. }
  unfold block_dst_suffixes, block_suffixes, bare_roles, suffixed_roles.
  rewrite decide_False by done.
  cbv [fmap list_fmap zip_with fst snd app]. NoDup_names.
Qed.

Lemma block_src_suffixes_NoDup : NoDup block_src_suffixes.
Proof. apply (bool_decide_unpack _). by vm_compute. Qed.

Lemma block_dst_suffixes_dot i r :
  r ∈ block_dst_suffixes i → ∃ r', r = String "." r'.
Proof.
  revert r. apply Forall_forall.
  unfold block_dst_suffixes, block_suffixes, bare_roles, suffixed_roles.
  case_decide; cbv [fmap list_fmap zip_with fst snd app];
    repeat (constructor; [eexists; reflexivity|]); constructor.
Qed.

Lemma block_src_suffixes_dot r :
  r ∈ block_src_suffixes → ∃ r', r = String "." r'.
Proof.
  revert r. apply Forall_forall.
  unfold block_src_suffixes, bare_roles, suffixed_roles.
  cbv [fmap list_fmap fst snd app].
  repeat (constructor; [eexists; reflexivity|]); constructor.
Qed.

Lemma res_block_table_NoDup_dst i : NoDup (res_block_table i).*1.
Proof.
  rewrite res_block_table_dst.
  apply NoDup_fmap_2_strong; [|apply block_dst_suffixes_NoDup].
  intros r1 r2 _ _ Heq. by do 2 apply append_inj_l in Heq.
Qed.

Lemma res_block_table_NoDup_src i : NoDup (res_block_table i).*2.
Proof.
  rewrite res_block_table_src.
  apply NoDup_fmap_2_strong; [|apply block_src_suffixes_NoDup].
  intros r1 r2 _ _ Heq. by do 2 apply append_inj_l in Heq.
Qed.

Lemma res_block_table_shape i d s :
  (d, s) ∈ res_block_table i →
  ∃ r r', d = "res_block_" +:+ str i +:+ String "." r
          ∧ s = "residualBlocks." +:+ str i +:+ String "." r'.
Proof.
  intros Hin.
  assert (d ∈ (res_block_table i).*1) as Hd
    by (apply list_elem_of_fmap; by exists (d, s)).
  assert (s ∈ (res_block_table i).*2) as Hs
    by (apply list_elem_of_fmap; by exists (d, s)).
  rewrite res_block_table_dst in Hd. rewrite res_block_table_src in Hs.
  apply list_elem_of_fmap in Hd as (r1 & -> & [r ->]%block_dst_suffixes_dot).
  apply list_elem_of_fmap in Hs as (r2 & -> & [r' ->]%block_src_suffixes_dot).
  by exists r, r'.
Qed.

Lemma res_block_table_dst_block (i j : Z) x :
  (0 ≤ i)%Z → (0 ≤ j)%Z →
  x ∈ (res_block_table i).*1 → x ∈ (res_block_table j).*1 → i = j.
Proof.
  intros Hi Hj [[d s] [-> Hin1]]%list_elem_of_fmap
    [[d' s'] [Heq Hin2]]%list_elem_of_fmap. simpl in Heq. subst d'.
  apply res_block_table_shape in Hin1 as (r1 & _ & -> & _).
  apply res_block_table_shape in Hin2 as (r2 & _ & Heq & _).
  apply append_inj_l in Heq. by apply str_dot_inj in Heq as [-> _].
Qed.

Lemma res_block_table_src_block (i j : Z) x :
  (0 ≤ i)%Z → (0 ≤ j)%Z →
  x ∈ (res_block_table i).*2 → x ∈ (res_block_table j).*2 → i = j.
Proof.
  intros Hi Hj [[d s] [-> Hin1]]%list_elem_of_fmap
    [[d' s'] [Heq Hin2]]%list_elem_of_fmap. simpl in Heq. subst s'.
  apply res_block_table_shape in Hin1 as (_ & r1 & _ & ->).
  apply res_block_table_shape in Hin2 as (_ & r2 & _ & Heq).
  apply append_inj_l in Heq. by apply str_dot_inj in Heq as [-> _].
Qed.

Lemma res_blocks_NoDup_dst n : NoDup (range n ≫= res_block_table).*1.
Proof.
  rewrite fmap_bind_list. apply NoDup_bind.
  - intros i j x Hi%elem_of_range Hj%elem_of_range.
    apply res_block_table_dst_block; lia.
  - intros i _. apply res_block_table_NoDup_dst.
  - apply NoDup_range.
Qed.

Lemma res_blocks_NoDup_src n : NoDup (range n ≫= res_block_table).*2.
Proof.
  rewrite fmap_bind_list. apply NoDup_bind.
  - intros i j x Hi%elem_of_range Hj%elem_of_range.
    apply res_block_table_src_block; lia.
  - intros i _. apply res_block_table_NoDup_src.
  - apply NoDup_range.
Qed.

(** The four groups start with different letters, on both sides. *)
Lemma conv_block_table_tag p :
  p ∈ conv_block_table →
  first_char p.1 = Some "c"%char ∧ first_char p.2 = Some "c"%char.
Proof.
  revert p. apply Forall_forall. unfold conv_block_table.
  repeat constructor.
Qed.

Lemma res_blocks_tag n p :
  p ∈ range n ≫= res_block_table →
  first_char p.1 = Some "r"%char ∧ first_char p.2 = Some "r"%char.
Proof.
  intros (i & Hin & _)%list_elem_of_bind. destruct p as [d s].
  by apply res_block_table_shape in Hin as (r & r' & -> & ->).
Qed.

Lemma value_head_table_tag n p :
  p ∈ value_head_table n →
  first_char p.1 = Some "v"%char ∧ first_char p.2 = Some "v"%char.
Proof.
  revert p. apply Forall_forall. unfold value_head_table.
  case_decide; repeat constructor.
Qed.

Lemma policy_head_table_tag n p :
  p ∈ policy_head_table n →
  first_char p.1 = Some "p"%char ∧ first_char p.2 = Some "p"%char.
Proof.
  revert p. apply Forall_forall. unfold policy_head_table.
  case_decide; repeat constructor.
Qed.

Lemma NoDup_app_tagged {A} (f : A → string) (c : ascii) (l k : list A) :
  NoDup (f <$> l) → NoDup (f <$> k) →
  (∀ x, x ∈ l → first_char (f x) = Some c) →
  (∀ x, x ∈ k → first_char (f x) ≠ Some c) →
  NoDup (f <$> (l ++ k)).
Proof.
  intros Hl Hk Hlc Hkc. rewrite fmap_app. apply NoDup_app.
  split_and!; [done| |done].
  intros y (x & -> & Hx)%list_elem_of_fmap (x' & Heq & Hx')%list_elem_of_fmap.
  apply (Hkc x' Hx'). rewrite <-Heq. by apply Hlc.
Qed.

Lemma conv_block_table_NoDup :
  NoDup conv_block_table.*1 ∧ NoDup conv_block_table.*2.
Proof. split; apply (bool_decide_unpack _); by vm_compute. Qed.

Lemma value_head_table_NoDup n :
  NoDup (value_head_table n).*1 ∧ NoDup (value_head_table n).*2.
Proof.
  unfold value_head_table.
  case_decide; split; apply (bool_decide_unpack _); by vm_compute.
Qed.

Lemma policy_head_table_NoDup n :
  NoDup (policy_head_table n).*1 ∧ NoDup (policy_head_table n).*2.
Proof.
  unfold policy_head_table.
  case_decide; split; apply (bool_decide_unpack _); by vm_compute.
Qed.

Ltac tag_mismatch tag_lemma :=
  let x := fresh "x" in let Hx := fresh "Hx" in let Hc := fresh "Hc" in
  intros x Hx Hc; apply tag_lemma in Hx as [? ?]; congruence.

Lemma name_mapping_NoDup_dst n : NoDup (name_mapping n).*1.
Proof.
  unfold name_mapping.
  apply (NoDup_app_tagged fst "c"%char);
    [apply conv_block_table_NoDup| |by intros x [??]%conv_block_table_tag|].
  - apply (NoDup_app_tagged fst "r"%char);
      [apply res_blocks_NoDup_dst| |by intros x [??]%res_blocks_tag|].
    + apply (NoDup_app_tagged fst "v"%char);
        [apply value_head_table_NoDup|apply policy_head_table_NoDup
        |by intros x [??]%value_head_table_tag|].
      tag_mismatch policy_head_table_tag.
    + intros x [Hx|Hx]%elem_of_app Hc.
      * apply value_head_table_tag in Hx as [? ?]. congruence.
      * apply policy_head_table_tag in Hx as [? ?]. congruence.
  - intros x [Hx|[Hx|Hx]%elem_of_app]%elem_of_app Hc.
    + apply res_blocks_tag in Hx as [? ?]. congruence.
    + apply value_head_table_tag in Hx as [? ?]. congruence.
    + apply policy_head_table_tag in Hx as [? ?]. congruence.
Qed.

Lemma name_mapping_NoDup_src n : NoDup (name_mapping n).*2.
Proof.
  unfold name_mapping.
  apply (NoDup_app_tagged snd "c"%char);
    [apply conv_block_table_NoDup| |by intros x [??]%conv_block_table_tag|].
  - apply (NoDup_app_tagged snd "r"%char);
      [apply res_blocks_NoDup_src| |by intros x [??]%res_blocks_tag|].
    + apply (NoDup_app_tagged snd "v"%char);
        [apply value_head_table_NoDup|apply policy_head_table_NoDup
        |by intros x [??]%value_head_table_tag|].
      tag_mismatch policy_head_table_tag.
    + intros x [Hx|Hx]%elem_of_app Hc.
      * apply value_head_table_tag in Hx as [? ?]. congruence.
      * apply policy_head_table_tag in Hx as [? ?]. congruence.
  - intros x [Hx|[Hx|Hx]%elem_of_app]%elem_of_app Hc.
    + apply res_blocks_tag in Hx as [? ?]. congruence.
    + apply value_head_table_tag in Hx as [? ?]. congruence.
    + apply policy_head_table_tag in Hx as [? ?]. congruence.
Qed.

(** * The tables against the inventories of the specification *)

Lemma bind_Permutation_pointwise {A B} (f g : A → list B) (l : list A) :
  (∀ a, f a ≡ₚ g a) → l ≫= f ≡ₚ l ≫= g.
Proof.
  intros Hfg. induction l as [|a l IH]; [done|].
  rewrite !bind_cons. by rewrite (Hfg a), IH.
Qed.

Lemma block_source_keys_Permutation i :
  (let m := "residualBlocks." +:+ str i in
   layer m "conv1" conv_params ++ layer m "conv2" conv_params ++
   layer m "bn1" bn_params ++ layer m "bn2" bn_params)
  ≡ₚ (res_block_table i).*2.
Proof.
  rewrite res_block_table_src.
  change ((λ r, "residualBlocks." +:+ str i +:+ r) <$>
            [".conv1.weight"; ".conv1.bias"; ".conv2.weight"; ".conv2.bias";
             ".bn1.weight"; ".bn1.bias"; ".bn1.running_mean"; ".bn1.running_var";
             ".bn2.weight"; ".bn2.bias"; ".bn2.running_mean"; ".bn2.running_var"]
          ≡ₚ (λ r, "residualBlocks." +:+ str i +:+ r) <$> block_src_suffixes).
  apply fmap_Permutation. apply (bool_decide_unpack _). by vm_compute.
Qed.

Lemma value_head_table_src n :
  (value_head_table n).*2
  = layer "valueHead" "conv1" conv_params ++ layer "valueHead" "bn1" bn_params ++
    layer "valueHead" "fc1" conv_params ++ layer "valueHead" "fc2" conv_params.
Proof. unfold value_head_table. by case_decide. Qed.

Lemma policy_head_table_src n :
  (policy_head_table n).*2
  = layer "policyHead" "conv1" conv_params ++
    layer "policyHead" "bn1" bn_params ++ layer "policyHead" "fc1" conv_params.
Proof. unfold policy_head_table. by case_decide. Qed.

(** The source names read by the conversion are the required inventory. *)
Lemma required_source_keys_Permutation n :
  required_source_keys n ≡ₚ (name_mapping n).*2.
Proof.
  unfold required_source_keys, name_mapping.
  rewrite !fmap_app, fmap_bind_list, value_head_table_src, policy_head_table_src.
  rewrite (bind_Permutation_pointwise _ (λ i, (res_block_table i).*2))
    by apply block_source_keys_Permutation.
  change (conv_block_table.*2)
    with (layer "convBlock1" "conv1" conv_params ++
          layer "convBlock1" "bn1" bn_params).
  by rewrite <-!(assoc_L (++)).
Qed.

Lemma elem_of_required_source_keys n s :
  s ∈ required_source_keys n ↔ s ∈ (name_mapping n).*2.
Proof. by rewrite required_source_keys_Permutation. Qed.

Lemma required_source_keys_NoDup n : NoDup (required_source_keys n).
Proof.
  rewrite required_source_keys_Permutation. apply name_mapping_NoDup_src.
Qed.

Lemma destination_keys_table p :
  destination_keys p = (name_mapping (preset_blocks p)).*1.
Proof. destruct p; vm_compute; reflexivity. Qed.

Lemma one_block_keys_table : one_block_keys = (name_mapping 1).*1.
Proof. vm_compute. reflexivity. Qed.

(** * The synthetic checkpoints *)

Lemma imap_with_key_fst {A} (g : nat → string → A) (l : list string) :
  (imap (λ n k, (k, g n k)) l).*1 = l.
Proof.
  revert g. induction l as [|k l IH]; intros g; [done|].
  rewrite imap_cons, fmap_cons. simpl. f_equal. apply (IH (λ n, g (S n))).
Qed.

Lemma sample_state_dict_dom n f :
  dom (sample_state_dict n f) = list_to_set (required_source_keys n).
Proof.
  unfold sample_state_dict. by rewrite dom_list_to_map_L, imap_with_key_fst.
Qed.

Lemma sample_state_dict_lookup n f k :
  k ∈ required_source_keys n → is_Some (sample_state_dict n f !! k).
Proof.
  intros Hk. apply elem_of_dom. rewrite sample_state_dict_dom.
  by apply elem_of_list_to_set.
Qed.

(** * The conversion as a whole *)

Lemma convert_total sd n f :
  (∀ k, k ∈ required_source_keys n → is_Some (sd !! k)) →
  ∃ out, convert_to_tch_format sd n f = inr out.
Proof.
  intros Hall. rewrite convert_runs_table. apply run_table_total.
  intros s Hs. by apply Hall, elem_of_required_source_keys.
Qed.

Lemma convert_sources sd n f out k :
  convert_to_tch_format sd n f = inr out →
  k ∈ required_source_keys n → is_Some (sd !! k).
Proof.
  rewrite convert_runs_table. intros Hrun Hk%elem_of_required_source_keys.
  by eapply run_table_sources.
Qed.

Lemma convert_dom sd n f out :
  convert_to_tch_format sd n f = inr out →
  dom out = list_to_set (name_mapping n).*1.
Proof.
  rewrite convert_runs_table. intros Hrun%run_table_dom.
  by rewrite Hrun, dom_empty_L, (right_id_L ∅ (∪)).
Qed.

Lemma convert_lookup sd n f out d s :
  convert_to_tch_format sd n f = inr out →
  (d, s) ∈ name_mapping n → out !! d = sd !! s.
Proof.
  rewrite convert_runs_table. intros Hrun Hin.
  eapply run_table_lookup; [done|apply name_mapping_NoDup_dst|done].
Qed.

Lemma convert_lookup_None sd n f out d :
  convert_to_tch_format sd n f = inr out →
  d ∉ (name_mapping n).*1 → out !! d = None.
Proof.
  rewrite convert_runs_table. intros Hrun Hd.
  by rewrite (run_table_lookup_other _ _ _ _ _ Hrun Hd).
Qed.

Lemma convert_origin sd n f out d t :
  convert_to_tch_format sd n f = inr out → out !! d = Some t →
  ∃ s, (d, s) ∈ name_mapping n ∧ sd !! s = Some t.
Proof.
  rewrite convert_runs_table. intros Hrun Hout.
  by destruct (run_table_origin _ _ _ _ _ _ Hrun Hout) as [?|?].
Qed.

Lemma convert_error sd n f e :
  convert_to_tch_format sd n f = inl e →
  ∃ k, e = KeyError k ∧ k ∈ required_source_keys n ∧ sd !! k = None.
Proof.
  rewrite convert_runs_table. intros (k & -> & Hk & Hnone)%run_table_error.
  exists k. by rewrite elem_of_required_source_keys.
Qed.

Lemma convert_missing sd n f k :
  k ∈ required_source_keys n → sd !! k = None →
  (∀ k', k' ∈ required_source_keys n → k' ≠ k → is_Some (sd !! k')) →
  convert_to_tch_format sd n f = inl (KeyError k).
Proof.
  intros Hk Hnone Hothers. rewrite convert_runs_table.
  apply elem_of_required_source_keys, list_elem_of_fmap in Hk
    as ([d s] & -> & Hin).
  apply list_elem_of_split in Hin as (l1 & l2 & Hsplit).
  pose proof (name_mapping_NoDup_src n) as Hnd.
  rewrite Hsplit. rewrite Hsplit, fmap_app, fmap_cons in Hnd.
  apply NoDup_app in Hnd as (_ & Hdisj & _).
  apply run_table_raises; [|done].
  intros s' Hs'. apply Hothers.
  - apply elem_of_required_source_keys. rewrite Hsplit, fmap_app.
    apply elem_of_app. by left.
  - intros ->. apply (Hdisj _ Hs'). apply elem_of_cons. by left.
Qed.

Lemma convert_ignores_num_filters sd n f f' :
  convert_to_tch_format sd n f = convert_to_tch_format sd n f'.
Proof. reflexivity. Qed.

Lemma sample_convert n f :
  convert_to_tch_format (sample_state_dict n f) n f = inr (sample_output n f).
Proof.
  unfold sample_output.
  destruct (convert_total (sample_state_dict n f) n f) as [out ->]; [|done].
  apply sample_state_dict_lookup.
Qed.

Lemma convert_size sd n f out :
  convert_to_tch_format sd n f = inr out →
  size out = length (name_mapping n).
Proof.
  intros Hrun. rewrite <-size_dom, (convert_dom _ _ _ _ Hrun).
  rewrite size_list_to_set by apply name_mapping_NoDup_dst.
  by rewrite length_fmap.
Qed.

(** * The claims *)

(** C1: for each supported preset (10 blocks/128 filters, 20 blocks/256
    filters), the conversion of a checkpoint holding exactly the required
    source names succeeds, and the names of its result are exactly the
    destination inventory of the preset: none is missing, none is extra, and
    the inventory has no repetition (144 and 264 names). *)
Theorem remap_preset_key_set (p : Preset) (sd : gmap string Tensor) :
  dom sd = list_to_set (required_source_keys (preset_blocks p)) →
  ∃ out,
    convert_to_tch_format sd (preset_blocks p) (preset_filters p) = inr out
    ∧ dom out = list_to_set (destination_keys p)
    ∧ NoDup (destination_keys p)
    ∧ size out = length (destination_keys p).
Proof.
  intros Hdom.
  destruct (convert_total sd (preset_blocks p) (preset_filters p))
    as [out Hout].
  { intros k Hk. apply elem_of_dom. rewrite Hdom.
    by apply elem_of_list_to_set. }
  exists out. rewrite destination_keys_table. split_and!.
  - done.
  - by apply convert_dom in Hout.
  - apply name_mapping_NoDup_dst.
  - rewrite length_fmap. by eapply convert_size.
Qed.

Lemma remap_preset_key_set_witness :
  dom (sample_state_dict 10 128)
  = list_to_set (required_source_keys (preset_blocks Preset10x128))
  ∧ ∃ out,
      convert_to_tch_format (sample_state_dict 10 128) 10 128 = inr out
      ∧ dom out = list_to_set (destination_keys Preset10x128)
      ∧ NoDup (destination_keys Preset10x128)
      ∧ size out = 144%nat.
Proof.
  split; [exact (sample_state_dict_dom 10 128)|].
  apply (remap_preset_key_set Preset10x128 (sample_state_dict 10 128)).
  exact (sample_state_dict_dom 10 128).
Defined.

(** C3: every entry of the result holds the very tensor of the source entry
    it was copied from: an entry of the result under a destination name comes
    from a row of the name mapping and equals the source tensor of that row,
    and every row of the mapping is present in the result with the source
    tensor unchanged. *)
Theorem remap_preserves_tensors sd num_blocks num_filters out :
  convert_to_tch_format sd num_blocks num_filters = inr out →
  (∀ d t, out !! d = Some t →
          ∃ s, (d, s) ∈ name_mapping num_blocks ∧ sd !! s = Some t)
  ∧ (∀ d s, (d, s) ∈ name_mapping num_blocks → out !! d = sd !! s).
Proof.
  intros Hrun. split.
  - intros d t. by apply (convert_origin sd num_blocks num_filters).
  - intros d s. by apply (convert_lookup sd num_blocks num_filters).
Qed.

Lemma remap_preserves_tensors_witness :
  convert_to_tch_format (sample_state_dict 1 128) 1 128
  = inr (sample_output 1 128)
  ∧ (∀ d t, sample_output 1 128 !! d = Some t →
            ∃ s, (d, s) ∈ name_mapping 1
                 ∧ sample_state_dict 1 128 !! s = Some t)
  ∧ (∀ d s, (d, s) ∈ name_mapping 1 →
            sample_output 1 128 !! d = sample_state_dict 1 128 !! s).
Proof.
  split; [exact (sample_convert 1 128)|].
  apply (remap_preserves_tensors (sample_state_dict 1 128) 1 128).
  exact (sample_convert 1 128).
Defined.

(** C4 (as stated, refuted): with [num_filters = 64] and a checkpoint that
    holds the required source names, the conversion does not fail: it
    returns the 144 entries of a ten-block checkpoint. *)
Lemma remap_unsupported_filters_counterexample :
  ∃ out,
    convert_to_tch_format (sample_state_dict 10 64) 10 64 = inr out
    ∧ size out = 144%nat.
Proof.
  exists (sample_output 10 64). split; [apply sample_convert|].
  by rewrite (convert_size _ _ _ _ (sample_convert 10 64)).
Qed.

(** C4 (amended): with [num_filters = 64] the conversion behaves exactly as
    with any other value of [num_filters], which is never read: it returns
    the converted dictionary when every required source name is present, and
    otherwise raises the [KeyError] of a required source name that is
    absent.  No other failure exists. *)
Theorem remap_unsupported_filters (sd : gmap string Tensor) (num_blocks : Z) :
  (∀ num_filters,
     convert_to_tch_format sd num_blocks 64
     = convert_to_tch_format sd num_blocks num_filters)
  ∧ match convert_to_tch_format sd num_blocks 64 with
    | inr out =>
        (∀ k, k ∈ required_source_keys num_blocks → is_Some (sd !! k))
        ∧ dom out = list_to_set (name_mapping num_blocks).*1
    | inl e =>
        ∃ k, e = KeyError k ∧ k ∈ required_source_keys num_blocks
             ∧ sd !! k = None
    end.
Proof.
  split; [done|].
  destruct (convert_to_tch_format sd num_blocks 64) as [e|out] eqn:Hrun.
  - by apply (convert_error sd num_blocks 64).
  - split.
    + intros k. by apply (convert_sources sd num_blocks 64 out).
    + by apply (convert_dom sd num_blocks 64).
Qed.

(** C5 (as stated, refuted): on a one-block checkpoint the result has 36
    entries, not 35, and its heads do not carry the numbers of the 10x128
    preset: [value_head.weight__128], listed by the scenario, is absent, and
    [value_head.weight__248], not listed, is present. *)
Lemma one_block_scenario_counterexample :
  ∃ out,
    convert_to_tch_format (sample_state_dict 1 128) 1 128 = inr out
    ∧ size out = 36%nat
    ∧ "value_head.weight__128" ∈ scenario_keys
    ∧ out !! "value_head.weight__128" = None
    ∧ ("value_head.weight__248" ∉ scenario_keys)
    ∧ is_Some (out !! "value_head.weight__248").
Proof.
  exists (sample_output 1 128).
  pose proof (sample_convert 1 128) as Hrun. split_and!.
  - done.
  - by rewrite (convert_size _ _ _ _ Hrun).
  - apply (bool_decide_unpack _). by vm_compute.
  - apply (convert_lookup_None _ _ _ _ _ Hrun).
    apply (bool_decide_unpack _). by vm_compute.
  - apply (bool_decide_unpack _). by vm_compute.
  - rewrite (convert_lookup _ _ _ _ _ "valueHead.bn1.weight" Hrun).
    + apply sample_state_dict_lookup. apply (bool_decide_unpack _).
      by vm_compute.
    + apply (bool_decide_unpack _). by vm_compute.
Qed.

(** C5 (amended): for a checkpoint with one residual block that holds the
    required source names, the result has exactly the six [conv_block]
    names, the twelve [res_block_0] names of the scenario, and the ten
    [value_head] and eight [policy_head] names of the 20x256 table, for 36
    names in total. *)
Theorem one_block_key_set (sd : gmap string Tensor) (num_filters : Z) :
  dom sd = list_to_set (required_source_keys 1) →
  ∃ out,
    convert_to_tch_format sd 1 num_filters = inr out
    ∧ dom out = list_to_set one_block_keys
    ∧ size out = 36%nat.
Proof.
  intros Hdom.
  destruct (convert_total sd 1 num_filters) as [out Hout].
  { intros k Hk. apply elem_of_dom. rewrite Hdom.
    by apply elem_of_list_to_set. }
  exists out. split_and!.
  - done.
  - rewrite one_block_keys_table. by apply convert_dom in Hout.
  - by rewrite (convert_size _ _ _ _ Hout).
Qed.

Lemma one_block_key_set_witness :
  dom (sample_state_dict 1 128) = list_to_set (required_source_keys 1)
  ∧ ∃ out,
      convert_to_tch_format (sample_state_dict 1 128) 1 128 = inr out
      ∧ dom out = list_to_set one_block_keys
      ∧ size out = 36%nat.
Proof.
  split; [exact (sample_state_dict_dom 1 128)|].
  apply (one_block_key_set (sample_state_dict 1 128) 128).
  exact (sample_state_dict_dom 1 128).
Defined.

(** C6: when exactly one required source name is absent from the checkpoint
    (every other required name being present), the conversion raises the
    [KeyError] carrying that very name, and returns no dictionary. *)
Theorem remap_missing_key (sd : gmap string Tensor)
    (num_blocks num_filters : Z) (k : string) :
  k ∈ required_source_keys num_blocks →
  sd !! k = None →
  (∀ k', k' ∈ required_source_keys num_blocks → k' ≠ k → is_Some (sd !! k')) →
  convert_to_tch_format sd num_blocks num_filters = inl (KeyError k).
Proof. apply convert_missing. Qed.

Lemma remap_missing_key_witness :
  let k := "residualBlocks.2.bn2.running_var" in
  let sd := delete k (sample_state_dict 10 128) in
  k ∈ required_source_keys 10
  ∧ sd !! k = None
  ∧ (∀ k', k' ∈ required_source_keys 10 → k' ≠ k → is_Some (sd !! k'))
  ∧ convert_to_tch_format sd 10 128 = inl (KeyError k).
Proof.
  intros k sd.
  assert (k ∈ required_source_keys 10) as Hk
    by (apply (bool_decide_unpack _); by vm_compute).
  assert (sd !! k = None) as Hnone by apply lookup_delete_eq.
  assert (∀ k', k' ∈ required_source_keys 10 → k' ≠ k → is_Some (sd !! k'))
    as Hothers.
  { intros k' Hk' Hne. unfold sd. rewrite lookup_delete_ne by done.
    by apply sample_state_dict_lookup. }
  split_and!; [done..|].
  exact (remap_missing_key sd 10 128 k Hk Hnone Hothers).
Defined.

Lemma res_block_table_keys i : (res_block_table i).*1 = res_block_keys i.
Proof.
  unfold res_block_table, res_block_keys, block_suffixes.
  by case_decide.
Qed.

Lemma res_block_table_in_mapping (n i : Z) p :
  (0 ≤ i < n)%Z → p ∈ res_block_table i → p ∈ name_mapping n.
Proof.
  intros Hi Hp. unfold name_mapping.
  apply elem_of_app. right. apply elem_of_app. left.
  apply list_elem_of_bind. exists i. split; [done|]. by apply elem_of_range.
Qed.

Lemma name_mapping_block_rows (n i : Z) d s r :
  (0 ≤ i)%Z → (d, s) ∈ name_mapping n →
  d = "res_block_" +:+ str i +:+ String "." r →
  (0 ≤ i < n)%Z ∧ (d, s) ∈ res_block_table i.
Proof.
  intros Hi Hin Hd. unfold name_mapping in Hin.
  apply elem_of_app in Hin as [Hin|Hin].
  { apply conv_block_table_tag in Hin as [Hc _]. by subst d. }
  apply elem_of_app in Hin as [Hin|Hin].
  - apply list_elem_of_bind in Hin as (j & Hin & Hj%elem_of_range).
    destruct (res_block_table_shape _ _ _ Hin) as (r1 & _ & Hd' & _).
    rewrite Hd in Hd'. apply append_inj_l in Hd'.
    apply str_dot_inj in Hd' as [-> _]; [done|lia..].
  - apply elem_of_app in Hin as [Hin|Hin].
    + apply value_head_table_tag in Hin as [Hc _]. by subst d.
    + apply policy_head_table_tag in Hin as [Hc _]. by subst d.
Qed.

(** Finds a row in a table that is given by its rows. *)
Ltac find_row :=
  repeat first [apply list_elem_of_here | apply list_elem_of_further].

(** C2: in the result of a conversion, residual block [i] with
    [1 <= i < num_blocks] carries the numbers [base], [base+1], [base+4],
    [base+5], [base+6], [base+7], [base+8], [base+9] for
    [base = 20 + (i-1)*12], on the roles and from the source parameters
    listed; block 0 carries 8, 9, 12, 13, 14, 15, 16, 17.  The names of the
    result in the group of block [i] are exactly the four bare names and
    these eight numbered names. *)
Theorem res_block_suffix_closed_form (sd : gmap string Tensor)
    (num_blocks num_filters : Z) (out : gmap string Tensor) (i : Z) :
  convert_to_tch_format sd num_blocks num_filters = inr out →
  (0 ≤ i < num_blocks)%Z →
  let src r := sd !! ("residualBlocks." +:+ str i +:+ r) in
  let dst r := out !! ("res_block_" +:+ str i +:+ r) in
  (if decide (i = 0) then
     dst ".weight__8" = src ".bn2.weight"
     ∧ dst ".bias__9" = src ".bn2.bias"
     ∧ dst ".bias__12" = src ".bn1.bias"
     ∧ dst ".weight__13" = src ".conv2.weight"
     ∧ dst ".weight__14" = src ".bn1.weight"
     ∧ dst ".bias__15" = src ".conv2.bias"
     ∧ dst ".running_mean__16" = src ".bn2.running_mean"
     ∧ dst ".running_var__17" = src ".bn2.running_var"
   else
     let base := (20 + (i - 1) * 12)%Z in
     dst (".weight__" +:+ str base) = src ".bn2.weight"
     ∧ dst (".bias__" +:+ str (base + 1)) = src ".bn2.bias"
     ∧ dst (".bias__" +:+ str (base + 4)) = src ".bn1.bias"
     ∧ dst (".weight__" +:+ str (base + 5)) = src ".conv2.weight"
     ∧ dst (".weight__" +:+ str (base + 6)) = src ".bn1.weight"
     ∧ dst (".bias__" +:+ str (base + 7)) = src ".conv2.bias"
     ∧ dst (".running_mean__" +:+ str (base + 8)) = src ".bn2.running_mean"
     ∧ dst (".running_var__" +:+ str (base + 9)) = src ".bn2.running_var")
  ∧ (∀ r, is_Some (dst (String "." r))
          ↔ "res_block_" +:+ str i +:+ String "." r ∈ res_block_keys i).
Proof.
  intros Hrun Hi src dst. split.
  - assert (∀ d s, (d, s) ∈ res_block_table i → out !! d = sd !! s) as Hrow.
    { intros d s Hin. apply (convert_lookup _ _ _ _ _ _ Hrun).
      by apply (res_block_table_in_mapping num_blocks i). }
    unfold src, dst. case_decide as Hi0.
    + subst i. rewrite res_block_table_0 in Hrow. rewrite str_0.
      split_and!; apply Hrow; cbv [String.append]; find_row.
    + unfold res_block_table, block_suffixes, bare_roles, suffixed_roles in Hrow.
      rewrite decide_False in Hrow by done.
      cbv [fmap list_fmap zip_with fst snd app] in Hrow.
      split_and!; apply Hrow; find_row.
  - intros r. unfold dst. rewrite <-res_block_table_keys. split.
    + intros [t Ht].
      destruct (convert_origin _ _ _ _ _ _ Hrun Ht) as (s & Hin & _).
      apply (name_mapping_block_rows _ i _ _ r) in Hin as [_ Hin];
        [|lia|done].
      apply list_elem_of_fmap. by exists ("res_block_" +:+ str i +:+ String "." r, s).
    + intros ([d s] & Hd & Hin)%list_elem_of_fmap. simpl in Hd. subst d.
      apply (res_block_table_in_mapping num_blocks) in Hin; [|done].
      rewrite (convert_lookup _ _ _ _ _ _ Hrun Hin).
      apply (run_table_sources sd (name_mapping num_blocks) ∅ out).
      * by rewrite <-(convert_runs_table sd num_blocks num_filters).
      * apply list_elem_of_fmap. by eexists (_, s).
Qed.

Lemma res_block_suffix_closed_form_witness :
  convert_to_tch_format (sample_state_dict 3 128) 3 128
  = inr (sample_output 3 128)
  ∧ (0 ≤ 2 < 3)%Z
  ∧ sample_output 3 128 !! "res_block_2.weight__32"
    = sample_state_dict 3 128 !! "residualBlocks.2.bn2.weight"
  ∧ sample_output 3 128 !! "res_block_2.running_var__41"
    = sample_state_dict 3 128 !! "residualBlocks.2.bn2.running_var".
Proof.
  split; [exact (sample_convert 3 128)|]. split; [lia|].
  destruct (res_block_suffix_closed_form (sample_state_dict 3 128) 3 128
              (sample_output 3 128) 2 (sample_convert 3 128)) as [H _]; [lia|].
  rewrite decide_False in H by lia.
  destruct H as (H1 & _ & _ & _ & _ & _ & _ & H8).
  split; [exact H1|exact H8].
Defined.

Lemma NoDup_fmap_inj_on {A B} (f : A → B) (l : list A) x y :
  NoDup (f <$> l) → x ∈ l → y ∈ l → f x = f y → x = y.
Proof.
  induction l as [|a l IH]; intros Hnd Hx Hy Hf.
  { by apply elem_of_nil in Hx. }
  rewrite fmap_cons in Hnd. apply NoDup_cons in Hnd as [Ha Hnd].
  apply elem_of_cons in Hx as [->|Hx]; apply elem_of_cons in Hy as [->|Hy].
  - done.
  - destruct Ha. rewrite Hf. by apply list_elem_of_fmap_2.
  - destruct Ha. rewrite <-Hf. by apply list_elem_of_fmap_2.
  - by apply IH.
Qed.

(** C7: the name mapping realised by a conversion is a bijection between the
    required source names and the names of the result: the names of the
    result are the destination side of the mapping, the required source
    names are its source side, two rows have the same destination name
    exactly when they have the same source name, and the result holds under
    each destination name the tensor of its source name. *)
Theorem name_mapping_bijection (sd : gmap string Tensor)
    (num_blocks num_filters : Z) (out : gmap string Tensor) :
  convert_to_tch_format sd num_blocks num_filters = inr out →
  (∀ d, d ∈ dom out ↔ ∃ s, (d, s) ∈ name_mapping num_blocks)
  ∧ (∀ s, s ∈ required_source_keys num_blocks
          ↔ ∃ d, (d, s) ∈ name_mapping num_blocks)
  ∧ (∀ d s d' s', (d, s) ∈ name_mapping num_blocks →
                  (d', s') ∈ name_mapping num_blocks → (d = d' ↔ s = s'))
  ∧ (∀ d s, (d, s) ∈ name_mapping num_blocks →
            out !! d = sd !! s ∧ is_Some (sd !! s)).
Proof.
  intros Hrun. split_and!.
  - intros d. rewrite (convert_dom _ _ _ _ Hrun), elem_of_list_to_set.
    rewrite list_elem_of_fmap. split.
    + intros ([d' s] & -> & Hin). by exists s.
    + intros (s & Hin). by exists (d, s).
  - intros s. rewrite elem_of_required_source_keys, list_elem_of_fmap. split.
    + intros ([d s'] & -> & Hin). by exists d.
    + intros (d & Hin). by exists (d, s).
  - intros d s d' s' Hin Hin'. split; intros Heq.
    + assert ((d, s) = (d', s')) as [= _ Hs]; [|done].
      by apply (NoDup_fmap_inj_on fst (name_mapping num_blocks));
        [apply name_mapping_NoDup_dst|..].
    + assert ((d, s) = (d', s')) as [= Hd _]; [|done].
      by apply (NoDup_fmap_inj_on snd (name_mapping num_blocks));
        [apply name_mapping_NoDup_src|..].
  - intros d s Hin. split; [by apply (convert_lookup _ _ _ _ _ _ Hrun)|].
    apply (convert_sources _ _ _ _ _ Hrun).
    apply elem_of_required_source_keys, list_elem_of_fmap. by exists (d, s).
Qed.

Lemma name_mapping_bijection_witness :
  convert_to_tch_format (sample_state_dict 10 128) 10 128
  = inr (sample_output 10 128)
  ∧ (∀ d, d ∈ dom (sample_output 10 128) ↔ ∃ s, (d, s) ∈ name_mapping 10)
  ∧ (∀ s, s ∈ required_source_keys 10 ↔ ∃ d, (d, s) ∈ name_mapping 10)
  ∧ (∀ d s d' s', (d, s) ∈ name_mapping 10 → (d', s') ∈ name_mapping 10 →
                  (d = d' ↔ s = s'))
  ∧ (∀ d s, (d, s) ∈ name_mapping 10 →
            sample_output 10 128 !! d = sample_state_dict 10 128 !! s
            ∧ is_Some (sample_state_dict 10 128 !! s)).
Proof.
  split; [exact (sample_convert 10 128)|].
  apply (name_mapping_bijection (sample_state_dict 10 128) 10 128).
  exact (sample_convert 10 128).
Defined.

Lemma run_table_error_dom sd1 sd2 table t1 t2 e :
  dom sd1 = dom sd2 →
  run_table sd1 table t1 = inl e → run_table sd2 table t2 = inl e.
Proof.
  intros Hdom. revert t1 t2.
  induction table as [|[d s] table IH]; intros t1 t2 Hrun; [done|].
  rewrite run_table_cons in Hrun |- *.
  destruct (sd1 !! s) as [v1|] eqn:Hs1.
  - assert (is_Some (sd2 !! s)) as [v2 Hs2].
    { apply elem_of_dom. rewrite <-Hdom. by apply elem_of_dom. }
    rewrite (assign_Some _ _ _ _ v1) in Hrun by done.
    rewrite (assign_Some _ _ _ _ v2) by done. by eapply IH.
  - assert (sd2 !! s = None) as Hs2.
    { apply not_elem_of_dom. rewrite <-Hdom. by apply not_elem_of_dom. }
    rewrite assign_None in Hrun by done. by rewrite assign_None.
Qed.

(** C8: two checkpoints with the same names and arbitrary tensors are
    converted alike: one conversion raises exactly when the other does, with
    the same exception; when they return, the two results have the same
    names, and each holds under every destination name the tensor that its
    own checkpoint has under the mapped source name; and when the common
    names include the required source names, both conversions do return
    such results. *)
Theorem remap_data_independent (sd1 sd2 : gmap string Tensor)
    (num_blocks num_filters : Z) :
  dom sd1 = dom sd2 →
  (∀ e, convert_to_tch_format sd1 num_blocks num_filters = inl e
        ↔ convert_to_tch_format sd2 num_blocks num_filters = inl e)
  ∧ (∀ out1 out2,
       convert_to_tch_format sd1 num_blocks num_filters = inr out1 →
       convert_to_tch_format sd2 num_blocks num_filters = inr out2 →
       dom out1 = dom out2
       ∧ ∀ d s, (d, s) ∈ name_mapping num_blocks →
                out1 !! d = sd1 !! s ∧ out2 !! d = sd2 !! s)
  ∧ ((∀ k, k ∈ required_source_keys num_blocks → is_Some (sd1 !! k)) →
     ∃ out1 out2,
       convert_to_tch_format sd1 num_blocks num_filters = inr out1
       ∧ convert_to_tch_format sd2 num_blocks num_filters = inr out2
       ∧ dom out1 = dom out2
       ∧ ∀ d s, (d, s) ∈ name_mapping num_blocks →
                out1 !! d = sd1 !! s ∧ out2 !! d = sd2 !! s).
Proof.
  intros Hdom.
  assert (∀ out1 out2,
            convert_to_tch_format sd1 num_blocks num_filters = inr out1 →
            convert_to_tch_format sd2 num_blocks num_filters = inr out2 →
            dom out1 = dom out2
            ∧ ∀ d s, (d, s) ∈ name_mapping num_blocks →
                     out1 !! d = sd1 !! s ∧ out2 !! d = sd2 !! s) as Hboth.
  { intros out1 out2 Hrun1 Hrun2. split.
    - by rewrite (convert_dom _ _ _ _ Hrun1), (convert_dom _ _ _ _ Hrun2).
    - intros d s Hin.
      by rewrite (convert_lookup _ _ _ _ _ _ Hrun1 Hin),
        (convert_lookup _ _ _ _ _ _ Hrun2 Hin). }
  split_and!.
  - intros e. rewrite !convert_runs_table.
    split; by apply run_table_error_dom.
  - exact Hboth.
  - intros Hall.
    destruct (convert_total sd1 num_blocks num_filters Hall) as [out1 Hrun1].
    destruct (convert_total sd2 num_blocks num_filters) as [out2 Hrun2].
    { intros k Hk. apply elem_of_dom. rewrite <-Hdom.
      apply elem_of_dom. by apply Hall. }
    exists out1, out2. split; [done|]. split; [done|]. by apply Hboth.
Qed.

Lemma remap_data_independent_witness :
  dom (sample_state_dict 1 128) = dom (sample_state_dict 1 256)
  ∧ sample_state_dict 1 128 !! "convBlock1.conv1.weight"
    ≠ sample_state_dict 1 256 !! "convBlock1.conv1.weight"
  ∧ (∀ k, k ∈ required_source_keys 1 →
          is_Some (sample_state_dict 1 128 !! k))
  ∧ convert_to_tch_format (sample_state_dict 1 128) 1 128
    = inr (sample_output 1 128)
  ∧ convert_to_tch_format (sample_state_dict 1 256) 1 128
    = inr (sample_output 1 256)
  ∧ sample_output 1 128 !! "conv_block.weight"
    ≠ sample_output 1 256 !! "conv_block.weight"
  ∧ (∀ e, convert_to_tch_format (sample_state_dict 1 128) 1 128 = inl e
          ↔ convert_to_tch_format (sample_state_dict 1 256) 1 128 = inl e)
  ∧ (∀ out1 out2,
       convert_to_tch_format (sample_state_dict 1 128) 1 128 = inr out1 →
       convert_to_tch_format (sample_state_dict 1 256) 1 128 = inr out2 →
       dom out1 = dom out2
       ∧ ∀ d s, (d, s) ∈ name_mapping 1 →
                out1 !! d = sample_state_dict 1 128 !! s
                ∧ out2 !! d = sample_state_dict 1 256 !! s)
  ∧ ∃ out1 out2,
      convert_to_tch_format (sample_state_dict 1 128) 1 128 = inr out1
      ∧ convert_to_tch_format (sample_state_dict 1 256) 1 128 = inr out2
      ∧ dom out1 = dom out2
      ∧ ∀ d s, (d, s) ∈ name_mapping 1 →
               out1 !! d = sample_state_dict 1 128 !! s
               ∧ out2 !! d = sample_state_dict 1 256 !! s.
Proof.
  assert (dom (sample_state_dict 1 128) = dom (sample_state_dict 1 256))
    as Hdom by (by rewrite !sample_state_dict_dom).
  assert (convert_to_tch_format (sample_state_dict 1 256) 1 128
          = inr (sample_output 1 256)) as Hrun2.
  { rewrite convert_runs_table, <-(convert_runs_table _ 1 256).
    apply sample_convert. }
  assert (sample_state_dict 1 128 !! "convBlock1.conv1.weight"
          ≠ sample_state_dict 1 256 !! "convBlock1.conv1.weight")
    as Hsource by (by vm_compute).
  assert (sample_output 1 128 !! "conv_block.weight"
          ≠ sample_output 1 256 !! "conv_block.weight") as Hout.
  { rewrite (convert_lookup _ _ _ _ "conv_block.weight"
               "convBlock1.conv1.weight" (sample_convert 1 128)).
    - rewrite (convert_lookup _ _ _ _ "conv_block.weight"
                 "convBlock1.conv1.weight" Hrun2); [exact Hsource|].
      apply (bool_decide_unpack _). by vm_compute.
    - apply (bool_decide_unpack _). by vm_compute. }
  destruct (remap_data_independent (sample_state_dict 1 128)
              (sample_state_dict 1 256) 1 128 Hdom) as (Herr & Hboth & Hret).
  split_and!;
    [exact Hdom|exact Hsource|exact (sample_state_dict_lookup 1 128)
    |exact (sample_convert 1 128)|exact Hrun2|exact Hout|exact Herr
    |exact Hboth|exact (Hret (sample_state_dict_lookup 1 128))].
Defined.

Lemma head_tables_keys n :
  (value_head_table n ++ policy_head_table n).*1
  = head_keys (if decide (n = 10) then Preset10x128 else Preset20x256).
Proof. unfold value_head_table, policy_head_table. by case_decide. Qed.

Lemma head_tables_in_mapping n p :
  p ∈ value_head_table n ++ policy_head_table n → p ∈ name_mapping n.
Proof.
  intros Hp. unfold name_mapping.
  apply elem_of_app. right. apply elem_of_app. by right.
Qed.

Lemma name_mapping_head_rows n p :
  p ∈ name_mapping n →
  first_char p.1 = Some "v"%char ∨ first_char p.1 = Some "p"%char →
  p ∈ value_head_table n ++ policy_head_table n.
Proof.
  unfold name_mapping. intros [Hp|[Hp|Hp]%elem_of_app]%elem_of_app Htag.
  - apply conv_block_table_tag in Hp as [Hc _]. destruct Htag; congruence.
  - apply res_blocks_tag in Hp as [Hc _]. destruct Htag; congruence.
  - done.
Qed.

(** C10: the table of head numbers is selected by the test
    [num_blocks = 10] alone.  The result does not depend on [num_filters];
    its head names are those of the 10x128 table when [num_blocks = 10] and
    those of the 20x256 table for every other [num_blocks]; in the latter
    case the numbered head names 248, 249, 253, 252, 255, 254 and 258, 259,
    263, 262 hold the tensors of the corresponding source parameters. *)
Theorem head_table_selected_by_num_blocks (sd : gmap string Tensor)
    (num_blocks num_filters : Z) (out : gmap string Tensor) :
  convert_to_tch_format sd num_blocks num_filters = inr out →
  (∀ num_filters', convert_to_tch_format sd num_blocks num_filters' = inr out)
  ∧ (∀ d, d ∈ dom out
          ∧ (first_char d = Some "v"%char ∨ first_char d = Some "p"%char)
          ↔ d ∈ head_keys (if decide (num_blocks = 10) then Preset10x128
                           else Preset20x256))
  ∧ (num_blocks ≠ 10 →
     out !! "value_head.weight__248" = sd !! "valueHead.bn1.weight"
     ∧ out !! "value_head.bias__249" = sd !! "valueHead.bn1.bias"
     ∧ out !! "value_head.weight__253" = sd !! "valueHead.fc1.weight"
     ∧ out !! "value_head.bias__252" = sd !! "valueHead.fc1.bias"
     ∧ out !! "value_head.weight__255" = sd !! "valueHead.fc2.weight"
     ∧ out !! "value_head.bias__254" = sd !! "valueHead.fc2.bias"
     ∧ out !! "policy_head.weight__258" = sd !! "policyHead.bn1.weight"
     ∧ out !! "policy_head.bias__259" = sd !! "policyHead.bn1.bias"
     ∧ out !! "policy_head.weight__263" = sd !! "policyHead.fc1.weight"
     ∧ out !! "policy_head.bias__262" = sd !! "policyHead.fc1.bias").
Proof.
  intros Hrun. split_and!.
  - done.
  - intros d. rewrite <-head_tables_keys, (convert_dom _ _ _ _ Hrun).
    rewrite elem_of_list_to_set, !list_elem_of_fmap. split.
    + intros [([d' s] & -> & Hin) Htag]. exists (d', s). split; [done|].
      by apply name_mapping_head_rows.
    + intros ([d' s] & -> & Hin). split.
      * exists (d', s). split; [done|]. by apply head_tables_in_mapping.
      * apply elem_of_app in Hin as [Hin|Hin].
        -- left. by apply value_head_table_tag in Hin as [? _].
        -- right. by apply policy_head_table_tag in Hin as [? _].
  - intros Hne.
    assert (∀ d s, (d, s) ∈ value_head_table num_blocks
                            ++ policy_head_table num_blocks →
                   out !! d = sd !! s) as Hrow.
    { intros d s Hin. apply (convert_lookup _ _ _ _ _ _ Hrun).
      by apply head_tables_in_mapping. }
    unfold value_head_table, policy_head_table in Hrow.
    rewrite !decide_False in Hrow by done.
    split_and!; apply Hrow; find_row.
Qed.

Lemma head_table_selected_by_num_blocks_witness :
  convert_to_tch_format (sample_state_dict 1 128) 1 128
  = inr (sample_output 1 128)
  ∧ (∀ d, d ∈ dom (sample_output 1 128)
          ∧ (first_char d = Some "v"%char ∨ first_char d = Some "p"%char)
          ↔ d ∈ head_keys Preset20x256)
  ∧ sample_output 1 128 !! "value_head.weight__248"
    = sample_state_dict 1 128 !! "valueHead.bn1.weight".
Proof.
  split; [exact (sample_convert 1 128)|].
  destruct (head_table_selected_by_num_blocks (sample_state_dict 1 128) 1 128
              (sample_output 1 128) (sample_convert 1 128))
    as (_ & Hkeys & Hrows).
  split; [exact Hkeys|]. by destruct Hrows as [H _].
Defined.

(** * Architecture detection *)

Lemma append_assoc (a b c : string) : (a +:+ b) +:+ c = a +:+ (b +:+ c).
Proof.
  induction a as [|x a IH]; [done|].
  change (String x ((a +:+ b) +:+ c) = String x (a +:+ (b +:+ c))).
  by rewrite IH.
Qed.

Lemma pretty_N_go_app x s : pretty_N_go x s = pretty_N_go x "" +:+ s.
Proof.
  revert s. induction (N.lt_wf_0 x) as [x _ IH]; intros s.
  destruct (decide (x = 0)%N) as [->|Hx]; [by rewrite !pretty_N_go_0|].
  rewrite !(pretty_N_go_step x) by lia.
  rewrite (IH (x `div` 10)%N) by (apply N.div_lt; lia).
  rewrite (IH (x `div` 10)%N ltac:(apply N.div_lt; lia) (String _ "")).
  by rewrite append_assoc.
Qed.

Lemma int_digits_app acc a b :
  int_digits acc (a +:+ b)
  = match int_digits acc a with
    | Some acc' => int_digits acc' b
    | None => None
    end.
Proof.
  revert acc. induction a as [|c a IH]; intros acc; simpl; [done|].
  destruct (digit_value c); [apply IH|done].
Qed.

Lemma int_digits_pretty_N_go x :
  int_digits 0 (pretty_N_go x "") = Some (Z.of_N x).
Proof.
  induction (N.lt_wf_0 x) as [x _ IH].
  destruct (decide (x = 0)%N) as [->|Hx]; [done|].
  rewrite pretty_N_go_step, pretty_N_go_app, int_digits_app by lia.
  rewrite IH by (apply N.div_lt; lia). simpl.
  rewrite digit_value_pretty_N_char by (apply N.mod_lt; lia).
  f_equal. rewrite N2Z.inj_div, N2Z.inj_mod.
  pose proof (Z.div_mod (Z.of_N x) 10). lia.
Qed.

Lemma prefix_cons a p b s :
  String.prefix (String a p) (String b s)
  = match ascii_dec a b with
    | left _ => String.prefix p s
    | right _ => false
    end.
Proof. reflexivity. Qed.

Lemma digit_value_code c d :
  digit_value c = Some d → (48 ≤ Z.of_N (N_of_ascii c) ≤ 57)%Z.
Proof. unfold digit_value. by case_decide. Qed.

Lemma scan_digits_plain s acc digits n :
  int_digits acc s = Some n →
  scan_digits false acc digits s
  = Some (n, (digits + Z.of_nat (String.length s))%Z, "").
Proof.
  revert acc digits. induction s as [|c s IH]; intros acc digits.
  - intros [= ->]. cbn [scan_digits String.length]. by rewrite Z.add_0_r.
  - cbn [int_digits scan_digits String.length].
    destruct (digit_value c) as [d|]; [|done]. intros Hn.
    rewrite (IH _ _ Hn). do 3 f_equal. lia.
Qed.

Lemma pretty_N_go_length (k : nat) (x : N) s :
  (Z.of_N x < 10 ^ Z.of_nat k)%Z →
  (String.length (pretty_N_go x s) ≤ k + String.length s)%nat.
Proof.
  revert x s. induction k as [|k IH]; intros x s Hx.
  - assert (x = 0%N) as -> by (change (10 ^ Z.of_nat 0)%Z with 1%Z in Hx; lia).
    by rewrite pretty_N_go_0.
  - destruct (decide (x = 0)%N) as [->|Hx0]; [rewrite pretty_N_go_0; lia|].
    rewrite pretty_N_go_step by lia.
    etrans; [apply IH|simpl; lia].
    rewrite N2Z.inj_div. apply Z.div_lt_upper_bound; [lia|].
    by rewrite Nat2Z.inj_succ, Z.pow_succ_r in Hx by lia.
Qed.

(** A number below [10 ^ int_max_str_digits] is written with at most
    [int_max_str_digits] digits. *)
Lemma str_length (i : Z) :
  (0 ≤ i < 10 ^ int_max_str_digits)%Z →
  (Z.of_nat (String.length (str i)) ≤ int_max_str_digits)%Z.
Proof.
  intros [Hi Hlt]. destruct i as [|p|p]; [by vm_compute| |lia].
  assert (str (Z.pos p) = pretty_N_go (N.pos p) "") as ->.
  { unfold str, pretty, pretty_Z, pretty, pretty_positive, pretty, pretty_N.
    by rewrite decide_False. }
  remember (Z.to_nat int_max_str_digits) as k eqn:Hk.
  assert (Z.of_nat k = int_max_str_digits) as Hmax
    by (subst k; by apply Z2Nat.id).
  rewrite <-Hmax in Hlt.
  pose proof (pretty_N_go_length k (N.pos p) "" Hlt) as Hlen.
  cbn [String.length] in Hlen. lia.
Qed.

Lemma below_digit_limit (i : Z) :
  (i ≤ 1000000)%Z → (i < 10 ^ int_max_str_digits)%Z.
Proof. intros Hi. eapply Z.le_lt_trans; [exact Hi|]. by vm_compute. Qed.

(** On a plain numeral [int] returns its value, unless the numeral has more
    than [int_max_str_digits] digits. *)
Lemma int_of_digits_cases s n :
  all_digits s → s ≠ "" → int_digits 0 s = Some n →
  ((Z.of_nat (String.length s) ≤ int_max_str_digits)%Z ∧ int s = inr n)
  ∨ ((int_max_str_digits < Z.of_nat (String.length s))%Z
     ∧ ∃ msg, int s = inl (ValueError msg)).
Proof.
  destruct s as [|c s]; [done|]. intros [[d Hd] _] _ Hn.
  pose proof (digit_value_code c d Hd) as Hcode. unfold int.
  assert (skip_spaces (String c s) = String c s) as ->.
  { cbn [skip_spaces]. unfold int_space.
    rewrite bool_decide_eq_false_2; [done|lia]. }
  assert (parse_sign (String c s) = (1, String c s)) as ->.
  { unfold parse_sign.
    rewrite !decide_False; [done|intros ->; by vm_compute in Hd..]. }
  assert (startswith (String c s) "_" = false) as ->.
  { unfold startswith. rewrite prefix_cons.
    destruct (ascii_dec "_" c) as [<-|]; [by vm_compute in Hd|done]. }
  rewrite (scan_digits_plain _ 0 0 n Hn). rewrite Z.add_0_l.
  destruct (decide (int_max_str_digits < Z.of_nat (String.length (String c s)))%Z)
    as [Hlong|Hshort].
  - right. split; [done|]. by eexists.
  - left. split; [lia|].
    rewrite decide_False by (cbn [String.length]; lia).
    rewrite decide_True by done. unfold ret. f_equal. lia.
Qed.

Lemma int_of_digits s n :
  all_digits s → s ≠ "" →
  (Z.of_nat (String.length s) ≤ int_max_str_digits)%Z →
  int_digits 0 s = Some n → int s = inr n.
Proof.
  intros Hs Hne Hlen Hn.
  destruct (int_of_digits_cases s n Hs Hne Hn) as [[_ ?]|[? _]]; [done|lia].
Qed.

Lemma str_nonempty (i : Z) : (0 ≤ i)%Z → str i ≠ "".
Proof.
  intros Hi Hempty. pose proof (str_digits i Hi) as Hd.
  destruct i as [|p|p]; [by vm_compute in Hempty| |lia].
  unfold str, pretty, pretty_Z, pretty, pretty_positive, pretty, pretty_N
    in Hempty.
  rewrite decide_False in Hempty by done.
  rewrite pretty_N_go_step in Hempty by lia.
  rewrite pretty_N_go_app in Hempty.
  by destruct (pretty_N_go (N.pos p `div` 10) "").
Qed.

Lemma int_digits_str (i : Z) : (0 ≤ i)%Z → int_digits 0 (str i) = Some i.
Proof.
  intros Hi. destruct i as [|p|p]; [done| |lia].
  unfold str, pretty, pretty_Z, pretty, pretty_positive, pretty, pretty_N.
  rewrite decide_False by done. apply int_digits_pretty_N_go.
Qed.

(** [int(str(i))] is [i], or the refusal of a numeral that is too long. *)
Lemma int_str_cases (i : Z) :
  (0 ≤ i)%Z →
  int (str i) = inr i ∨ ∃ msg, int (str i) = inl (ValueError msg).
Proof.
  intros Hi.
  destruct (int_of_digits_cases (str i) i) as [[_ ?]|[_ ?]]; auto.
  - by apply str_digits.
  - by apply str_nonempty.
  - by apply int_digits_str.
Qed.

Lemma int_str (i : Z) :
  (0 ≤ i < 10 ^ int_max_str_digits)%Z → int (str i) = inr i.
Proof.
  intros Hi. pose proof (str_length i Hi) as Hlen.
  destruct (int_of_digits_cases (str i) i) as [[_ ?]|[? _]]; [..|done|lia].
  - apply str_digits; lia.
  - apply str_nonempty; lia.
  - apply int_digits_str; lia.
Qed.

Lemma split_cons_sep sep s :
  split sep (String sep s) = "" :: split sep s.
Proof. cbn [split]. by rewrite decide_True. Qed.

Lemma split_cons_other sep c s :
  c ≠ sep →
  split sep (String c s)
  = match split sep s with
    | [] => [String c ""]
    | piece :: pieces => String c piece :: pieces
    end.
Proof. intros Hc. cbn [split]. by rewrite decide_False. Qed.

Lemma split_digits_dot a rest :
  all_digits a → split "." (a +:+ String "." rest) = a :: split "." rest.
Proof.
  induction a as [|c a IH]; intros Ha.
  - apply split_cons_sep.
  - destruct Ha as [Hc Ha].
    change (String c a +:+ String "." rest)
      with (String c (a +:+ String "." rest)).
    rewrite split_cons_other by by apply digit_not_dot. by rewrite IH.
Qed.

Lemma split_block_key (i : Z) rest :
  (0 ≤ i)%Z →
  split "." (block_key i rest) = "residualBlocks" :: str i :: split "." rest.
Proof.
  intros Hi. rewrite <-(split_digits_dot (str i) rest) by by apply str_digits.
  reflexivity.
Qed.

Lemma prefix_append p s : String.prefix p (p +:+ s) = true.
Proof.
  induction p as [|c p IH]; simpl; [by destruct s|].
  destruct (ascii_dec c c); [done|congruence].
Qed.

Lemma startswith_block_key i rest :
  startswith (block_key i rest) "residualBlocks." = true.
Proof. apply prefix_append. Qed.

Lemma startswith_first_char k :
  startswith k "residualBlocks." = true → first_char k = Some "r"%char.
Proof.
  destruct k as [|c k]; [done|]. unfold startswith.
  change (String.prefix "residualBlocks." (String c k))
    with (match ascii_dec "r" c with
          | left _ => String.prefix "esidualBlocks." k
          | right _ => false
          end).
  destruct (ascii_dec "r" c) as [<-|]; [done|discriminate].
Qed.

Lemma block_key_inj (i j : Z) rest rest' :
  (0 ≤ i)%Z → (0 ≤ j)%Z → block_key i rest = block_key j rest' → i = j.
Proof.
  intros Hi Hj Heq. unfold block_key in Heq.
  apply append_inj_l in Heq. by apply str_dot_inj in Heq as [-> _].
Qed.

Lemma foldl_max_spec (l : list Z) (x : Z) :
  (foldl Z.max x l = x ∨ foldl Z.max x l ∈ l)
  ∧ (x ≤ foldl Z.max x l)%Z
  ∧ ∀ y, y ∈ l → (y ≤ foldl Z.max x l)%Z.
Proof.
  revert x. induction l as [|a l IH]; intros x; simpl.
  - split_and!; [by left|lia|]. intros y Hy. by apply elem_of_nil in Hy.
  - destruct (IH (Z.max x a)) as (Hm & Hle & Hall). split_and!.
    + destruct Hm as [Hm|Hm]; [|right; by apply list_elem_of_further].
      rewrite Hm. destruct (Z.max_spec x a) as [[_ ->]|[_ ->]];
        [right; apply list_elem_of_here|by left].
    + lia.
    + intros y [->|Hy]%elem_of_cons; [lia|by apply Hall].
Qed.

Lemma max_list_Z_spec (l : list Z) :
  l ≠ [] →
  ∃ m, max_list_Z l = inr m ∧ m ∈ l ∧ ∀ y, y ∈ l → (y ≤ m)%Z.
Proof.
  destruct l as [|x l]; [done|]. intros _.
  destruct (foldl_max_spec l x) as (Hm & Hle & Hall).
  exists (foldl Z.max x l). split_and!; [done| |].
  - destruct Hm as [->|Hm]; [apply list_elem_of_here|].
    by apply list_elem_of_further.
  - intros y [->|Hy]%elem_of_cons; [done|by apply Hall].
Qed.

Lemma comprehension_Forall2 {A B} (f : A → Result B) (R : A → B → Prop) l :
  (∀ a, a ∈ l → ∃ b, f a = inr b ∧ R a b) →
  ∃ bs, comprehension f l = inr bs ∧ Forall2 R l bs.
Proof.
  induction l as [|a l IH]; intros Hall.
  - exists []. by split.
  - destruct (Hall a) as (b & Hb & HR); [apply list_elem_of_here|].
    destruct IH as (bs & Hbs & HF).
    { intros a' Ha'. apply Hall. by apply list_elem_of_further. }
    exists (b :: bs). split; [|by constructor].
    simpl. rewrite Hb. simpl. by rewrite Hbs.
Qed.

Lemma elem_of_keys (sd : gmap string Tensor) k : k ∈ keys sd ↔ k ∈ dom sd.
Proof.
  unfold keys. rewrite list_elem_of_fmap, elem_of_dom. split.
  - intros ([k' t] & -> & Hin%elem_of_map_to_list). by exists t.
  - intros [t Ht]. exists (k, t). split; [done|]. by apply elem_of_map_to_list.
Qed.

Lemma index_of_block_key (i : Z) rest :
  (0 ≤ i < 10 ^ int_max_str_digits)%Z →
  (piece ←' list_getitem (split "." (block_key i rest)) 1; int piece) = inr i.
Proof.
  intros Hi. rewrite split_block_key by lia.
  unfold list_getitem. cbn [lookup list_lookup]. unfold ret at 1.
  cbn [bind]. by apply int_str.
Qed.

(** The detected number of blocks is one more than the greatest block index
    among the names of residual blocks. *)
Lemma detect_num_blocks_spec (sd : gmap string Tensor) :
  (∀ k, k ∈ dom sd → startswith k "residualBlocks." = true →
        ∃ i rest, (0 ≤ i < 10 ^ int_max_str_digits)%Z
                  ∧ k = block_key i rest) →
  (∃ k, k ∈ dom sd ∧ startswith k "residualBlocks." = true) →
  ∃ m, detect_num_blocks sd = inr (m + 1)%Z
       ∧ (0 ≤ m)%Z
       ∧ (∃ rest, block_key m rest ∈ dom sd)
       ∧ (∀ i rest, (0 ≤ i)%Z → block_key i rest ∈ dom sd → (i ≤ m)%Z).
Proof.
  intros Hwf (k0 & Hk0 & Hstart0). unfold detect_num_blocks.
  set (ks := filter (λ k, startswith k "residualBlocks." = true) (keys sd)).
  assert (∀ k, k ∈ ks ↔ k ∈ dom sd ∧ startswith k "residualBlocks." = true)
    as Hks.
  { intros k. unfold ks. rewrite list_elem_of_filter, elem_of_keys. tauto. }
  destruct (comprehension_Forall2
              (λ k, piece ←' list_getitem (split "." k) 1; int piece)
              (λ k i, (0 ≤ i)%Z ∧ ∃ rest, k = block_key i rest) ks)
    as (idx & -> & Hidx).
  { intros k [Hk Hstart]%Hks.
    destruct (Hwf k Hk Hstart) as (i & rest & Hi & ->).
    exists i. split; [by apply index_of_block_key|].
    split; [lia|by exists rest]. }
  assert (idx ≠ []) as Hne.
  { intros ->. apply Forall2_nil_inv_r in Hidx.
    assert (k0 ∈ ks) as Hin by by apply Hks. rewrite Hidx in Hin.
    by apply elem_of_nil in Hin. }
  destruct (max_list_Z_spec idx Hne) as (m & Hmax & Hm & Hle).
  exists m. simpl. rewrite Hmax. simpl. split; [done|].
  apply list_elem_of_lookup in Hm as [j Hj].
  destruct (Forall2_lookup_r _ _ _ _ _ Hidx Hj) as (k & Hk & Hm0 & rest & ->).
  split_and!.
  - done.
  - exists rest. apply (Hks (block_key m rest)).
    apply list_elem_of_lookup. by exists j.
  - intros i rest' Hi Hin.
    assert (block_key i rest' ∈ ks) as Hin'.
    { apply Hks. split; [done|apply startswith_block_key]. }
    apply list_elem_of_lookup in Hin' as [j' Hj'].
    destruct (Forall2_lookup_l _ _ _ _ _ Hidx Hj')
      as (i' & Hi' & Hi0 & rest'' & Heq).
    apply block_key_inj in Heq; [|done..]. subst i'.
    apply Hle. apply list_elem_of_lookup. by exists j'.
Qed.

Lemma detect_num_filters_spec (sd : gmap string Tensor) t n dims :
  sd !! "convBlock1.conv1.weight" = Some t → shape t = n :: dims →
  detect_num_filters sd = inr n.
Proof.
  intros Ht Hshape. unfold detect_num_filters, getitem.
  rewrite Ht. simpl. by rewrite Hshape.
Qed.

Lemma required_keys_well_formed (n : Z) k :
  k ∈ required_source_keys n → startswith k "residualBlocks." = true →
  ∃ i rest, (0 ≤ i < n)%Z ∧ k = block_key i rest.
Proof.
  intros ([d s] & -> & Hin)%elem_of_required_source_keys%list_elem_of_fmap
    Hr%startswith_first_char. simpl in Hr. unfold name_mapping in Hin.
  apply elem_of_app in Hin as [Hin|[Hin|[Hin|Hin]%elem_of_app]%elem_of_app].
  - apply conv_block_table_tag in Hin as [_ Hc]. simpl in Hc. congruence.
  - apply list_elem_of_bind in Hin as (i & Hin & Hi%elem_of_range).
    apply res_block_table_shape in Hin as (_ & r & _ & ->).
    by exists i, r.
  - apply value_head_table_tag in Hin as [_ Hc]. simpl in Hc. congruence.
  - apply policy_head_table_tag in Hin as [_ Hc]. simpl in Hc. congruence.
Qed.



(** C9: the main block derives the topology from the checkpoint.  Provided
    the names that start with [residualBlocks.] have the form
    [residualBlocks.<i>.<rest>] with a decimal block index [i] of at most
    [int_max_str_digits] digits (beyond which [int] refuses the numeral),
    and there is at least one, [num_blocks] is [m + 1] for the greatest
    block index [m] that occurs; and [num_filters] is the first component
    of the shape of the tensor [convBlock1.conv1.weight]. *)
Theorem detect_architecture_spec (sd : gmap string Tensor)
    (t : Tensor) (n : Z) (dims : list Z) :
  (∀ k, k ∈ dom sd → startswith k "residualBlocks." = true →
        ∃ i rest, (0 ≤ i < 10 ^ int_max_str_digits)%Z
                  ∧ k = block_key i rest) →
  (∃ k, k ∈ dom sd ∧ startswith k "residualBlocks." = true) →
  sd !! "convBlock1.conv1.weight" = Some t →
  shape t = n :: dims →
  ∃ m, detect_num_blocks sd = inr (m + 1)%Z
       ∧ (0 ≤ m)%Z
       ∧ (∃ rest, block_key m rest ∈ dom sd)
       ∧ (∀ i rest, (0 ≤ i)%Z → block_key i rest ∈ dom sd → (i ≤ m)%Z)
       ∧ detect_num_filters sd = inr n.
Proof.
  intros Hwf Hsome Ht Hshape.
  destruct (detect_num_blocks_spec sd Hwf Hsome) as (m & Hd & Hm & Hex & Hmax).
  exists m. split_and!; [done..|].
  by apply (detect_num_filters_spec sd t n dims).
Qed.

Lemma detect_architecture_spec_witness :
  (∀ k, k ∈ dom (sample_state_dict 10 128) →
        startswith k "residualBlocks." = true →
        ∃ i rest, (0 ≤ i < 10 ^ int_max_str_digits)%Z
                  ∧ k = block_key i rest)
  ∧ (∃ k, k ∈ dom (sample_state_dict 10 128)
          ∧ startswith k "residualBlocks." = true)
  ∧ sample_state_dict 10 128 !! "convBlock1.conv1.weight"
    = Some (sample_tensor 128 0)
  ∧ shape (sample_tensor 128 0) = [128; 16; 3; 3]%Z
  ∧ detect_num_blocks (sample_state_dict 10 128) = inr 10%Z
  ∧ ∃ m, detect_num_blocks (sample_state_dict 10 128) = inr (m + 1)%Z
         ∧ (0 ≤ m)%Z
         ∧ (∃ rest, block_key m rest ∈ dom (sample_state_dict 10 128))
         ∧ (∀ i rest, (0 ≤ i)%Z →
                      block_key i rest ∈ dom (sample_state_dict 10 128) →
                      (i ≤ m)%Z)
         ∧ detect_num_filters (sample_state_dict 10 128) = inr 128%Z.
Proof.
  assert (∀ k, k ∈ dom (sample_state_dict 10 128) →
               startswith k "residualBlocks." = true →
               ∃ i rest, (0 ≤ i < 10 ^ int_max_str_digits)%Z
                         ∧ k = block_key i rest) as Hwf.
  { intros k Hk Hstart. rewrite sample_state_dict_dom in Hk.
    apply elem_of_list_to_set in Hk.
    destruct (required_keys_well_formed 10 k Hk Hstart) as (i & rest & Hi & ->).
    exists i, rest. split; [|done].
    split; [lia|apply below_digit_limit; lia]. }
  assert (∃ k, k ∈ dom (sample_state_dict 10 128)
               ∧ startswith k "residualBlocks." = true) as Hsome.
  { exists "residualBlocks.0.conv1.weight". split; [|reflexivity].
    apply elem_of_dom, sample_state_dict_lookup.
    apply (bool_decide_unpack _). by vm_compute. }
  assert (sample_state_dict 10 128 !! "convBlock1.conv1.weight"
          = Some (sample_tensor 128 0)) as Ht by (vm_compute; reflexivity).
  split_and!; [exact Hwf|exact Hsome|exact Ht|reflexivity
              |vm_compute; reflexivity|].
  exact (detect_architecture_spec (sample_state_dict 10 128)
           (sample_tensor 128 0) 128 [16; 3; 3]%Z Hwf Hsome Ht eq_refl).
Defined.

(** * Further properties of the conversion *)

Lemma run_table_ext sd1 sd2 table tch :
  (∀ s, s ∈ table.*2 → sd1 !! s = sd2 !! s) →
  run_table sd1 table tch = run_table sd2 table tch.
Proof.
  revert tch. induction table as [|[d s] table IH]; intros tch Hagree; [done|].
  rewrite !run_table_cons. unfold assign, getitem.
  rewrite (Hagree s) by (rewrite fmap_cons; apply list_elem_of_here).
  apply bind_ext. intros t. apply IH. intros s' Hs'. apply Hagree.
  rewrite fmap_cons. by apply list_elem_of_further.
Qed.

(** X1: the conversion reads the required source names only: two
    checkpoints that agree on them are converted alike, whatever else they
    hold (for instance the [num_batches_tracked] counters of the
    normalisation layers, which are dropped). *)
Theorem convert_reads_required_only (sd1 sd2 : gmap string Tensor)
    (num_blocks num_filters : Z) :
  (∀ k, k ∈ required_source_keys num_blocks → sd1 !! k = sd2 !! k) →
  convert_to_tch_format sd1 num_blocks num_filters
  = convert_to_tch_format sd2 num_blocks num_filters.
Proof.
  intros Hagree. rewrite !convert_runs_table. apply run_table_ext.
  intros s Hs. by apply Hagree, elem_of_required_source_keys.
Qed.

Lemma convert_reads_required_only_witness :
  let extra := "convBlock1.bn1.num_batches_tracked" in
  let sd := sample_state_dict 10 128 in
  let sd' := <[extra := sample_tensor 128 0]> sd in
  (∀ k, k ∈ required_source_keys 10 → sd' !! k = sd !! k)
  ∧ sd' !! extra ≠ sd !! extra
  ∧ convert_to_tch_format sd' 10 128 = convert_to_tch_format sd 10 128.
Proof.
  intros extra sd sd'.
  assert (extra ∉ required_source_keys 10) as Hextra
    by (apply (bool_decide_unpack _); by vm_compute).
  assert (∀ k, k ∈ required_source_keys 10 → sd' !! k = sd !! k) as Hagree.
  { intros k Hk. unfold sd'. apply lookup_insert_ne. by intros ->. }
  split_and!; [exact Hagree| |].
  - unfold sd'. rewrite lookup_insert_eq.
    assert (sd !! extra = None) as ->; [|done].
    apply not_elem_of_dom. unfold sd. rewrite sample_state_dict_dom.
    by rewrite elem_of_list_to_set.
  - exact (convert_reads_required_only sd' sd 10 128 Hagree).
Defined.

Lemma bind_length_const {A B} (f : A → list B) (l : list A) (c : nat) :
  (∀ a, length (f a) = c) → length (l ≫= f) = (c * length l)%nat.
Proof.
  intros Hf. induction l as [|a l IH]; [simpl; lia|].
  rewrite bind_cons, length_app, Hf, IH. simpl. lia.
Qed.

Lemma name_mapping_length (n : Z) :
  length (name_mapping n) = Z.to_nat (24 + 12 * Z.max 0 n).
Proof.
  unfold name_mapping. rewrite !length_app.
  rewrite (bind_length_const res_block_table (range n) 12).
  - unfold range. rewrite length_seqZ.
    assert (length conv_block_table = 6%nat) as -> by done.
    assert (length (value_head_table n) = 10%nat) as ->
      by (unfold value_head_table; by case_decide).
    assert (length (policy_head_table n) = 8%nat) as ->
      by (unfold policy_head_table; by case_decide).
    lia.
  - intros i. unfold res_block_table, block_suffixes. by case_decide.
Qed.

(** X2: a successful conversion returns [24 + 12 * num_blocks] entries: the
    six of the stem, twelve per residual block and the eighteen of the two
    heads; for [num_blocks <= 0] the loop does not run and only the 24 stem
    and head entries are returned. *)
Theorem convert_entry_count (sd : gmap string Tensor)
    (num_blocks num_filters : Z) (out : gmap string Tensor) :
  convert_to_tch_format sd num_blocks num_filters = inr out →
  Z.of_nat (size out) = (24 + 12 * Z.max 0 num_blocks)%Z.
Proof.
  intros Hrun. rewrite (convert_size _ _ _ _ Hrun), name_mapping_length. lia.
Qed.

Lemma convert_entry_count_witness :
  convert_to_tch_format (sample_state_dict (-3) 128) (-3) 128
  = inr (sample_output (-3) 128)
  ∧ Z.of_nat (size (sample_output (-3) 128)) = 24%Z.
Proof.
  split; [exact (sample_convert (-3) 128)|].
  exact (convert_entry_count (sample_state_dict (-3) 128) (-3) 128
           (sample_output (-3) 128) (sample_convert (-3) 128)).
Defined.

Lemma run_table_error_first sd table tch k :
  run_table sd table tch = inl (KeyError k) →
  ∃ l1 d l2, table = l1 ++ (d, k) :: l2
             ∧ (∀ s, s ∈ l1.*2 → is_Some (sd !! s)) ∧ sd !! k = None.
Proof.
  revert tch. induction table as [|[d s] table IH]; intros tch Hrun; [done|].
  rewrite run_table_cons in Hrun. destruct (sd !! s) as [t|] eqn:Hs.
  - rewrite (assign_Some _ _ _ _ t) in Hrun by done.
    destruct (IH _ Hrun) as (l1 & d' & l2 & -> & Hl1 & Hk).
    exists ((d, s) :: l1), d', l2. split_and!; [done| |done].
    intros s' [->|Hs']%elem_of_cons; [by exists t|by apply Hl1].
  - rewrite assign_None in Hrun by done. injection Hrun as <-.
    exists [], d, table. split_and!; [done| |done].
    intros s' Hs'. by apply elem_of_nil in Hs'.
Qed.

(** X3: a failing conversion reports the first absent source name in the
    order of the assignments: it raises [KeyError k] exactly when [k] is
    absent and every source name read by an earlier assignment is present.
    So an absent stem name is reported before any absent block name, a
    lower block before a higher one, and the heads last. *)
Theorem convert_reports_first_missing (sd : gmap string Tensor)
    (num_blocks num_filters : Z) (k : string) :
  convert_to_tch_format sd num_blocks num_filters = inl (KeyError k)
  ↔ ∃ earlier d later,
      name_mapping num_blocks = earlier ++ (d, k) :: later
      ∧ (∀ s, s ∈ earlier.*2 → is_Some (sd !! s))
      ∧ sd !! k = None.
Proof.
  rewrite convert_runs_table. split.
  - apply run_table_error_first.
  - intros (l1 & d & l2 & -> & Hl1 & Hk). by apply run_table_raises.
Qed.

Lemma source_name_not_destination (n : Z) :
  "convBlock1.conv1.weight" ∉ (name_mapping n).*1.
Proof.
  intros ([d s] & Hd & Hin)%list_elem_of_fmap. simpl in Hd. subst d.
  unfold name_mapping in Hin.
  apply elem_of_app in Hin as [Hin|[Hin|[Hin|Hin]%elem_of_app]%elem_of_app].
  - revert Hin. apply (bool_decide_unpack _). by vm_compute.
  - by apply res_blocks_tag in Hin as [? _].
  - by apply value_head_table_tag in Hin as [? _].
  - by apply policy_head_table_tag in Hin as [? _].
Qed.

(** X4: the conversion is not idempotent.  A converted dictionary holds
    destination names only, so converting it again, with whatever
    parameters, fails at the very first assignment with
    [KeyError 'convBlock1.conv1.weight']. *)
Theorem convert_twice_fails (sd : gmap string Tensor)
    (num_blocks num_filters num_blocks' num_filters' : Z)
    (out : gmap string Tensor) :
  convert_to_tch_format sd num_blocks num_filters = inr out →
  convert_to_tch_format out num_blocks' num_filters'
  = inl (KeyError "convBlock1.conv1.weight").
Proof.
  intros Hrun. rewrite convert_runs_table.
  apply (run_table_raises out [] "conv_block.weight" "convBlock1.conv1.weight").
  - intros s Hs. by apply elem_of_nil in Hs.
  - apply (convert_lookup_None _ _ _ _ _ Hrun), source_name_not_destination.
Qed.

Lemma convert_twice_fails_witness :
  convert_to_tch_format (sample_state_dict 10 128) 10 128
  = inr (sample_output 10 128)
  ∧ convert_to_tch_format (sample_output 10 128) 10 128
    = inl (KeyError "convBlock1.conv1.weight").
Proof.
  split; [exact (sample_convert 10 128)|].
  exact (convert_twice_fails (sample_state_dict 10 128) 10 128 10 128
           (sample_output 10 128) (sample_convert 10 128)).
Defined.

(** * Further properties of the main block *)



Lemma filter_none {A} (P : A → Prop) `{∀ x, Decision (P x)} (l : list A) :
  (∀ x, x ∈ l → ¬ P x) → filter P l = [].
Proof.
  induction l as [|a l IH]; intros Hall; [done|].
  rewrite filter_cons_False by (apply Hall, list_elem_of_here).
  apply IH. intros x Hx. apply Hall. by apply list_elem_of_further.
Qed.

Lemma detect_num_blocks_without_blocks (sd : gmap string Tensor) :
  (∀ k, k ∈ dom sd → startswith k "residualBlocks." = false) →
  detect_num_blocks sd = inl (ValueError "max() arg is an empty sequence").
Proof.
  intros Hnone. unfold detect_num_blocks. rewrite filter_none; [done|].
  intros k Hk%elem_of_keys Hstart. by rewrite (Hnone k Hk) in Hstart.
Qed.

(** X6: a checkpoint without any name starting with [residualBlocks.] is
    not converted: the detection takes [max] of an empty list, and the main
    block stops with that [ValueError] before the conversion is called. *)
Theorem main_convert_without_blocks (sd : gmap string Tensor) :
  (∀ k, k ∈ dom sd → startswith k "residualBlocks." = false) →
  main_convert sd = inl (ValueError "max() arg is an empty sequence").
Proof.
  intros Hnone. unfold main_convert.
  by rewrite detect_num_blocks_without_blocks.
Qed.

Lemma not_startswith_residual k :
  first_char k ≠ Some "r"%char → startswith k "residualBlocks." = false.
Proof.
  intros Hc. destruct (startswith k "residualBlocks.") eqn:Hstart; [|done].
  by apply startswith_first_char in Hstart.
Qed.

Lemma main_convert_without_blocks_witness :
  (∀ k, k ∈ dom (sample_state_dict 0 128) →
        startswith k "residualBlocks." = false)
  ∧ size (sample_state_dict 0 128) = 24%nat
  ∧ main_convert (sample_state_dict 0 128)
    = inl (ValueError "max() arg is an empty sequence").
Proof.
  assert (∀ k, k ∈ dom (sample_state_dict 0 128) →
               startswith k "residualBlocks." = false) as Hnone.
  { intros k Hk. rewrite sample_state_dict_dom in Hk.
    apply elem_of_list_to_set in Hk.
    destruct (startswith k "residualBlocks.") eqn:Hstart; [|done].
    destruct (required_keys_well_formed 0 k Hk Hstart) as (i & _ & Hi & _).
    lia. }
  split_and!; [exact Hnone|by vm_compute|].
  exact (main_convert_without_blocks (sample_state_dict 0 128) Hnone).
Defined.

Lemma destination_not_residual (n : Z) d :
  d ∈ (name_mapping n).*1 → startswith d "residualBlocks." = false.
Proof.
  intros ([d' s] & -> & Hin)%list_elem_of_fmap. simpl.
  unfold name_mapping in Hin.
  apply elem_of_app in Hin as [Hin|[Hin|[Hin|Hin]%elem_of_app]%elem_of_app].
  - apply not_startswith_residual.
    apply conv_block_table_tag in Hin as [Hc _]. simpl in Hc. congruence.
  - apply list_elem_of_bind in Hin as (i & Hin & _).
    by apply res_block_table_shape in Hin as (r & _ & -> & _).
  - apply not_startswith_residual.
    apply value_head_table_tag in Hin as [Hc _]. simpl in Hc. congruence.
  - apply not_startswith_residual.
    apply policy_head_table_tag in Hin as [Hc _]. simpl in Hc. congruence.
Qed.

(** X7: running the main block on a dictionary that the conversion
    returned does not convert it again: none of its names starts with
    [residualBlocks.], so the detection raises the [ValueError] of [max] on
    an empty list. *)
Theorem main_convert_on_converted (sd : gmap string Tensor)
    (num_blocks num_filters : Z) (out : gmap string Tensor) :
  convert_to_tch_format sd num_blocks num_filters = inr out →
  main_convert out = inl (ValueError "max() arg is an empty sequence").
Proof.
  intros Hrun. unfold main_convert.
  rewrite detect_num_blocks_without_blocks; [done|].
  intros k Hk. rewrite (convert_dom _ _ _ _ Hrun) in Hk.
  apply elem_of_list_to_set in Hk. by apply (destination_not_residual num_blocks).
Qed.

Lemma main_convert_on_converted_witness :
  convert_to_tch_format (sample_state_dict 10 128) 10 128
  = inr (sample_output 10 128)
  ∧ main_convert (sample_output 10 128)
    = inl (ValueError "max() arg is an empty sequence").
Proof.
  split; [exact (sample_convert 10 128)|].
  exact (main_convert_on_converted (sample_state_dict 10 128) 10 128
           (sample_output 10 128) (sample_convert 10 128)).
Defined.




(** * The default output file *)

Lemma string_length_append (a b : string) :
  String.length (a +:+ b) = (String.length a + String.length b)%nat.
Proof.
  induction a as [|c a IH]; [done|].
  change (S (String.length (a +:+ b))
          = S (String.length a + String.length b)). by rewrite IH.
Qed.

Lemma string_drop_length n s :
  String.length (string_drop n s) = (String.length s - n)%nat.
Proof.
  revert s. induction n as [|n IH]; intros [|c s]; simpl; auto with lia.
Qed.

Lemma prefix_length (p s : string) :
  String.prefix p s = true → (String.length p ≤ String.length s)%nat.
Proof.
  revert p. induction s as [|c s IH]; intros [|c' p]; simpl; try done; try lia.
  destruct (ascii_dec c' c); [|done]. intros Hp%IH. lia.
Qed.

Lemma replace_go_S fuel old new s :
  replace_go (S fuel) old new s
  = if String.prefix old s
    then new +:+ replace_go fuel old new (string_drop (String.length old) s)
    else match s with
         | EmptyString => EmptyString
         | String c s' => String c (replace_go fuel old new s')
         end.
Proof. reflexivity. Qed.

Lemma replace_go_fuel old new s f1 f2 :
  old ≠ "" → (String.length s < f1)%nat → (String.length s < f2)%nat →
  replace_go f1 old new s = replace_go f2 old new s.
Proof.
  intros Hold. revert s f2.
  induction f1 as [|f1 IH]; intros s [|f2] H1 H2; try lia.
  rewrite !replace_go_S. destruct (String.prefix old s) eqn:Hp.
  - f_equal. apply prefix_length in Hp.
    assert (0 < String.length old)%nat by (destruct old; [done|simpl; lia]).
    apply IH; rewrite string_drop_length; lia.
  - destruct s as [|c s]; [done|]. f_equal. simpl in H1, H2. apply IH; lia.
Qed.

Lemma replace_prefix s old new :
  old ≠ "" → String.prefix old s = true →
  replace s old new
  = new +:+ replace (string_drop (String.length old) s) old new.
Proof.
  intros Hold Hp. unfold replace. destruct old as [|c old]; [done|].
  rewrite replace_go_S, Hp. f_equal.
  apply prefix_length in Hp. simpl in Hp.
  apply replace_go_fuel; [done|rewrite string_drop_length; simpl; lia|lia].
Qed.

Lemma replace_cons c s old new :
  old ≠ "" → String.prefix old (String c s) = false →
  replace (String c s) old new = String c (replace s old new).
Proof.
  intros Hold Hp. unfold replace. destruct old as [|c' old]; [done|].
  by rewrite replace_go_S, Hp.
Qed.

Lemma replace_nil old new : old ≠ "" → replace "" old new = "".
Proof. by destruct old. Qed.

Lemma contains_cons sub c s :
  contains sub (String c s) = String.prefix sub (String c s) || contains sub s.
Proof. reflexivity. Qed.

Lemma replace_absent s old new :
  old ≠ "" → contains old s = false → replace s old new = s.
Proof.
  intros Hold. induction s as [|c s IH]; intros Hc.
  - by apply replace_nil.
  - rewrite contains_cons in Hc. apply orb_false_iff in Hc as [Hp Hc].
    rewrite replace_cons by done. by rewrite IH.
Qed.

Lemma replace_length s old new :
  old ≠ "" → (String.length old ≤ String.length new)%nat →
  (String.length s ≤ String.length (replace s old new))%nat
  ∧ (contains old s = true → String.length old < String.length new →
     String.length s < String.length (replace s old new))%nat.
Proof.
  intros Hold Hlen.
  assert (0 < String.length old)%nat by (destruct old; [done|simpl; lia]).
  remember (String.length s) as n eqn:Hn. revert s Hn.
  induction (lt_wf n) as [n _ IH]. intros s ->.
  destruct (String.prefix old s) eqn:Hp.
  - rewrite replace_prefix, string_length_append by done.
    pose proof (prefix_length _ _ Hp) as Hps.
    destruct (IH (String.length (string_drop (String.length old) s))
                 ltac:(rewrite string_drop_length; lia)
                 (string_drop (String.length old) s) eq_refl) as [Hle _].
    rewrite string_drop_length in Hle. split; [lia|]. lia.
  - destruct s as [|c s].
    + split; [by rewrite replace_nil|].
      intros Hc. unfold contains in Hc. by rewrite Hp in Hc.
    + rewrite replace_cons by done. rewrite contains_cons, Hp. simpl.
      destruct (IH (String.length s) ltac:(simpl; lia) s eq_refl) as [Hle Hlt].
      split; [lia|]. intros Hc Hnew. specialize (Hlt Hc Hnew). lia.
Qed.

(** X9: when no output file is given, the script writes to the input path
    itself exactly when that path contains no [.pt]: the default output
    path is the input path with every [.pt] replaced by [_rust.pt], which
    differs from the input path as soon as [.pt] occurs in it. *)
Theorem output_file_overwrites_input (prog input_file : string) :
  output_file [prog; input_file] = Some input_file
  ↔ contains ".pt" input_file = false.
Proof.
  unfold output_file. split.
  - intros Heq. apply (inj Some) in Heq.
    destruct (contains ".pt" input_file) eqn:Hc; [|done].
    destruct (replace_length input_file ".pt" "_rust.pt") as [_ Hlt];
      [done|simpl; lia|].
    specialize (Hlt Hc ltac:(simpl; lia)). rewrite Heq in Hlt. lia.
  - intros Hc. f_equal. by apply replace_absent.
Qed.

Lemma prefix_pt_append (s : string) :
  s ≠ "" → String.prefix ".pt" s = false →
  String.prefix ".pt" (s +:+ ".pt") = false.
Proof.
  destruct s as [|c1 [|c2 [|c3 s]]]; [done|..]; intros _ Hp.
  - change (String.prefix ".pt" (String c1 ".pt") = false).
    rewrite prefix_cons. by destruct (ascii_dec "." c1).
  - change (String.prefix ".pt" (String c1 (String c2 ".pt")) = false).
    rewrite prefix_cons. destruct (ascii_dec "." c1); [|done].
    rewrite prefix_cons. by destruct (ascii_dec "p" c2).
  - change (String.prefix ".pt"
              (String c1 (String c2 (String c3 (s +:+ ".pt")))) = false).
    rewrite !prefix_cons in Hp |- *.
    destruct (ascii_dec "." c1); [|done].
    destruct (ascii_dec "p" c2); [|done].
    destruct (ascii_dec "t" c3); [|done]. by destruct s.
Qed.

(** X10: for an input path [stem.pt] whose stem contains no [.pt], the
    default output path is [stem_rust.pt]. *)
Theorem output_file_default (prog stem : string) :
  contains ".pt" stem = false →
  output_file [prog; stem +:+ ".pt"] = Some (stem +:+ "_rust.pt").
Proof.
  intros Hc. unfold output_file. f_equal.
  induction stem as [|c stem IH]; [reflexivity|].
  rewrite contains_cons in Hc. apply orb_false_iff in Hc as [Hp Hc].
  change (String c stem +:+ ".pt") with (String c (stem +:+ ".pt")).
  rewrite replace_cons; [|done|].
  - change (String c stem +:+ "_rust.pt") with (String c (stem +:+ "_rust.pt")).
    f_equal. by apply IH.
  - by apply (prefix_pt_append (String c stem)).
Qed.

Lemma output_file_default_witness :
  contains ".pt" "weights/AlphaZeroNet_10x128" = false
  ∧ output_file ["convert_weights_working.py"; "weights/AlphaZeroNet_10x128.pt"]
    = Some "weights/AlphaZeroNet_10x128_rust.pt".
Proof.
  split; [reflexivity|].
  exact (output_file_default "convert_weights_working.py"
           "weights/AlphaZeroNet_10x128" eq_refl).
Defined.

(** * The mapping of the debugging script *)

Lemma od_get_od_set k v d k' :
  od_get (od_set k v d) k' = if decide (k = k') then Some v else od_get d k'.
Proof.
  induction d as [|[k0 v0] d IH]; simpl.
  - done.
  - destruct (decide (k0 = k)) as [->|Hne]; simpl.
    + by destruct (decide (k = k')).
    + rewrite IH. destruct (decide (k0 = k')) as [->|]; [|done].
      by rewrite decide_False by done.
Qed.

Lemma od_set_fresh k v d : k ∉ d.*1 → od_set k v d = d ++ [(k, v)].
Proof.
  induction d as [|[k0 v0] d IH]; intros Hk; [done|].
  rewrite fmap_cons, not_elem_of_cons in Hk. destruct Hk as [Hne Hk].
  simpl. rewrite decide_False by done. by rewrite IH.
Qed.

Lemma assignments_fresh rows d :
  NoDup (d.*1 ++ rows.*1) → assignments rows d = d ++ rows.
Proof.
  revert d. induction rows as [|[k v] rows IH]; intros d Hnd.
  - by rewrite app_nil_r.
  - unfold assignments. simpl. fold (assignments rows (od_set k v d)).
    rewrite fmap_cons in Hnd. simpl in Hnd.
    rewrite od_set_fresh.
    + rewrite IH; [by rewrite <-app_assoc|].
      by rewrite fmap_app, <-app_assoc.
    + apply NoDup_app in Hnd as (_ & Hdisj & _).
      intros Hk. apply (Hdisj _ Hk). apply list_elem_of_here.
Qed.

Lemma od_get_None d k : k ∉ d.*1 → od_get d k = None.
Proof.
  induction d as [|[k0 v0] d IH]; intros Hk; [done|].
  rewrite fmap_cons, not_elem_of_cons in Hk. destruct Hk as [Hne Hk].
  simpl. rewrite decide_False by done. by apply IH.
Qed.

Lemma od_get_elem d k v : od_get d k = Some v → (k, v) ∈ d.
Proof.
  induction d as [|[k0 v0] d IH]; [done|]. simpl.
  destruct (decide (k0 = k)) as [->|Hne].
  - intros [= ->]. apply list_elem_of_here.
  - intros Hget. by apply list_elem_of_further, IH.
Qed.

Lemma od_get_Some d k v : NoDup d.*1 → (k, v) ∈ d → od_get d k = Some v.
Proof.
  induction d as [|[k0 v0] d IH]; intros Hnd Hin.
  - by apply elem_of_nil in Hin.
  - rewrite fmap_cons in Hnd. apply NoDup_cons in Hnd as [Hfresh Hnd]. simpl.
    apply elem_of_cons in Hin as [[= -> ->]|Hin].
    + by rewrite decide_True.
    + rewrite decide_False; [by apply IH|].
      intros ->. apply Hfresh. apply list_elem_of_fmap. by exists (k, v).
Qed.

Lemma inverse_mapping_snoc m k v :
  inverse_mapping (m ++ [(k, v)]) = od_set v k (inverse_mapping m).
Proof. unfold inverse_mapping. by rewrite foldl_app. Qed.

(** The inverse sends a source name to the last destination name that was
    mapped to it. *)
Lemma inverse_mapping_last l1 d s l2 :
  s ∉ l2.*2 →
  od_get (inverse_mapping (l1 ++ (d, s) :: l2)) s = Some d.
Proof.
  revert l1. induction l2 as [|[d' s'] l2 IH] using rev_ind; intros l1 Hs.
  - rewrite inverse_mapping_snoc, od_get_od_set. by rewrite decide_True.
  - rewrite fmap_app, not_elem_of_app in Hs. destruct Hs as [Hs Hne].
    assert (l1 ++ (d, s) :: l2 ++ [(d', s')]
            = (l1 ++ (d, s) :: l2) ++ [(d', s')]) as ->
      by (by rewrite <-app_assoc).
    rewrite inverse_mapping_snoc, od_get_od_set, decide_False.
    + by apply IH.
    + intros ->. apply Hne. apply list_elem_of_here.
Qed.

Lemma inverse_mapping_sound m s d :
  od_get (inverse_mapping m) s = Some d → (d, s) ∈ m.
Proof.
  induction m as [|[d' s'] m IH] using rev_ind; [done|].
  rewrite inverse_mapping_snoc, od_get_od_set.
  destruct (decide (s' = s)) as [->|Hne].
  - intros [= ->]. apply elem_of_app. right. apply list_elem_of_here.
  - intros Hget. apply elem_of_app. left. by apply IH.
Qed.

Lemma inverse_mapping_unique m d s :
  (d, s) ∈ m → (∀ d', (d', s) ∈ m → d' = d) →
  od_get (inverse_mapping m) s = Some d.
Proof.
  intros Hin Huniq.
  destruct (od_get (inverse_mapping m) s) as [d'|] eqn:Hget.
  - apply inverse_mapping_sound in Hget. by rewrite (Huniq d' Hget).
  - apply list_elem_of_split in Hin as (l1 & l2 & ->).
    exfalso. revert Hget. clear Huniq. revert l1.
    induction l2 as [|[d' s'] l2 IH] using rev_ind; intros l1.
    + by rewrite inverse_mapping_snoc, od_get_od_set, decide_True.
    + assert (l1 ++ (d, s) :: l2 ++ [(d', s')]
              = (l1 ++ (d, s) :: l2) ++ [(d', s')]) as ->
        by (by rewrite <-app_assoc).
      rewrite inverse_mapping_snoc, od_get_od_set.
      destruct (decide (s' = s)); [done|]. apply IH.
Qed.

Lemma foldl_assignments_fresh (f : Z → list (string * string)) l d :
  NoDup (d.*1 ++ (l ≫= f).*1) →
  foldl (λ mapping i, assignments (f i) mapping) d l = d ++ (l ≫= f).
Proof.
  revert d. induction l as [|i l IH]; intros d Hnd.
  - by rewrite app_nil_r.
  - rewrite bind_cons in Hnd |- *. rewrite fmap_app, app_assoc in Hnd. simpl.
    rewrite assignments_fresh.
    + rewrite IH; [by rewrite <-app_assoc|]. by rewrite fmap_app.
    + by apply NoDup_app in Hnd as (Hnd & _ & _).
Qed.

Lemma debug_block_rows_shape i d s :
  (d, s) ∈ debug_block_rows i →
  ∃ r r', d = "res_block_" +:+ str i +:+ String "." r
          ∧ s = "residualBlocks." +:+ str i +:+ String "." r'.
Proof.
  revert d s.
  cut (Forall (λ p, ∃ r r', p.1 = "res_block_" +:+ str i +:+ String "." r
                            ∧ p.2 = "residualBlocks." +:+ str i +:+ String "." r')
         (debug_block_rows i)).
  { intros HF d s Hin. by apply (proj1 (Forall_forall _ _) HF (d, s)). }
  unfold debug_block_rows. case_decide;
    repeat (constructor; [eexists _, _; split; reflexivity|]); constructor.
Qed.

Lemma debug_block_rows_NoDup i : NoDup (debug_block_rows i).*1.
Proof.
  destruct (decide (i = 0)) as [->|Hi].
  { apply (bool_decide_unpack _). by vm_compute. }
  unfold debug_block_rows. rewrite decide_False by done.
  cbv [fmap list_fmap fst]. NoDup_names.
Qed.

Lemma debug_conv_rows_tag p :
  p ∈ debug_conv_rows →
  first_char p.1 = Some "c"%char ∧ first_char p.2 = Some "c"%char.
Proof. apply conv_block_table_tag. Qed.

Lemma debug_blocks_tag l p :
  p ∈ l ≫= debug_block_rows →
  first_char p.1 = Some "r"%char ∧ first_char p.2 = Some "r"%char.
Proof.
  intros (i & Hin & _)%list_elem_of_bind. destruct p as [d s].
  by apply debug_block_rows_shape in Hin as (r & r' & -> & ->).
Qed.

Lemma debug_rows_NoDup n :
  NoDup (debug_conv_rows ++ (range n ≫= debug_block_rows)).*1.
Proof.
  apply (NoDup_app_tagged fst "c"%char).
  - apply conv_block_table_NoDup.
  - rewrite fmap_bind_list. apply NoDup_bind.
    + intros i j x Hi%elem_of_range Hj%elem_of_range
        [[d s] [-> Hin1]]%list_elem_of_fmap
        [[d' s'] [Heq Hin2]]%list_elem_of_fmap. simpl in Heq. subst d'.
      apply debug_block_rows_shape in Hin1 as (r1 & _ & -> & _).
      apply debug_block_rows_shape in Hin2 as (r2 & _ & Heq & _).
      apply append_inj_l in Heq.
      apply str_dot_inj in Heq as [-> _]; [done|lia..].
    + intros i _. apply debug_block_rows_NoDup.
    + apply NoDup_range.
  - by intros x [??]%debug_conv_rows_tag.
  - intros x [Hx _]%debug_blocks_tag Hc. congruence.
Qed.

(** The dictionary built by the debugging script holds its assignments in
    order: no name is assigned twice. *)
Lemma create_correct_mapping_rows n :
  create_correct_mapping n
  = debug_conv_rows ++ (range n ≫= debug_block_rows).
Proof.
  unfold create_correct_mapping.
  assert (assignments debug_conv_rows [] = debug_conv_rows) as ->
    by (by vm_compute).
  apply foldl_assignments_fresh. rewrite <-fmap_app. apply debug_rows_NoDup.
Qed.

Lemma create_correct_mapping_NoDup n : NoDup (create_correct_mapping n).*1.
Proof. rewrite create_correct_mapping_rows. apply debug_rows_NoDup. Qed.

Lemma debug_block_rows_in_mapping (n i : Z) p :
  (0 ≤ i < n)%Z → p ∈ debug_block_rows i → p ∈ create_correct_mapping n.
Proof.
  intros Hi Hp. rewrite create_correct_mapping_rows.
  apply elem_of_app. right. apply list_elem_of_bind.
  exists i. split; [done|]. by apply elem_of_range.
Qed.

Lemma first_block_rows_Permutation :
  conv_block_table ++ res_block_table 0
  ≡ₚ debug_conv_rows ++ debug_block_rows 0.
Proof. apply (bool_decide_unpack _). by vm_compute. Qed.

Lemma first_block_rows_in_mapping (n : Z) p :
  (1 ≤ n)%Z → p ∈ conv_block_table ++ res_block_table 0 →
  p ∈ create_correct_mapping n.
Proof.
  intros Hn. rewrite first_block_rows_Permutation.
  intros [Hp|Hp]%elem_of_app.
  - rewrite create_correct_mapping_rows. apply elem_of_app. by left.
  - apply (debug_block_rows_in_mapping n 0); [lia|done].
Qed.

(** X11: on the stem and on block 0 the mapping of the debugging script is
    the one the conversion applies: it sends each of their destination
    names to the source name whose tensor the conversion stores there. *)
Theorem debug_mapping_agrees_on_first_block (n : Z) (d s : string) :
  (1 ≤ n)%Z →
  (d, s) ∈ conv_block_table ++ res_block_table 0 →
  od_get (create_correct_mapping n) d = Some s
  ∧ (d, s) ∈ name_mapping n.
Proof.
  intros Hn Hin. split.
  - apply od_get_Some; [apply create_correct_mapping_NoDup|].
    by apply first_block_rows_in_mapping.
  - apply elem_of_app in Hin as [Hin|Hin].
    + unfold name_mapping. apply elem_of_app. by left.
    + apply (res_block_table_in_mapping n 0); [lia|done].
Qed.

Lemma debug_mapping_agrees_on_first_block_witness :
  (1 ≤ 10)%Z
  ∧ ("res_block_0.weight__13", "residualBlocks.0.conv2.weight")
    ∈ conv_block_table ++ res_block_table 0
  ∧ od_get (create_correct_mapping 10) "res_block_0.weight__13"
    = Some "residualBlocks.0.conv2.weight"
  ∧ ("res_block_0.weight__13", "residualBlocks.0.conv2.weight")
    ∈ name_mapping 10.
Proof.
  assert (("res_block_0.weight__13", "residualBlocks.0.conv2.weight")
          ∈ conv_block_table ++ res_block_table 0) as Hin
    by (apply (bool_decide_unpack _); by vm_compute).
  split; [lia|]. split; [exact Hin|].
  exact (debug_mapping_agrees_on_first_block 10 _ _ ltac:(lia) Hin).
Defined.

Lemma not_in_block_dst_suffixes (i : Z) (r : string) (k : Z) :
  i ≠ 0 → (k = 2 ∨ k = 3)%Z →
  r = (if decide (k = 2) then ".weight__" else ".bias__")
      +:+ str (20 + (i - 1) * 12 + k) →
  r ∉ block_dst_suffixes i.
Proof.
  intros Hi [->| ->] ->;
    [rewrite (decide_True (P := 2 = 2)) by done
    |rewrite (decide_False (P := 3 = 2)) by done];
    unfold block_dst_suffixes, block_suffixes, bare_roles, suffixed_roles;
    rewrite (decide_False (P := i = 0)) by done;
    cbv [fmap list_fmap zip_with fst snd app];
    rewrite !not_elem_of_cons; split_and!;
      first [apply not_elem_of_nil | name_neq].
Qed.

Lemma not_destination_name (n i : Z) (r : string) :
  (0 ≤ i)%Z → String "." r ∉ block_dst_suffixes i →
  "res_block_" +:+ str i +:+ String "." r ∉ (name_mapping n).*1.
Proof.
  intros Hi Hr ([d s] & Hd & Hin)%list_elem_of_fmap. simpl in Hd. subst d.
  apply (name_mapping_block_rows n i _ _ r) in Hin as [_ Hin]; [|done..].
  apply Hr.
  assert ("res_block_" +:+ str i +:+ String "." r ∈ (res_block_table i).*1)
    as Hd
    by (apply list_elem_of_fmap;
        by exists ("res_block_" +:+ str i +:+ String "." r, s)).
  rewrite res_block_table_dst in Hd.
  apply list_elem_of_fmap in Hd as (r' & Heq & Hr').
  do 2 apply append_inj_l in Heq. by subst r'.
Qed.

(** X12: on every later block the mapping of the debugging script departs
    from the conversion.  For [1 <= i < n] and [base = 20 + (i-1)*12] it
    sends [bias__(base+1)] to [conv1.bias] where the conversion stores
    [bn2.bias], [weight__(base+5)] to [bn1.weight] where the conversion
    stores [conv2.weight], and [weight__(base+6)] to [conv2.weight] where
    the conversion stores [bn1.weight]; and it has the names
    [weight__(base+2)] and [bias__(base+3)], which the conversion never
    produces. *)
Theorem debug_mapping_differs_on_later_blocks (n i : Z) :
  (1 ≤ i < n)%Z →
  let base := (20 + (i - 1) * 12)%Z in
  let dst r := "res_block_" +:+ str i +:+ r in
  let src r := "residualBlocks." +:+ str i +:+ r in
  let debug := create_correct_mapping n in
  (od_get debug (dst (".bias__" +:+ str (base + 1))) = Some (src ".conv1.bias")
   ∧ (dst (".bias__" +:+ str (base + 1)), src ".bn2.bias") ∈ name_mapping n)
  ∧ (od_get debug (dst (".weight__" +:+ str (base + 5)))
     = Some (src ".bn1.weight")
     ∧ (dst (".weight__" +:+ str (base + 5)), src ".conv2.weight")
       ∈ name_mapping n)
  ∧ (od_get debug (dst (".weight__" +:+ str (base + 6)))
     = Some (src ".conv2.weight")
     ∧ (dst (".weight__" +:+ str (base + 6)), src ".bn1.weight")
       ∈ name_mapping n)
  ∧ (od_get debug (dst (".weight__" +:+ str (base + 2)))
     = Some (src ".bn2.weight")
     ∧ dst (".weight__" +:+ str (base + 2)) ∉ (name_mapping n).*1)
  ∧ (od_get debug (dst (".bias__" +:+ str (base + 3))) = Some (src ".bn2.bias")
     ∧ dst (".bias__" +:+ str (base + 3)) ∉ (name_mapping n).*1).
Proof.
  intros Hi base dst src debug.
  assert (∀ d s, (d, s) ∈ debug_block_rows i → od_get debug d = Some s)
    as Hdebug.
  { intros d s Hin. apply od_get_Some; [apply create_correct_mapping_NoDup|].
    apply (debug_block_rows_in_mapping n i); [lia|done]. }
  assert (∀ d s, (d, s) ∈ res_block_table i → (d, s) ∈ name_mapping n)
    as Hconv.
  { intros d s Hin. apply (res_block_table_in_mapping n i); [lia|done]. }
  unfold debug_block_rows in Hdebug.
  unfold res_block_table, block_suffixes, bare_roles, suffixed_roles in Hconv.
  rewrite decide_False in Hdebug by lia.
  rewrite decide_False in Hconv by lia.
  cbv [fmap list_fmap zip_with fst snd app] in Hconv.
  unfold dst, src, base.
  split_and!;
    first [ apply Hdebug; find_row
          | apply Hconv; find_row
          | idtac ].
  - apply (not_destination_name n i); [lia|].
    by apply (not_in_block_dst_suffixes i _ 2); [lia|left|].
  - apply (not_destination_name n i); [lia|].
    by apply (not_in_block_dst_suffixes i _ 3); [lia|right|].
Qed.

Lemma debug_mapping_differs_on_later_blocks_witness :
  (1 ≤ 1 < 10)%Z
  ∧ od_get (create_correct_mapping 10) "res_block_1.bias__21"
    = Some "residualBlocks.1.conv1.bias"
  ∧ ("res_block_1.bias__21", "residualBlocks.1.bn2.bias") ∈ name_mapping 10
  ∧ "res_block_1.weight__22" ∉ (name_mapping 10).*1.
Proof.
  split; [lia|].
  destruct (debug_mapping_differs_on_later_blocks 10 1 ltac:(lia))
    as ((H1 & H2) & _ & _ & (_ & H3) & _).
  split_and!; [exact H1|exact H2|exact H3].
Defined.

Lemma first_block_sources_NoDup :
  NoDup debug_conv_rows.*2 ∧ NoDup (debug_block_rows 0).*2.
Proof. split; apply (bool_decide_unpack _); by vm_compute. Qed.

Lemma debug_first_block_source_unique (n : Z) d s d' :
  (d, s) ∈ debug_conv_rows ++ debug_block_rows 0 →
  (d', s) ∈ create_correct_mapping n → d' = d.
Proof.
  rewrite create_correct_mapping_rows.
  intros [Hin|Hin]%elem_of_app [Hin'|Hin']%elem_of_app.
  - assert ((d', s) = (d, s)) as [= ->]; [|done].
    by apply (NoDup_fmap_inj_on snd debug_conv_rows);
      [apply first_block_sources_NoDup|..].
  - apply debug_conv_rows_tag in Hin as [_ Hc].
    apply debug_blocks_tag in Hin' as [_ Hr]. simpl in *. congruence.
  - apply debug_conv_rows_tag in Hin' as [_ Hc].
    apply debug_block_rows_shape in Hin as (_ & r & _ & ->). done.
  - apply list_elem_of_bind in Hin' as (j & Hin' & Hj%elem_of_range).
    destruct (debug_block_rows_shape _ _ _ Hin) as (_ & r & _ & Hs).
    destruct (debug_block_rows_shape _ _ _ Hin') as (_ & r' & _ & Hs').
    rewrite Hs in Hs'. apply append_inj_l in Hs'.
    apply str_dot_inj in Hs' as [<- _]; [|lia..].
    assert ((d', s) = (d, s)) as [= ->]; [|done].
    by apply (NoDup_fmap_inj_on snd (debug_block_rows 0));
      [apply first_block_sources_NoDup|..].
Qed.

(** X13: on the stem and on block 0 the inverse mapping of the debugging
    script is the inverse of the conversion's mapping: it sends each of
    their source names back to the destination name under which the
    conversion stores the tensor. *)
Theorem debug_inverse_first_block (n : Z) (d s : string) :
  (1 ≤ n)%Z →
  (d, s) ∈ conv_block_table ++ res_block_table 0 →
  od_get (inverse_mapping (create_correct_mapping n)) s = Some d.
Proof.
  intros Hn Hin. apply inverse_mapping_unique.
  - by apply first_block_rows_in_mapping.
  - intros d'. apply debug_first_block_source_unique.
    by rewrite <-first_block_rows_Permutation.
Qed.

Lemma debug_inverse_first_block_witness :
  (1 ≤ 10)%Z
  ∧ ("res_block_0.bias__15", "residualBlocks.0.conv2.bias")
    ∈ conv_block_table ++ res_block_table 0
  ∧ od_get (inverse_mapping (create_correct_mapping 10))
      "residualBlocks.0.conv2.bias"
    = Some "res_block_0.bias__15".
Proof.
  assert (("res_block_0.bias__15", "residualBlocks.0.conv2.bias")
          ∈ conv_block_table ++ res_block_table 0) as Hin
    by (apply (bool_decide_unpack _); by vm_compute).
  split; [lia|]. split; [exact Hin|].
  exact (debug_inverse_first_block 10 _ _ ltac:(lia) Hin).
Defined.

Lemma range_split (n i : Z) :
  (0 ≤ i < n)%Z → range n = range i ++ i :: seqZ (i + 1) (n - i - 1).
Proof.
  intros Hi. unfold range.
  replace n with (i + (n - i))%Z at 1 by lia.
  rewrite seqZ_app by lia. f_equal.
  rewrite seqZ_cons by lia.
  assert (0 + i = i)%Z as -> by lia.
  assert (Z.succ i = i + 1)%Z as -> by lia.
  assert (Z.pred (n - i) = n - i - 1)%Z as -> by lia. done.
Qed.

Lemma create_correct_mapping_split (n i : Z) :
  (0 ≤ i < n)%Z →
  ∃ before after,
    create_correct_mapping n = before ++ debug_block_rows i ++ after
    ∧ ∀ p, p ∈ after → ∃ j, (i < j)%Z ∧ p ∈ debug_block_rows j.
Proof.
  intros Hi. rewrite create_correct_mapping_rows, (range_split n i Hi).
  rewrite bind_app, bind_cons.
  exists (debug_conv_rows ++ (range i ≫= debug_block_rows)),
         (seqZ (i + 1) (n - i - 1) ≫= debug_block_rows).
  split; [by rewrite <-!app_assoc|].
  intros p (j & Hp & Hj%elem_of_seqZ)%list_elem_of_bind.
  exists j. split; [lia|done].
Qed.

Lemma later_block_source (i : Z) after r :
  (0 ≤ i)%Z →
  (∀ p, p ∈ after → ∃ j, (i < j)%Z ∧ p ∈ debug_block_rows j) →
  "residualBlocks." +:+ str i +:+ String "." r ∉ after.*2.
Proof.
  intros Hi Hafter ([d s] & Hs & Hin)%list_elem_of_fmap. simpl in Hs.
  destruct (Hafter _ Hin) as (j & Hj & Hin').
  apply debug_block_rows_shape in Hin' as (_ & r' & _ & ->).
  apply append_inj_l in Hs. apply str_dot_inj in Hs as [-> _]; lia.
Qed.

(** Refutes that a source name is the value of one of the rows listed. *)
Ltac not_among_sources :=
  cbv [fmap list_fmap snd]; rewrite ?append_assoc;
  rewrite ?not_elem_of_cons; split_and?;
  first [apply not_elem_of_nil | name_neq].

(** X14: on every later block the inverse mapping of the debugging script
    loses names, because the mapping sends two destination names to one
    source name and the later one wins.  For [1 <= i < n] and
    [base = 20 + (i-1)*12] the inverse sends [conv1.bias] to
    [bias__(base+1)] and [bn2.weight] to [weight__(base+2)]; the names
    [res_block_i.bias] and [res_block_i.weight__base], which are in the
    mapping, are the image of no source name. *)
Theorem debug_inverse_loses_names (n i : Z) :
  (1 ≤ i < n)%Z →
  let base := (20 + (i - 1) * 12)%Z in
  let dst r := "res_block_" +:+ str i +:+ r in
  let src r := "residualBlocks." +:+ str i +:+ r in
  let debug := create_correct_mapping n in
  let inverse := inverse_mapping debug in
  od_get debug (dst ".bias") = Some (src ".conv1.bias")
  ∧ od_get inverse (src ".conv1.bias") = Some (dst (".bias__" +:+ str (base + 1)))
  ∧ (∀ s, od_get inverse s ≠ Some (dst ".bias"))
  ∧ od_get debug (dst (".weight__" +:+ str base)) = Some (src ".bn2.weight")
  ∧ od_get inverse (src ".bn2.weight")
    = Some (dst (".weight__" +:+ str (base + 2)))
  ∧ (∀ s, od_get inverse s ≠ Some (dst (".weight__" +:+ str base))).
Proof.
  intros Hi base dst src debug inverse.
  assert (∀ d s, (d, s) ∈ debug_block_rows i → od_get debug d = Some s)
    as Hdebug.
  { intros d s Hin. apply od_get_Some; [apply create_correct_mapping_NoDup|].
    apply (debug_block_rows_in_mapping n i); [lia|done]. }
  assert (∀ d s s', od_get debug d = Some s → od_get inverse s' = Some d →
                    s' = s) as Hback.
  { intros d s s' Hd Hs'%inverse_mapping_sound.
    apply (od_get_Some _ _ _ (create_correct_mapping_NoDup n)) in Hs'.
    unfold debug in Hd. congruence. }
  destruct (create_correct_mapping_split n i) as (before & after & Hsplit & Hafter);
    [lia|].
  pose proof (λ r, later_block_source i after r ltac:(lia) Hafter) as Hlater.
  unfold debug_block_rows in Hdebug, Hsplit.
  rewrite decide_False in Hdebug by lia.
  rewrite decide_False in Hsplit by lia.
  assert (od_get debug (dst ".bias") = Some (src ".conv1.bias")) as Hbias
    by (apply Hdebug; find_row).
  assert (od_get debug (dst (".weight__" +:+ str base))
          = Some (src ".bn2.weight")) as Hweight
    by (apply Hdebug; find_row).
  assert (od_get inverse (src ".conv1.bias")
          = Some (dst (".bias__" +:+ str (base + 1)))) as Hinv_bias.
  { unfold inverse, debug. rewrite Hsplit.
    match goal with
    | |- context [before ++ (?r1 :: ?r2 :: ?r3 :: ?r4 :: ?rest) ++ after] =>
        assert (before ++ (r1 :: r2 :: r3 :: r4 :: rest) ++ after
                = (before ++ [r1; r2; r3]) ++ r4 :: (rest ++ after)) as ->
          by (by rewrite <-!app_assoc)
    end.
    apply inverse_mapping_last. rewrite fmap_app. apply not_elem_of_app.
    split; [not_among_sources|apply (Hlater "conv1.bias")]. }
  assert (od_get inverse (src ".bn2.weight")
          = Some (dst (".weight__" +:+ str (base + 2)))) as Hinv_weight.
  { unfold inverse, debug. rewrite Hsplit.
    match goal with
    | |- context [before ++ (?r1 :: ?r2 :: ?r3 :: ?r4 :: ?r5 :: ?rest) ++ after] =>
        assert (before ++ (r1 :: r2 :: r3 :: r4 :: r5 :: rest) ++ after
                = (before ++ [r1; r2; r3; r4]) ++ r5 :: (rest ++ after)) as ->
          by (by rewrite <-!app_assoc)
    end.
    apply inverse_mapping_last. rewrite fmap_app. apply not_elem_of_app.
    split; [not_among_sources|apply (Hlater "bn2.weight")]. }
  split_and!; [exact Hbias|exact Hinv_bias| |exact Hweight|exact Hinv_weight|].
  - intros s Hs. rewrite (Hback _ _ _ Hbias Hs) in Hs.
    rewrite Hinv_bias in Hs. revert Hs. unfold dst. intros [= Hs].
    revert Hs. name_neq.
  - intros s Hs. rewrite (Hback _ _ _ Hweight Hs) in Hs.
    rewrite Hinv_weight in Hs. revert Hs. unfold dst. intros [= Hs].
    revert Hs. name_neq.
Qed.

Lemma debug_inverse_loses_names_witness :
  (1 ≤ 1 < 10)%Z
  ∧ od_get (create_correct_mapping 10) "res_block_1.bias"
    = Some "residualBlocks.1.conv1.bias"
  ∧ od_get (inverse_mapping (create_correct_mapping 10))
      "residualBlocks.1.conv1.bias"
    = Some "res_block_1.bias__21".
Proof.
  split; [lia|].
  destruct (debug_inverse_loses_names 10 1 ltac:(lia)) as (H1 & H2 & _).
  split; [exact H1|exact H2].
Defined.

(** X15: the mapping of the debugging script covers the stem and the
    residual blocks only.  None of the eighteen head names of the
    conversion is a name of the mapping, and none of their source names is
    sent anywhere by its inverse. *)
Theorem debug_mapping_has_no_heads (n n' : Z) (d s : string) :
  (d, s) ∈ value_head_table n' ++ policy_head_table n' →
  od_get (create_correct_mapping n) d = None
  ∧ od_get (inverse_mapping (create_correct_mapping n)) s = None.
Proof.
  intros Hin.
  assert ((first_char d = Some "v"%char ∧ first_char s = Some "v"%char)
          ∨ (first_char d = Some "p"%char ∧ first_char s = Some "p"%char))
    as Htag.
  { apply elem_of_app in Hin as [Hin|Hin].
    - left. by apply value_head_table_tag in Hin.
    - right. by apply policy_head_table_tag in Hin. }
  assert (∀ d' s', (d', s') ∈ create_correct_mapping n →
                   (first_char d' = Some "c"%char ∧ first_char s' = Some "c"%char)
                   ∨ (first_char d' = Some "r"%char
                      ∧ first_char s' = Some "r"%char)) as Hrows.
  { intros d' s'. rewrite create_correct_mapping_rows.
    intros [Hin'|Hin']%elem_of_app.
    - left. by apply debug_conv_rows_tag in Hin'.
    - right. by apply debug_blocks_tag in Hin'. }
  split.
  - destruct (od_get (create_correct_mapping n) d) as [s'|] eqn:Hget; [|done].
    apply od_get_elem, Hrows in Hget.
    destruct Htag as [[Hd _]|[Hd _]], Hget as [[Hd' _]|[Hd' _]]; congruence.
  - destruct (od_get (inverse_mapping (create_correct_mapping n)) s)
      as [d'|] eqn:Hget; [|done].
    apply inverse_mapping_sound, Hrows in Hget.
    destruct Htag as [[_ Hs]|[_ Hs]], Hget as [[_ Hs']|[_ Hs']]; congruence.
Qed.

Lemma debug_mapping_has_no_heads_witness :
  ("value_head.weight__128", "valueHead.bn1.weight")
  ∈ value_head_table 10 ++ policy_head_table 10
  ∧ od_get (create_correct_mapping 10) "value_head.weight__128" = None
  ∧ od_get (inverse_mapping (create_correct_mapping 10)) "valueHead.bn1.weight"
    = None.
Proof.
  assert (("value_head.weight__128", "valueHead.bn1.weight")
          ∈ value_head_table 10 ++ policy_head_table 10) as Hin
    by (apply (bool_decide_unpack _); by vm_compute).
  split; [exact Hin|].
  exact (debug_mapping_has_no_heads 10 10 _ _ Hin).
Defined.

(** * The heuristic mapping of [generate_mapping.py] *)

Lemma od_set_elem k v d k' v' :
  (k', v') ∈ od_set k v d → (k', v') ∈ d ∨ (k' = k ∧ v' = v).
Proof.
  induction d as [|[k0 v0] d IH]; simpl.
  - intros [[= -> ->]|Hin%elem_of_nil]%elem_of_cons; [by right|done].
  - destruct (decide (k0 = k)) as [->|Hne].
    + intros [[= -> ->]|Hin]%elem_of_cons; [by right|].
      left. by apply list_elem_of_further.
    + intros [->|Hin]%elem_of_cons; [left; apply list_elem_of_here|].
      destruct (IH Hin) as [?|?]; [left; by apply list_elem_of_further|by right].
Qed.

Lemma for_items_cons rule name shape items mapping :
  for_items rule ((name, shape) :: items) mapping
  = bind (rule name shape)
         (λ v, for_items rule items (setitem_opt name v mapping)).
Proof. reflexivity. Qed.

Lemma for_items_elem rule items m m' k v :
  for_items rule items m = inr m' → (k, v) ∈ m' →
  (k, v) ∈ m ∨ ∃ shape, (k, shape) ∈ items ∧ rule k shape = inr (Some v).
Proof.
  revert m. induction items as [|[name shape] items IH]; intros m Hrun Hin.
  - injection Hrun as <-. by left.
  - rewrite for_items_cons in Hrun.
    destruct (rule name shape) as [e|choice] eqn:Hrule; [done|].
    destruct (IH _ Hrun Hin) as [Hm|(shape' & Hitem & Hr)].
    + destruct choice as [v0|]; simpl in Hm; [|by left].
      apply od_set_elem in Hm as [Hm|[-> ->]]; [by left|].
      right. exists shape. split; [apply list_elem_of_here|done].
    + right. exists shape'. split; [by apply list_elem_of_further|done].
Qed.

Lemma for_items_get_other rule items m m' k :
  k ∉ items.*1 → for_items rule items m = inr m' → od_get m' k = od_get m k.
Proof.
  revert m. induction items as [|[name shape] items IH]; intros m Hk Hrun.
  - by injection Hrun as <-.
  - rewrite fmap_cons, not_elem_of_cons in Hk. destruct Hk as [Hne Hk].
    rewrite for_items_cons in Hrun.
    destruct (rule name shape) as [e|choice]; [done|].
    rewrite (IH _ Hk Hrun). destruct choice as [v0|]; [|done]. simpl.
    rewrite od_get_od_set. by rewrite decide_False by done.
Qed.

Lemma for_items_get_item rule items m m' k shape :
  NoDup items.*1 → (k, shape) ∈ items → for_items rule items m = inr m' →
  ∃ choice, rule k shape = inr choice
            ∧ od_get m' k = match choice with
                            | Some v => Some v
                            | None => od_get m k
                            end.
Proof.
  revert m. induction items as [|[name sh] items IH]; intros m Hnd Hin Hrun.
  - by apply elem_of_nil in Hin.
  - rewrite fmap_cons in Hnd. apply NoDup_cons in Hnd as [Hfresh Hnd].
    simpl in Hfresh. rewrite for_items_cons in Hrun.
    destruct (rule name sh) as [e|choice] eqn:Hrule; [done|].
    apply elem_of_cons in Hin as [[= -> ->]|Hin].
    + exists choice. split; [done|].
      rewrite (for_items_get_other _ _ _ _ _ Hfresh Hrun).
      destruct choice as [v0|]; [|done]. simpl.
      by rewrite od_get_od_set, decide_True.
    + destruct (IH _ Hnd Hin Hrun) as (choice' & Hr & Hget).
      exists choice'. split; [done|]. rewrite Hget.
      destruct choice' as [v'|]; [done|].
      destruct choice as [v0|]; [|done]. simpl.
      rewrite od_get_od_set, decide_False; [done|].
      intros ->. apply Hfresh. apply list_elem_of_fmap. by exists (k, shape).
Qed.

Lemma block_vars_elem i tch_vars item :
  item ∈ block_vars i tch_vars
  ↔ startswith item.1 (("res_block_" +:+ str i) +:+ ".") = true
    ∧ item ∈ tch_vars.
Proof. unfold block_vars. by rewrite list_elem_of_filter. Qed.

Lemma block_vars_NoDup i tch_vars :
  NoDup tch_vars.*1 → NoDup (block_vars i tch_vars).*1.
Proof.
  unfold block_vars. induction tch_vars as [|[k v] l IH]; intros Hnd; [done|].
  rewrite fmap_cons in Hnd. apply NoDup_cons in Hnd as [Hfresh Hnd].
  rewrite filter_cons. case_decide; [|by apply IH].
  rewrite fmap_cons. apply NoDup_cons. split; [|by apply IH].
  intros ([k' v'] & Hk & [_ Hin]%list_elem_of_filter)%list_elem_of_fmap.
  simpl in Hk. subst k'. apply Hfresh. apply list_elem_of_fmap.
  by exists (k, v').
Qed.

Lemma for_blocks_cons i blocks tch_vars mapping :
  for_blocks (i :: blocks) tch_vars mapping
  = bind (for_items (block_rule i) (block_vars i tch_vars) mapping)
         (for_blocks blocks tch_vars).
Proof. reflexivity. Qed.

Lemma for_blocks_elem blocks tch_vars m m' k v :
  for_blocks blocks tch_vars m = inr m' → (k, v) ∈ m' →
  (k, v) ∈ m
  ∨ ∃ i shape, i ∈ blocks ∧ (k, shape) ∈ tch_vars
               ∧ block_rule i k shape = inr (Some v).
Proof.
  revert m. induction blocks as [|i blocks IH]; intros m Hrun Hin.
  - injection Hrun as <-. by left.
  - rewrite for_blocks_cons in Hrun.
    destruct (for_items _ _ m) as [e|m1] eqn:Hitems; [done|].
    destruct (IH _ Hrun Hin) as [Hm1|(j & shape & Hj & Hitem & Hr)].
    + destruct (for_items_elem _ _ _ _ _ _ Hitems Hm1)
        as [Hm|(shape & [_ Hitem]%block_vars_elem & Hr)]; [by left|].
      right. exists i, shape. split_and!; [apply list_elem_of_here|done..].
    + right. exists j, shape. split_and!; [by apply list_elem_of_further|done..].
Qed.

Lemma for_blocks_get_other blocks tch_vars m m' k :
  (∀ i, i ∈ blocks →
        startswith k (("res_block_" +:+ str i) +:+ ".") = false) →
  for_blocks blocks tch_vars m = inr m' → od_get m' k = od_get m k.
Proof.
  revert m. induction blocks as [|i blocks IH]; intros m Hk Hrun.
  - by injection Hrun as <-.
  - rewrite for_blocks_cons in Hrun.
    destruct (for_items _ _ m) as [e|m1] eqn:Hitems; [done|].
    rewrite (IH m1); [|intros j Hj; apply Hk; by apply list_elem_of_further|done].
    eapply for_items_get_other; [|exact Hitems].
    intros ([k' sh] & Hk' & [Hstart _]%block_vars_elem)%list_elem_of_fmap.
    simpl in Hk', Hstart. subst k'.
    rewrite Hk in Hstart; [done|apply list_elem_of_here].
Qed.

Lemma for_blocks_get_block blocks tch_vars m m' i k shape :
  NoDup tch_vars.*1 → NoDup blocks → i ∈ blocks → (k, shape) ∈ tch_vars →
  startswith k (("res_block_" +:+ str i) +:+ ".") = true →
  (∀ j, j ∈ blocks → j ≠ i →
        startswith k (("res_block_" +:+ str j) +:+ ".") = false) →
  for_blocks blocks tch_vars m = inr m' →
  ∃ choice, block_rule i k shape = inr choice
            ∧ od_get m' k = match choice with
                            | Some v => Some v
                            | None => od_get m k
                            end.
Proof.
  intros Hnd. revert m.
  induction blocks as [|j blocks IH]; intros m Hblocks Hi Hitem Hstart Hother Hrun.
  - by apply elem_of_nil in Hi.
  - apply NoDup_cons in Hblocks as [Hj Hblocks].
    rewrite for_blocks_cons in Hrun.
    destruct (for_items _ _ m) as [e|m1] eqn:Hitems; [done|].
    apply elem_of_cons in Hi as [->|Hi].
    + destruct (for_items_get_item _ _ _ _ k shape
                  (block_vars_NoDup j _ Hnd) ltac:(by apply block_vars_elem)
                  Hitems) as (choice & Hr & Hget).
      exists choice. split; [done|]. rewrite <-Hget.
      eapply for_blocks_get_other; [|exact Hrun].
      intros j' Hj'. apply Hother; [by apply list_elem_of_further|].
      intros ->. done.
    + destruct (IH m1 Hblocks Hi Hitem Hstart) as (choice & Hr & Hget).
      { intros j' Hj'. apply Hother. by apply list_elem_of_further. }
      { done. }
      exists choice. split; [done|]. rewrite Hget.
      destruct choice; [done|].
      eapply for_items_get_other; [|exact Hitems].
      intros ([k' sh] & Hk' & [Hstart' _]%block_vars_elem)%list_elem_of_fmap.
      simpl in Hk', Hstart'. subst k'.
      rewrite Hother in Hstart'; [done|apply list_elem_of_here|].
      intros ->. done.
Qed.

Lemma bind_inr_inv {A B} (r : Result A) (k : A → Result B) b :
  bind r k = inr b → ∃ a, r = inr a ∧ k a = inr b.
Proof. destruct r as [e|a]; [done|]. intros Hk. by exists a. Qed.

Lemma prefix_first_char (p k : string) c :
  first_char p = Some c → String.prefix p k = true → first_char k = Some c.
Proof.
  destruct p as [|a p]; [done|]. destruct k as [|b k]; [done|].
  intros Hc Hp. simpl in Hc. injection Hc as ->.
  rewrite prefix_cons in Hp. by destruct (ascii_dec c b) as [->|].
Qed.

Lemma prefix_true_inv (p k : string) :
  String.prefix p k = true → ∃ t, k = p +:+ t.
Proof.
  revert k. induction p as [|a p IH]; intros k Hp; [by exists k|].
  destruct k as [|b k]; [done|]. rewrite prefix_cons in Hp.
  destruct (ascii_dec a b) as [->|]; [|done].
  destruct (IH k Hp) as [t ->]. by exists t.
Qed.

Lemma string_drop_append (a b : string) :
  string_drop (String.length a) (a +:+ b) = b.
Proof. induction a as [|c a IH]; [done|]. exact IH. Qed.

Lemma block_name_assoc (i : Z) (r : string) :
  "res_block_" +:+ str i +:+ String "." r
  = (("res_block_" +:+ str i) +:+ ".") +:+ r.
Proof. by rewrite !append_assoc. Qed.

Lemma block_name_suffix (i : Z) (r : string) :
  string_drop (String.length ("res_block_" +:+ str i) + 1)
    ("res_block_" +:+ str i +:+ String "." r) = r.
Proof.
  rewrite block_name_assoc.
  assert (String.length ("res_block_" +:+ str i) + 1
          = String.length (("res_block_" +:+ str i) +:+ "."))%nat as ->
    by (rewrite !string_length_append; simpl; lia).
  apply string_drop_append.
Qed.

Lemma block_name_startswith (i j : Z) (r : string) :
  (0 ≤ i)%Z → (0 ≤ j)%Z →
  startswith ("res_block_" +:+ str i +:+ String "." r)
    (("res_block_" +:+ str j) +:+ ".") = true ↔ i = j.
Proof.
  intros Hi Hj. split.
  - intros [t Ht]%prefix_true_inv. rewrite !append_assoc in Ht.
    apply append_inj_l in Ht.
    change ("." +:+ t) with (String "." t) in Ht.
    by apply str_dot_inj in Ht as [-> _].
  - intros <-. rewrite block_name_assoc. apply prefix_append.
Qed.

Lemma conv_rule_value name shape v :
  conv_rule name shape = inr (Some v) →
  startswith name "conv_block." = true ∧ v ∈ conv_block_table.*2.
Proof.
  unfold conv_rule, ret. intros Hrule.
  destruct (startswith name "conv_block."); [|done]. split; [done|].
  repeat case_match; simplify_eq;
    apply (bool_decide_unpack _); by vm_compute.
Qed.

Lemma value_rule_value name shape v :
  value_rule name shape = inr (Some v) →
  startswith name "value_head." = true ∧ v ∈ (value_head_table 10).*2.
Proof.
  unfold value_rule, ret, bind. intros Hrule.
  destruct (startswith name "value_head."); [|done]. split; [done|].
  repeat case_match; simplify_eq;
    apply (bool_decide_unpack _); by vm_compute.
Qed.

Lemma policy_rule_value name shape v :
  policy_rule name shape = inr (Some v) →
  startswith name "policy_head." = true ∧ v ∈ (policy_head_table 10).*2.
Proof.
  unfold policy_rule, ret. intros Hrule.
  destruct (startswith name "policy_head."); [|done]. split; [done|].
  repeat case_match; simplify_eq;
    apply (bool_decide_unpack _); by vm_compute.
Qed.

Lemma block_rule_value i name shape v :
  block_rule i name shape = inr (Some v) →
  ∃ r, r ∈ block_src_suffixes ∧ v = ("residualBlocks." +:+ str i) +:+ r.
Proof.
  unfold block_rule, ret, bind. intros Hrule.
  repeat case_match; simplify_eq; eexists; (split; [|reflexivity]);
    apply (bool_decide_unpack _); by vm_compute.
Qed.

Lemma rule_skips (prefix name : string) c :
  first_char prefix = Some c → first_char name ≠ Some c →
  startswith name prefix = false.
Proof.
  intros Hp Hn. destruct (startswith name prefix) eqn:Hstart; [|done].
  destruct Hn. by apply (prefix_first_char prefix).
Qed.

Lemma block_name_first_char (i : Z) (r : string) :
  first_char ("res_block_" +:+ str i +:+ String "." r) = Some "r"%char.
Proof. reflexivity. Qed.

(** What the heuristic mapping holds for a name of a residual block: the
    choice of the rule of its block, and nothing else. *)
Lemma create_mapping_get_block tch_vars (n i : Z) m r shape :
  NoDup tch_vars.*1 → (0 ≤ i < n)%Z →
  ("res_block_" +:+ str i +:+ String "." r, shape) ∈ tch_vars →
  create_mapping tch_vars n = inr m →
  ∃ choice,
    block_rule i ("res_block_" +:+ str i +:+ String "." r) shape = inr choice
    ∧ od_get m ("res_block_" +:+ str i +:+ String "." r) = choice.
Proof.
  intros Hnd Hi Hitem Hrun. unfold create_mapping in Hrun.
  set (name := "res_block_" +:+ str i +:+ String "." r) in *.
  apply bind_inr_inv in Hrun as (m1 & H1 & Hrun).
  apply bind_inr_inv in Hrun as (m2 & H2 & Hrun).
  apply bind_inr_inv in Hrun as (m3 & H3 & H4).
  destruct (for_items_get_item _ _ _ _ _ _ Hnd Hitem H1) as (c1 & Hc1 & Hg1).
  destruct (for_blocks_get_block (range n) tch_vars m1 m2 i name shape)
    as (choice & Hchoice & Hg2); [done|apply NoDup_range|by apply elem_of_range
                                 |done| | |done|].
  { by apply block_name_startswith; [lia..|]. }
  { intros j Hj%elem_of_range Hne.
    destruct (startswith name _) eqn:Hstart; [|done].
    apply block_name_startswith in Hstart; [|lia..]. by subst j. }
  destruct (for_items_get_item _ _ _ _ _ _ Hnd Hitem H3) as (c3 & Hc3 & Hg3).
  destruct (for_items_get_item _ _ _ _ _ _ Hnd Hitem H4) as (c4 & Hc4 & Hg4).
  unfold conv_rule in Hc1. unfold value_rule in Hc3. unfold policy_rule in Hc4.
  rewrite (rule_skips _ name "c") in Hc1 by done.
  rewrite (rule_skips _ name "v") in Hc3 by done.
  rewrite (rule_skips _ name "p") in Hc4 by done.
  injection Hc1 as <-. injection Hc3 as <-. injection Hc4 as <-.
  exists choice. split; [done|].
  rewrite Hg4, Hg3, Hg2, Hg1. by destruct choice.
Qed.

(** What the heuristic mapping holds for a name of the value head. *)
Lemma create_mapping_get_value tch_vars (n : Z) m name shape :
  NoDup tch_vars.*1 → startswith name "value_head." = true →
  (name, shape) ∈ tch_vars →
  create_mapping tch_vars n = inr m →
  ∃ choice, value_rule name shape = inr choice ∧ od_get m name = choice.
Proof.
  intros Hnd Hstart Hitem Hrun. unfold create_mapping in Hrun.
  assert (first_char name = Some "v"%char) as Hv
    by (by apply (prefix_first_char "value_head.")).
  apply bind_inr_inv in Hrun as (m1 & H1 & Hrun).
  apply bind_inr_inv in Hrun as (m2 & H2 & Hrun).
  apply bind_inr_inv in Hrun as (m3 & H3 & H4).
  destruct (for_items_get_item _ _ _ _ _ _ Hnd Hitem H1) as (c1 & Hc1 & Hg1).
  assert (od_get m2 name = od_get m1 name) as Hg2.
  { eapply for_blocks_get_other; [|exact H2]. intros j _.
    apply (rule_skips _ name "r"); [done|congruence]. }
  destruct (for_items_get_item _ _ _ _ _ _ Hnd Hitem H3) as (choice & Hc3 & Hg3).
  destruct (for_items_get_item _ _ _ _ _ _ Hnd Hitem H4) as (c4 & Hc4 & Hg4).
  unfold conv_rule in Hc1. unfold policy_rule in Hc4.
  rewrite (rule_skips _ name "c") in Hc1 by (done || congruence).
  rewrite (rule_skips _ name "p") in Hc4 by (done || congruence).
  injection Hc1 as <-. injection Hc4 as <-.
  exists choice. split; [done|].
  rewrite Hg4, Hg3, Hg2, Hg1. by destruct choice.
Qed.

(** X16: the heuristic mapping never invents a name: every name it maps is
    a name of the dump it was given, and every source name it maps to is a
    source name that the conversion reads for [num_blocks] blocks. *)
Theorem create_mapping_names tch_vars (num_blocks : Z) m k v :
  create_mapping tch_vars num_blocks = inr m → (k, v) ∈ m →
  k ∈ tch_vars.*1 ∧ v ∈ (name_mapping num_blocks).*2.
Proof.
  intros Hrun Hin. unfold create_mapping in Hrun.
  apply bind_inr_inv in Hrun as (m1 & H1 & Hrun).
  apply bind_inr_inv in Hrun as (m2 & H2 & Hrun).
  apply bind_inr_inv in Hrun as (m3 & H3 & H4).
  assert (∀ shape, (k, shape) ∈ tch_vars → k ∈ tch_vars.*1) as Hkey.
  { intros shape Hitem. apply list_elem_of_fmap. by exists (k, shape). }
  assert (∀ table, table ∈ [conv_block_table; value_head_table num_blocks;
                             policy_head_table num_blocks] →
                   v ∈ table.*2 → v ∈ (name_mapping num_blocks).*2)
    as Hgroup.
  { intros table Htable Hv. unfold name_mapping. rewrite !fmap_app.
    rewrite !elem_of_cons, elem_of_nil in Htable.
    destruct Htable as [->|[->|[->|[]]]]; rewrite !elem_of_app; auto. }
  destruct (for_items_elem _ _ _ _ _ _ H4 Hin) as [Hin3|(shape & Hitem & Hr)].
  2: { split; [by eapply Hkey|]. apply policy_rule_value in Hr as [_ Hv].
       apply (Hgroup (policy_head_table num_blocks)).
       - rewrite !elem_of_cons. auto.
       - by rewrite policy_head_table_src in Hv |- *. }
  destruct (for_items_elem _ _ _ _ _ _ H3 Hin3) as [Hin2|(shape & Hitem & Hr)].
  2: { split; [by eapply Hkey|]. apply value_rule_value in Hr as [_ Hv].
       apply (Hgroup (value_head_table num_blocks)).
       - rewrite !elem_of_cons. auto.
       - by rewrite value_head_table_src in Hv |- *. }
  destruct (for_blocks_elem _ _ _ _ _ _ H2 Hin2)
    as [Hin1|(i & shape & Hi%elem_of_range & Hitem & Hr)].
  2: { split; [by eapply Hkey|].
       apply block_rule_value in Hr as (r & Hr & ->).
       assert (("residualBlocks." +:+ str i) +:+ r ∈ (res_block_table i).*2)
         as ([d s] & Hs & Hrow)%list_elem_of_fmap.
       { rewrite res_block_table_src. apply list_elem_of_fmap.
         exists r. split; [by rewrite append_assoc|done]. }
       simpl in Hs. rewrite Hs. apply list_elem_of_fmap. exists (d, s).
       split; [done|]. by apply (res_block_table_in_mapping num_blocks i). }
  destruct (for_items_elem _ _ _ _ _ _ H1 Hin1) as [Hin0|(shape & Hitem & Hr)].
  { by apply elem_of_nil in Hin0. }
  split; [by eapply Hkey|]. apply conv_rule_value in Hr as [_ Hv].
  apply (Hgroup conv_block_table); [|done]. rewrite !elem_of_cons. auto.
Qed.

Lemma block0_dump_mapping :
  create_mapping block0_dump 1 = inr
    [ ("res_block_0.bias", "residualBlocks.0.conv1.bias");
      ("res_block_0.bias__12", "residualBlocks.0.bn1.bias");
      ("res_block_0.bias__15", "residualBlocks.0.conv2.bias");
      ("res_block_0.bias__9", "residualBlocks.0.bn2.bias");
      ("res_block_0.weight", "residualBlocks.0.conv1.weight");
      ("res_block_0.weight__13", "residualBlocks.0.conv1.weight");
      ("res_block_0.weight__14", "residualBlocks.0.bn1.weight");
      ("res_block_0.weight__8", "residualBlocks.0.bn2.weight") ].
Proof. vm_compute. reflexivity. Qed.

Lemma block0_dump_NoDup : NoDup block0_dump.*1.
Proof. apply (bool_decide_unpack _). by vm_compute. Qed.

Lemma create_mapping_names_witness :
  ∃ m, create_mapping block0_dump 1 = inr m
       ∧ ("res_block_0.weight__13", "residualBlocks.0.conv1.weight") ∈ m
       ∧ "res_block_0.weight__13" ∈ block0_dump.*1
       ∧ "residualBlocks.0.conv1.weight" ∈ (name_mapping 1).*2.
Proof.
  eexists. split; [exact block0_dump_mapping|].
  assert (("res_block_0.weight__13", "residualBlocks.0.conv1.weight")
          ∈ [ ("res_block_0.bias", "residualBlocks.0.conv1.bias");
              ("res_block_0.bias__12", "residualBlocks.0.bn1.bias");
              ("res_block_0.bias__15", "residualBlocks.0.conv2.bias");
              ("res_block_0.bias__9", "residualBlocks.0.bn2.bias");
              ("res_block_0.weight", "residualBlocks.0.conv1.weight");
              ("res_block_0.weight__13", "residualBlocks.0.conv1.weight");
              ("res_block_0.weight__14", "residualBlocks.0.bn1.weight");
              ("res_block_0.weight__8", "residualBlocks.0.bn2.weight") ])
    as Hin by (apply (bool_decide_unpack _); by vm_compute).
  split; [exact Hin|].
  exact (create_mapping_names block0_dump 1 _ _ _ block0_dump_mapping Hin).
Defined.

Lemma split_weight_head rest :
  split_str ("weight__" +:+ rest) "__" !! 0%nat = Some "weight".
Proof. by destruct rest. Qed.

Lemma block_rule_conv_weight (i : Z) rest shape :
  contains "3, 3]" shape = true →
  block_rule i ("res_block_" +:+ str i +:+ ".weight__" +:+ rest) shape
  = inr (Some ("residualBlocks." +:+ str i +:+ ".conv1.weight")).
Proof.
  intros Hshape. unfold block_rule. rewrite Hshape.
  change ("res_block_" +:+ str i +:+ ".weight__" +:+ rest)
    with ("res_block_" +:+ str i +:+ String "." ("weight__" +:+ rest)).
  rewrite block_name_suffix. rewrite decide_True.
  - unfold ret. by rewrite append_assoc.
  - right. split; [|apply split_weight_head].
    apply (prefix_append "weight" ("__" +:+ rest)).
Qed.

(** X17: the heuristic mapping sends every [weight__...] name of a residual
    block whose shape is that of a 3x3 convolution to [conv1.weight]: the
    branch for [conv2.weight] is never taken for such a name, although the
    conversion stores [conv2.weight] under [weight__13] (block 0) and
    [weight__(base+5)]. *)
Theorem create_mapping_conv_weight tch_vars (num_blocks i : Z)
    (rest shape : string) m :
  NoDup tch_vars.*1 → (0 ≤ i < num_blocks)%Z →
  ("res_block_" +:+ str i +:+ ".weight__" +:+ rest, shape) ∈ tch_vars →
  contains "3, 3]" shape = true →
  create_mapping tch_vars num_blocks = inr m →
  od_get m ("res_block_" +:+ str i +:+ ".weight__" +:+ rest)
  = Some ("residualBlocks." +:+ str i +:+ ".conv1.weight").
Proof.
  intros Hnd Hi Hitem Hshape Hrun.
  destruct (create_mapping_get_block tch_vars num_blocks i m
              ("weight__" +:+ rest) shape Hnd Hi Hitem Hrun)
    as (choice & Hrule & Hget).
  change ("res_block_" +:+ str i +:+ String "." ("weight__" +:+ rest))
    with ("res_block_" +:+ str i +:+ ".weight__" +:+ rest) in Hrule, Hget.
  rewrite block_rule_conv_weight in Hrule by done.
  injection Hrule as <-. exact Hget.
Qed.

Lemma create_mapping_conv_weight_witness :
  ∃ m, create_mapping block0_dump 1 = inr m
       ∧ ("res_block_0.weight__13", "[128, 128, 3, 3]") ∈ block0_dump
       ∧ od_get m "res_block_0.weight__13"
         = Some "residualBlocks.0.conv1.weight"
       ∧ ("res_block_0.weight__13", "residualBlocks.0.conv2.weight")
         ∈ name_mapping 1.
Proof.
  eexists. split; [exact block0_dump_mapping|].
  assert (("res_block_0.weight__13", "[128, 128, 3, 3]") ∈ block0_dump)
    as Hitem by (apply (bool_decide_unpack _); by vm_compute).
  split_and!; [exact Hitem| |apply (bool_decide_unpack _); by vm_compute].
  exact (create_mapping_conv_weight block0_dump 1 0 "13" "[128, 128, 3, 3]" _
           block0_dump_NoDup ltac:(lia) Hitem eq_refl block0_dump_mapping).
Defined.

Lemma block_rule_running_stats (i : Z) rest shape :
  shape = "[128]" ∨ shape = "[256]" →
  block_rule i ("res_block_" +:+ str i +:+ ".running_" +:+ rest) shape
  = inr None.
Proof.
  intros Hshape. unfold block_rule.
  assert (contains "3, 3]" shape = false) as ->
    by (by destruct Hshape as [->| ->]).
  rewrite (decide_True (P := shape = "[128]" ∨ shape = "[256]")) by done.
  change ("res_block_" +:+ str i +:+ ".running_" +:+ rest)
    with ("res_block_" +:+ str i +:+ String "." ("running_" +:+ rest)).
  rewrite block_name_suffix. rewrite decide_False; [done|].
  rewrite append_assoc. intros Heq. do 2 apply append_inj_l in Heq. done.
Qed.

(** X18: the heuristic mapping leaves the running statistics of the
    residual blocks unmapped whenever their shape is ['[128]'] or
    ['[256]'], the shapes they have in the two supported models: the branch
    for one-dimensional tensors is tested before the branches for
    [running_mean] and [running_var] and assigns nothing to such a name. *)
Theorem create_mapping_running_stats_unmapped tch_vars (num_blocks i : Z)
    (rest shape : string) m :
  NoDup tch_vars.*1 → (0 ≤ i < num_blocks)%Z →
  ("res_block_" +:+ str i +:+ ".running_" +:+ rest, shape) ∈ tch_vars →
  shape = "[128]" ∨ shape = "[256]" →
  create_mapping tch_vars num_blocks = inr m →
  od_get m ("res_block_" +:+ str i +:+ ".running_" +:+ rest) = None.
Proof.
  intros Hnd Hi Hitem Hshape Hrun.
  destruct (create_mapping_get_block tch_vars num_blocks i m
              ("running_" +:+ rest) shape Hnd Hi Hitem Hrun)
    as (choice & Hrule & Hget).
  change ("res_block_" +:+ str i +:+ String "." ("running_" +:+ rest))
    with ("res_block_" +:+ str i +:+ ".running_" +:+ rest) in Hrule, Hget.
  rewrite block_rule_running_stats in Hrule by done.
  injection Hrule as <-. exact Hget.
Qed.

Lemma create_mapping_running_stats_unmapped_witness :
  ∃ m, create_mapping block0_dump 1 = inr m
       ∧ ("res_block_0.running_mean__16", "[128]") ∈ block0_dump
       ∧ od_get m "res_block_0.running_mean__16" = None
       ∧ ("res_block_0.running_mean__16", "residualBlocks.0.bn2.running_mean")
         ∈ name_mapping 1.
Proof.
  eexists. split; [exact block0_dump_mapping|].
  assert (("res_block_0.running_mean__16", "[128]") ∈ block0_dump)
    as Hitem by (apply (bool_decide_unpack _); by vm_compute).
  split_and!; [exact Hitem| |apply (bool_decide_unpack _); by vm_compute].
  exact (create_mapping_running_stats_unmapped block0_dump 1 0 "mean__16"
           "[128]" _ block0_dump_NoDup ltac:(lia) Hitem ltac:(by left)
           block0_dump_mapping).
Defined.

Lemma value_rule_bias_unmapped name :
  startswith name "value_head." = true →
  contains "bias__" name = true → contains "weight__" name = false →
  value_rule name "[1]" = inr None.
Proof.
  intros Hstart Hbias Hweight. unfold value_rule.
  rewrite Hstart, Hweight.
  rewrite (decide_False (P := "[1]" = "[1, 128, 1, 1]" ∨ _)) by (by intros [|]).
  rewrite (decide_False (P := name = "value_head.bias" ∧ _)).
  2: { intros [-> _]. by vm_compute in Hbias. }
  rewrite (decide_False (P := contains "bias__" name = true ∧ _))
    by (by intros [_ ?]).
  rewrite (decide_False (P := name = "value_head.running_mean")).
  2: { intros ->. by vm_compute in Hbias. }
  rewrite (decide_False (P := name = "value_head.running_var")); [done|].
  intros ->. by vm_compute in Hbias.
Qed.

(** X19: the heuristic mapping leaves every [bias__...] name of the value
    head with shape ['[1]'] unmapped, the shape that the normalisation bias
    and the last bias of the value head have: the test [shape != '[1]']
    keeps such a name out of the branch that looks at its number, so the
    cases 129/249 and 134/254 of that branch do not apply to it. *)
Theorem create_mapping_value_bias_unmapped tch_vars (num_blocks : Z)
    (name : string) m :
  NoDup tch_vars.*1 →
  startswith name "value_head." = true →
  contains "bias__" name = true → contains "weight__" name = false →
  (name, "[1]") ∈ tch_vars →
  create_mapping tch_vars num_blocks = inr m →
  od_get m name = None.
Proof.
  intros Hnd Hstart Hbias Hweight Hitem Hrun.
  destruct (create_mapping_get_value tch_vars num_blocks m name "[1]"
              Hnd Hstart Hitem Hrun) as (choice & Hrule & Hget).
  rewrite value_rule_bias_unmapped in Hrule by done.
  injection Hrule as <-. exact Hget.
Qed.

Lemma create_mapping_value_bias_unmapped_witness :
  let dump := [ ("value_head.weight", "[1, 128, 1, 1]");
                ("value_head.bias__129", "[1]");
                ("value_head.bias__132", "[256]") ] in
  ∃ m, create_mapping dump 10 = inr m
       ∧ od_get m "value_head.bias__129" = None
       ∧ od_get m "value_head.bias__132" = Some "valueHead.fc1.bias".
Proof.
  intros dump.
  assert (create_mapping dump 10
          = inr [ ("value_head.weight", "valueHead.conv1.weight");
                  ("value_head.bias__132", "valueHead.fc1.bias") ]) as Hrun
    by (vm_compute; reflexivity).
  eexists. split; [exact Hrun|]. split; [|reflexivity].
  apply (create_mapping_value_bias_unmapped dump 10 "value_head.bias__129" _);
    [apply (bool_decide_unpack _); by vm_compute|reflexivity..| |exact Hrun].
  apply (bool_decide_unpack _). by vm_compute.
Defined.

Lemma int_raises s e : int s = inl e → ∃ msg, e = ValueError msg.
Proof.
  unfold int, ret, raise. intros Hint.
  repeat case_match; simplify_eq; by eexists.
Qed.

Lemma parts_number_raises (parts : list string) e :
  length parts = 2%nat →
  (piece ←' list_getitem parts 1; int piece) = inl e →
  ∃ msg, e = ValueError msg.
Proof.
  intros Hlen. destruct parts as [|p0 [|p1 [|p2 parts]]]; try done.
  unfold list_getitem, bind, ret. simpl. apply int_raises.
Qed.

Lemma conv_rule_total name shape : ∃ choice, conv_rule name shape = inr choice.
Proof. unfold conv_rule, ret. repeat case_match; by eexists. Qed.

Lemma policy_rule_total name shape :
  ∃ choice, policy_rule name shape = inr choice.
Proof. unfold policy_rule, ret. repeat case_match; by eexists. Qed.

Lemma block_rule_raises i name shape e :
  block_rule i name shape = inl e → ∃ msg, e = ValueError msg.
Proof.
  unfold block_rule, ret. intros Hrule.
  repeat match type of Hrule with
         | (if ?b then _ else _) = _ => destruct b; try done
         end;
    match type of Hrule with
    | bind ?r _ = _ =>
        destruct r as [e'|num] eqn:Hnum;
        [injection Hrule as ->; by eapply parts_number_raises|]
    end;
    unfold bind in Hrule;
    repeat match type of Hrule with
           | (if ?b then _ else _) = _ => destruct b; try done
           end.
Qed.

Lemma value_rule_raises name shape e :
  value_rule name shape = inl e → ∃ msg, e = ValueError msg.
Proof.
  unfold value_rule, ret. intros Hrule.
  repeat match type of Hrule with
         | (if ?b then _ else _) = _ => destruct b; try done
         end;
    match type of Hrule with
    | bind ?r _ = _ =>
        destruct r as [e'|num] eqn:Hnum;
        [injection Hrule as ->; by eapply parts_number_raises|]
    end;
    unfold bind in Hrule;
    repeat match type of Hrule with
           | (if ?b then _ else _) = _ => destruct b; try done
           end.
Qed.

Lemma for_items_raises (P : Exception → Prop) rule items m e :
  (∀ name shape e', rule name shape = inl e' → P e') →
  for_items rule items m = inl e → P e.
Proof.
  intros Hrule. revert m.
  induction items as [|[name shape] items IH]; intros m Hrun; [done|].
  rewrite for_items_cons in Hrun.
  destruct (rule name shape) as [e'|choice] eqn:Hr.
  - injection Hrun as <-. by eapply Hrule.
  - by eapply IH.
Qed.

Lemma for_blocks_raises blocks tch_vars m e :
  for_blocks blocks tch_vars m = inl e → ∃ msg, e = ValueError msg.
Proof.
  revert m. induction blocks as [|i blocks IH]; intros m Hrun; [done|].
  rewrite for_blocks_cons in Hrun.
  destruct (for_items (block_rule i) (block_vars i tch_vars) m)
    as [e'|m'] eqn:Hitems.
  - injection Hrun as <-.
    eapply (for_items_raises (λ e, ∃ msg, e = ValueError msg)); [|exact Hitems].
    intros name shape e0. apply block_rule_raises.
  - by eapply IH.
Qed.

(** X20: the heuristic mapping can only fail with the [ValueError] of
    [int]: every [parts[1]] is read under the test [len(parts) == 2], so no
    [IndexError] escapes, and the mapping itself is only written, never
    read, so no [KeyError] does. *)
Theorem create_mapping_raises_only_ValueError tch_vars (num_blocks : Z) e :
  create_mapping tch_vars num_blocks = inl e → ∃ msg, e = ValueError msg.
Proof.
  unfold create_mapping. intros Hrun.
  destruct (for_items conv_rule tch_vars []) as [e1|m1] eqn:H1.
  { exfalso. eapply (for_items_raises (λ _, False)); [|exact H1].
    intros name shape e' He'.
    destruct (conv_rule_total name shape) as [choice Hc]. congruence. }
  simpl in Hrun.
  destruct (for_blocks (range num_blocks) tch_vars m1) as [e2|m2] eqn:H2.
  { injection Hrun as <-. by eapply for_blocks_raises. }
  simpl in Hrun.
  destruct (for_items value_rule tch_vars m2) as [e3|m3] eqn:H3.
  { injection Hrun as <-.
    eapply (for_items_raises (λ e, ∃ msg, e = ValueError msg)); [|exact H3].
    intros name shape e0. apply value_rule_raises. }
  simpl in Hrun. exfalso.
  eapply (for_items_raises (λ _, False)); [|exact Hrun].
  intros name shape e' He'.
  destruct (policy_rule_total name shape) as [choice Hc]. congruence.
Qed.

Lemma create_mapping_raises_only_ValueError_witness :
  ∃ e, create_mapping [("res_block_0.bias__1x", "[128]")] 1 = inl e
       ∧ ∃ msg, e = ValueError msg.
Proof.
  assert (create_mapping [("res_block_0.bias__1x", "[128]")] 1
          = inl (ValueError "invalid literal for int() with base 10: '1x'"))
    as Hrun by (vm_compute; reflexivity).
  eexists. split; [exact Hrun|].
  exact (create_mapping_raises_only_ValueError _ 1 _ Hrun).
Defined.

Lemma digit_not_underscore c : is_Some (digit_value c) → c ≠ "_"%char.
Proof. intros [d Hd] ->. vm_compute in Hd. discriminate. Qed.

Lemma split_str_go_hit fuel sep s :
  String.prefix sep s = true →
  split_str_go (S fuel) sep s
  = "" :: split_str_go fuel sep (string_drop (String.length sep) s).
Proof. intros Hp. cbn [split_str_go]. by rewrite Hp. Qed.

Lemma split_str_go_miss fuel sep c s :
  String.prefix sep (String c s) = false →
  split_str_go (S fuel) sep (String c s)
  = match split_str_go fuel sep s with
    | piece :: pieces => String c piece :: pieces
    | [] => [String c ""]
    end.
Proof. intros Hp. cbn [split_str_go]. by rewrite Hp. Qed.

Lemma split_str_go_digits fuel d :
  all_digits d → split_str_go fuel "__" d = [d].
Proof.
  revert d. induction fuel as [|fuel IH]; intros d Hd; [done|].
  destruct d as [|c d]; [done|]. destruct Hd as [Hc Hd].
  rewrite split_str_go_miss.
  - by rewrite (IH d Hd).
  - rewrite prefix_cons.
    destruct (ascii_dec "_" c) as [<-|_]; [|done].
    by apply digit_not_underscore in Hc.
Qed.

Lemma split_bias_number d :
  all_digits d → split_str ("bias__" +:+ d) "__" = ["bias"; d].
Proof.
  intros Hd. unfold split_str.
  change ("bias__" +:+ d)
    with (String "b" (String "i" (String "a" (String "s"
            (String "_" (String "_" d)))))).
  cbn [String.length].
  do 4 (rewrite split_str_go_miss by reflexivity).
  rewrite split_str_go_hit by (by destruct d).
  cbn [String.length string_drop]. by rewrite split_str_go_digits.
Qed.

Lemma split_weight_number d :
  all_digits d → split_str ("weight__" +:+ d) "__" = ["weight"; d].
Proof.
  intros Hd. unfold split_str.
  change ("weight__" +:+ d)
    with (String "w" (String "e" (String "i" (String "g" (String "h"
            (String "t" (String "_" (String "_" d)))))))).
  cbn [String.length].
  do 6 (rewrite split_str_go_miss by reflexivity).
  rewrite split_str_go_hit by (by destruct d).
  cbn [String.length string_drop]. by rewrite split_str_go_digits.
Qed.

Lemma block_rule_bias_number (i k : Z) shape choice :
  (0 ≤ k)%Z → shape = "[128]" ∨ shape = "[256]" →
  block_rule i ("res_block_" +:+ str i +:+ ".bias__" +:+ str k) shape
  = inr choice →
  (let py := "residualBlocks." +:+ str i in
    if decide (i = 0) then
      if decide (k = 9) then ret (Some (py +:+ ".bn2.bias"))
      else if decide (k = 12) then ret (Some (py +:+ ".bn1.bias"))
      else if decide (k = 15) then ret (Some (py +:+ ".conv2.bias"))
      else ret None
    else
      let block_base := 20 + (i - 1) * 12 in
      if decide (k = block_base + 1) then ret (Some (py +:+ ".conv1.bias"))
      else if decide (k = block_base + 3) then ret (Some (py +:+ ".bn2.bias"))
      else if decide (k = block_base + 4) then ret (Some (py +:+ ".bn1.bias"))
      else if decide (k = block_base + 7) then
        ret (Some (py +:+ ".conv2.bias"))
      else ret None) = inr choice.
Proof.
  intros Hk Hshape. unfold block_rule.
  assert (contains "3, 3]" shape = false) as ->
    by (by destruct Hshape as [->| ->]).
  rewrite (decide_True (P := shape = "[128]" ∨ shape = "[256]")) by done.
  change ("res_block_" +:+ str i +:+ ".bias__" +:+ str k)
    with ("res_block_" +:+ str i +:+ String "." ("bias__" +:+ str k)).
  rewrite block_name_suffix. rewrite decide_False.
  2: { rewrite append_assoc. intros Heq. do 2 apply append_inj_l in Heq.
       done. }
  unfold startswith. rewrite (prefix_append "bias__" (str k)).
  rewrite split_bias_number by (apply str_digits; lia).
  rewrite decide_True by done.
  unfold list_getitem. cbn [lookup list_lookup]. unfold ret at 1.
  cbn [bind].
  destruct (int_str_cases k Hk) as [->|[msg ->]]; [|done]. by cbn [bind].
Qed.

Lemma block_rule_weight_number (i k : Z) shape choice :
  (0 ≤ k)%Z → shape = "[128]" ∨ shape = "[256]" →
  block_rule i ("res_block_" +:+ str i +:+ ".weight__" +:+ str k) shape
  = inr choice →
  (let py := "residualBlocks." +:+ str i in
    if decide (i = 0) then
      if decide (k = 8) then ret (Some (py +:+ ".bn2.weight"))
      else if decide (k = 14) then ret (Some (py +:+ ".bn1.weight"))
      else ret None
    else
      let block_base := 20 + (i - 1) * 12 in
      if decide (k = block_base + 2) then ret (Some (py +:+ ".bn2.weight"))
      else if decide (k = block_base + 5) then
        ret (Some (py +:+ ".bn1.weight"))
      else ret None) = inr choice.
Proof.
  intros Hk Hshape. unfold block_rule.
  assert (contains "3, 3]" shape = false) as ->
    by (by destruct Hshape as [->| ->]).
  rewrite (decide_True (P := shape = "[128]" ∨ shape = "[256]")) by done.
  change ("res_block_" +:+ str i +:+ ".weight__" +:+ str k)
    with ("res_block_" +:+ str i +:+ String "." ("weight__" +:+ str k)).
  rewrite block_name_suffix. rewrite decide_False.
  2: { rewrite append_assoc. intros Heq. do 2 apply append_inj_l in Heq.
       done. }
  unfold startswith.
  assert (String.prefix "bias__" ("weight__" +:+ str k) = false) as ->
    by reflexivity.
  rewrite (prefix_append "weight__" (str k)).
  rewrite split_weight_number by (apply str_digits; lia).
  rewrite decide_True by done.
  unfold list_getitem. cbn [lookup list_lookup]. unfold ret at 1.
  cbn [bind].
  destruct (int_str_cases k Hk) as [->|[msg ->]]; [|done]. by cbn [bind].
Qed.

Lemma res_block_table_numbered (i k : Z) role src :
  (k, (role, src)) ∈ zip (block_suffixes i) suffixed_roles →
  ("res_block_" +:+ str i +:+ role +:+ str k,
   "residualBlocks." +:+ str i +:+ src) ∈ res_block_table i.
Proof.
  intros Hin. unfold res_block_table. apply elem_of_app. right.
  rewrite zip_with_zip. apply list_elem_of_fmap.
  by exists (k, (role, src)).
Qed.

(** X23: on a later block the heuristic mapping departs from the
    conversion.  The name [res_block_i.bias__(base+1)], under which the
    conversion stores [bn2.bias], is sent to [conv1.bias] when its shape is
    one-dimensional. *)
Theorem create_mapping_later_block_bias tch_vars (num_blocks i : Z) shape m :
  NoDup tch_vars.*1 → (1 ≤ i < num_blocks)%Z →
  shape = "[128]" ∨ shape = "[256]" →
  ("res_block_" +:+ str i +:+ ".bias__" +:+ str (20 + (i - 1) * 12 + 1), shape)
    ∈ tch_vars →
  create_mapping tch_vars num_blocks = inr m →
  od_get m ("res_block_" +:+ str i +:+ ".bias__"
            +:+ str (20 + (i - 1) * 12 + 1))
  = Some ("residualBlocks." +:+ str i +:+ ".conv1.bias")
  ∧ ("res_block_" +:+ str i +:+ ".bias__" +:+ str (20 + (i - 1) * 12 + 1),
     "residualBlocks." +:+ str i +:+ ".bn2.bias") ∈ name_mapping num_blocks.
Proof.
  intros Hnd Hi Hshape Hitem Hrun. split.
  - destruct (create_mapping_get_block tch_vars num_blocks i m
                ("bias__" +:+ str (20 + (i - 1) * 12 + 1)) shape Hnd
                ltac:(lia) Hitem Hrun) as (choice & Hrule & Hget).
    change ("res_block_" +:+ str i
            +:+ String "." ("bias__" +:+ str (20 + (i - 1) * 12 + 1)))
      with ("res_block_" +:+ str i +:+ ".bias__"
            +:+ str (20 + (i - 1) * 12 + 1)) in Hrule, Hget.
    apply block_rule_bias_number in Hrule; [|lia|done].
    cbv zeta in Hrule. rewrite decide_False in Hrule by lia.
    rewrite decide_True in Hrule by done.
    injection Hrule as <-. by rewrite append_assoc in Hget.
  - apply (res_block_table_in_mapping num_blocks i); [lia|].
    apply res_block_table_numbered. unfold block_suffixes.
    rewrite decide_False by lia. apply list_elem_of_further, list_elem_of_here.
Qed.

Lemma create_mapping_later_block_bias_witness :
  let dump := [("res_block_1.bias", "[128]");
               ("res_block_1.bias__21", "[128]")] in
  ∃ m, create_mapping dump 2 = inr m
       ∧ od_get m "res_block_1.bias__21" = Some "residualBlocks.1.conv1.bias"
       ∧ ("res_block_1.bias__21", "residualBlocks.1.bn2.bias") ∈ name_mapping 2.
Proof.
  intros dump.
  assert (create_mapping dump 2
          = inr [("res_block_1.bias", "residualBlocks.1.conv1.bias");
                 ("res_block_1.bias__21", "residualBlocks.1.conv1.bias")])
    as Hrun by (vm_compute; reflexivity).
  eexists. split; [exact Hrun|].
  apply (create_mapping_later_block_bias dump 2 1 "[128]" _);
    [apply (bool_decide_unpack _); by vm_compute|lia|by left| |exact Hrun].
  apply (bool_decide_unpack _). by vm_compute.
Defined.

(** X24: where the heuristic mapping and the conversion agree on the
    numbered one-dimensional names of a residual block: on block 0 for
    [bias__9], [bias__12], [bias__15], [weight__8] and [weight__14], on a
    later block for [bias__(base+4)] and [bias__(base+7)].  Each of these
    names is sent to the source name whose tensor the conversion stores
    under it. *)
Theorem create_mapping_agrees_on_numbered tch_vars (num_blocks i k : Z)
    (role src shape : string) m :
  NoDup tch_vars.*1 → (0 ≤ i < num_blocks)%Z →
  shape = "[128]" ∨ shape = "[256]" →
  (role, k, src) ∈
    (if decide (i = 0) then
       [ (".bias__", 9, ".bn2.bias"); (".bias__", 12, ".bn1.bias");
         (".bias__", 15, ".conv2.bias"); (".weight__", 8, ".bn2.weight");
         (".weight__", 14, ".bn1.weight") ]
     else
       [ (".bias__", 20 + (i - 1) * 12 + 4, ".bn1.bias");
         (".bias__", 20 + (i - 1) * 12 + 7, ".conv2.bias") ]) →
  ("res_block_" +:+ str i +:+ role +:+ str k, shape) ∈ tch_vars →
  create_mapping tch_vars num_blocks = inr m →
  od_get m ("res_block_" +:+ str i +:+ role +:+ str k)
  = Some ("residualBlocks." +:+ str i +:+ src)
  ∧ ("res_block_" +:+ str i +:+ role +:+ str k,
     "residualBlocks." +:+ str i +:+ src) ∈ name_mapping num_blocks.
Proof.
  intros Hnd Hi Hshape Hrow Hitem Hrun.
  assert (∃ r, role = String "." r
               ∧ (r = "bias__" ∨ r = "weight__")) as (r & -> & Hr).
  { destruct (decide (i = 0));
      repeat (apply elem_of_cons in Hrow as [[= -> -> ->]|Hrow]);
      try (by apply elem_of_nil in Hrow); eexists; (split; [done|]); auto. }
  destruct (create_mapping_get_block tch_vars num_blocks i m
              (r +:+ str k) shape Hnd Hi Hitem Hrun)
    as (choice & Hrule & Hget).
  split.
  - revert Hrule Hget. destruct (decide (i = 0)) as [->|Hi0];
      repeat (apply elem_of_cons in Hrow as [[= ? ? ?]|Hrow]);
      try (by apply elem_of_nil in Hrow); subst; intros Hrule Hget;
      match type of Hrule with
      | block_rule ?j (_ +:+ _ +:+ String "." (_ +:+ str ?n)) _ = _ =>
          assert (0 ≤ n)%Z as Hn by lia;
          first
            [ pose proof (block_rule_bias_number j n shape _ Hn Hshape Hrule)
                as Hchoice
            | pose proof (block_rule_weight_number j n shape _ Hn Hshape Hrule)
                as Hchoice ]
      end;
      cbv zeta in Hchoice;
      repeat first [ rewrite decide_True in Hchoice by lia
                   | rewrite decide_False in Hchoice by lia ];
      injection Hchoice as <-; rewrite append_assoc in Hget; exact Hget.
  - apply (res_block_table_in_mapping num_blocks i); [lia|].
    apply res_block_table_numbered. unfold block_suffixes.
    destruct (decide (i = 0)) as [->|Hi0];
      repeat (apply elem_of_cons in Hrow as [[= ? ? ?]|Hrow]);
      try (by apply elem_of_nil in Hrow); subst; cbn [zip zip_with];
      repeat first [apply list_elem_of_here | apply list_elem_of_further].
Qed.

Lemma create_mapping_agrees_on_numbered_witness :
  ∃ m, create_mapping block0_dump 1 = inr m
       ∧ od_get m "res_block_0.bias__12" = Some "residualBlocks.0.bn1.bias"
       ∧ ("res_block_0.bias__12", "residualBlocks.0.bn1.bias") ∈ name_mapping 1.
Proof.
  eexists. split; [exact block0_dump_mapping|].
  apply (create_mapping_agrees_on_numbered block0_dump 1 0 12
           ".bias__" ".bn1.bias" "[128]" _);
    [exact block0_dump_NoDup|lia|by left| | |exact block0_dump_mapping].
  - apply list_elem_of_further, list_elem_of_here.
  - apply (bool_decide_unpack _). by vm_compute.
Defined.

(** X25: on a later block the heuristic mapping leaves the weights of both
    normalisation layers unmapped: the conversion stores them under
    [weight__base] and [weight__(base+6)], and the heuristic only knows the
    numbers [base+2] and [base+5]. *)
Theorem create_mapping_later_block_bn_weights tch_vars (num_blocks i k : Z)
    (src shape : string) m :
  NoDup tch_vars.*1 → (1 ≤ i < num_blocks)%Z →
  shape = "[128]" ∨ shape = "[256]" →
  (k, src) ∈ [ (20 + (i - 1) * 12, ".bn2.weight");
               (20 + (i - 1) * 12 + 6, ".bn1.weight") ] →
  ("res_block_" +:+ str i +:+ ".weight__" +:+ str k, shape) ∈ tch_vars →
  create_mapping tch_vars num_blocks = inr m →
  od_get m ("res_block_" +:+ str i +:+ ".weight__" +:+ str k) = None
  ∧ ("res_block_" +:+ str i +:+ ".weight__" +:+ str k,
     "residualBlocks." +:+ str i +:+ src) ∈ name_mapping num_blocks.
Proof.
  intros Hnd Hi Hshape Hrow Hitem Hrun.
  destruct (create_mapping_get_block tch_vars num_blocks i m
              ("weight__" +:+ str k) shape Hnd ltac:(lia) Hitem Hrun)
    as (choice & Hrule & Hget).
  change ("res_block_" +:+ str i +:+ String "." ("weight__" +:+ str k))
    with ("res_block_" +:+ str i +:+ ".weight__" +:+ str k) in Hrule, Hget.
  split.
  - repeat (apply elem_of_cons in Hrow as [[= ? ?]|Hrow]);
      try (by apply elem_of_nil in Hrow); subst;
      (apply block_rule_weight_number in Hrule; [|lia|done]);
      cbv zeta in Hrule;
      repeat first [ rewrite decide_True in Hrule by lia
                   | rewrite decide_False in Hrule by lia ];
      by injection Hrule as <-.
  - apply (res_block_table_in_mapping num_blocks i); [lia|].
    apply res_block_table_numbered. unfold block_suffixes.
    rewrite decide_False by lia.
    repeat (apply elem_of_cons in Hrow as [[= ? ?]|Hrow]);
      try (by apply elem_of_nil in Hrow); subst; cbn [zip zip_with];
      repeat first [apply list_elem_of_here | apply list_elem_of_further].
Qed.

Lemma create_mapping_later_block_bn_weights_witness :
  let dump := [("res_block_1.weight__20", "[128]");
               ("res_block_1.weight__26", "[128]")] in
  ∃ m, create_mapping dump 2 = inr m
       ∧ od_get m "res_block_1.weight__26" = None
       ∧ ("res_block_1.weight__26", "residualBlocks.1.bn1.weight")
         ∈ name_mapping 2.
Proof.
  intros dump.
  assert (create_mapping dump 2 = inr []) as Hrun by (vm_compute; reflexivity).
  eexists. split; [exact Hrun|].
  apply (create_mapping_later_block_bn_weights dump 2 1 26
           ".bn1.weight" "[128]" _);
    [apply (bool_decide_unpack _); by vm_compute|lia|by left| |
    |exact Hrun].
  - apply list_elem_of_further, list_elem_of_here.
  - apply (bool_decide_unpack _). by vm_compute.
Defined.

(** * The grouping of [create_model_trace.py] *)

Lemma split_head sep s : ∃ base, split sep s !! 0%nat = Some base.
Proof.
  destruct s as [|c s]; simpl; [by eexists|].
  destruct (decide (c = sep)); [by eexists|].
  destruct (split sep s); by eexists.
Qed.

Lemma append_to_component_keys base name c :
  (append_to_component base name c).*1
  = if decide (base ∈ c.*1) then c.*1 else c.*1 ++ [base].
Proof.
  induction c as [|[b ns] c IH]; [done|].
  cbn [append_to_component].
  destruct (decide (b = base)) as [->|Hne]; rewrite !fmap_cons; cbn [fst].
  - rewrite decide_True; [done|]. apply list_elem_of_here.
  - rewrite IH. destruct (decide (base ∈ c.*1)) as [Hin|Hout].
    + rewrite decide_True; [done|]. by apply list_elem_of_further.
    + rewrite decide_False; [done|].
      rewrite not_elem_of_cons. split; [congruence|done].
Qed.

Lemma append_to_component_NoDup base name c :
  NoDup c.*1 → NoDup (append_to_component base name c).*1.
Proof.
  intros Hnd. rewrite append_to_component_keys.
  destruct (decide (base ∈ c.*1)); [done|].
  apply NoDup_app. split; [done|]. split; [|apply NoDup_singleton].
  intros x Hx Hbase. apply list_elem_of_singleton in Hbase as ->. done.
Qed.

Lemma append_to_component_elem base name c b ns :
  NoDup c.*1 →
  (b, ns) ∈ append_to_component base name c ↔
  (b ≠ base ∧ (b, ns) ∈ c)
  ∨ (b = base ∧ ((∃ ns0, (base, ns0) ∈ c ∧ ns = ns0 ++ [name])
                 ∨ ((base ∉ c.*1) ∧ ns = [name]))).
Proof.
  induction c as [|[b0 ns0] c IH]; intros Hnd.
  - simpl. rewrite list_elem_of_singleton. split.
    + intros [= -> ->]. right. split; [done|]. right.
      split; [apply not_elem_of_nil|done].
    + intros [[_ Hin%elem_of_nil]|[-> [(? & Hin%elem_of_nil & _)|[_ ->]]]];
        done.
  - rewrite fmap_cons in Hnd. apply NoDup_cons in Hnd as [Hfresh Hnd].
    simpl in Hfresh. cbn [append_to_component].
    destruct (decide (b0 = base)) as [->|Hne].
    + rewrite !elem_of_cons. split.
      * intros [[= -> ->]|Hin].
        -- right. split; [done|]. left. exists ns0.
           split; [apply list_elem_of_here|done].
        -- left. split; [|by right]. intros ->. apply Hfresh.
           apply list_elem_of_fmap. by exists (base, ns).
      * intros [[Hb [[= -> ->]|Hin]]|[-> [(ns1 & Hin & ->)|[Hout ->]]]].
        -- done.
        -- by right.
        -- apply elem_of_cons in Hin as [[= ->]|Hin]; [by left|].
           exfalso. apply Hfresh. apply list_elem_of_fmap.
           by exists (base, ns1).
        -- exfalso. apply Hout. rewrite fmap_cons. apply list_elem_of_here.
    + rewrite elem_of_cons, (IH Hnd). rewrite fmap_cons, not_elem_of_cons.
      cbn [fst].
      split.
      * intros [[= -> ->]|[[Hb Hin]|[-> [(ns1 & Hin & ->)|[Hout ->]]]]].
        -- left. split; [done|apply list_elem_of_here].
        -- left. split; [done|by apply list_elem_of_further].
        -- right. split; [done|]. left. exists ns1.
           split; [by apply list_elem_of_further|done].
        -- right. split; [done|]. right. split; [|done].
           split; [congruence|done].
      * intros [[Hb [[= -> ->]|Hin]%elem_of_cons]
               |[-> [(ns1 & [[= ? ?]|Hin]%elem_of_cons & ->)|[[_ Hout] ->]]]].
        -- by left.
        -- right. left. done.
        -- done.
        -- right. right. split; [done|]. left. by exists ns1.
        -- right. right. split; [done|]. by right.
Qed.

Lemma names_of_component_snoc base var_names name :
  names_of_component base (var_names ++ [name])
  = names_of_component base var_names
    ++ (if decide (split "." name !! 0%nat = Some base) then [name] else []).
Proof.
  unfold names_of_component. by rewrite filter_app.
Qed.

Lemma group_names_spec rest seen c :
  NoDup c.*1 →
  (∀ base names, (base, names) ∈ c ↔
     names ≠ [] ∧ names = names_of_component base seen) →
  ∃ c', group_names rest c = inr c'
        ∧ NoDup c'.*1
        ∧ ∀ base names, (base, names) ∈ c' ↔
            names ≠ [] ∧ names = names_of_component base (seen ++ rest).
Proof.
  revert seen c. induction rest as [|name rest IH]; intros seen c Hnd Hinv.
  - exists c. rewrite app_nil_r. done.
  - simpl. destruct (split_head "." name) as [base0 Hbase].
    unfold list_getitem. rewrite Hbase. simpl.
    replace (seen ++ name :: rest) with ((seen ++ [name]) ++ rest)
      by (by rewrite <- app_assoc).
    apply IH; [by apply append_to_component_NoDup|].
    intros base names. rewrite (append_to_component_elem _ _ _ _ _ Hnd).
    rewrite names_of_component_snoc. rewrite Hbase. split.
    + intros [[Hb Hin]|[-> [(ns0 & Hin & ->)|[Hout ->]]]].
      * apply Hinv in Hin as [Hne ->]. split; [done|].
        rewrite decide_False by congruence. by rewrite app_nil_r.
      * apply Hinv in Hin as [Hne ->]. rewrite decide_True by done.
        split; [|done]. by destruct (names_of_component base0 seen).
      * rewrite decide_True by done. split; [done|].
        destruct (names_of_component base0 seen) as [|n ns] eqn:Hns; [done|].
        exfalso. apply Hout. apply list_elem_of_fmap.
        exists (base0, n :: ns). split; [done|]. apply Hinv.
        split; [done|]. by rewrite Hns.
    + intros [Hne ->]. destruct (decide (base = base0)) as [->|Hb].
      * right. split; [done|]. rewrite decide_True by done.
        destruct (names_of_component base0 seen) as [|n ns] eqn:Hns.
        -- right. split; [|done]. intros ([b ns] & -> & Hin)%list_elem_of_fmap.
           simpl in Hns. apply Hinv in Hin as [Hne' Heq]. congruence.
        -- left. exists (n :: ns). split; [|done]. apply Hinv.
           split; [done|]. by rewrite Hns.
      * left. split; [done|]. rewrite decide_False in Hne |- * by congruence.
        rewrite app_nil_r in Hne |- *. by apply Hinv.
Qed.

(** X21: the grouping loop never fails, and it partitions the names by
    their first dotted piece: the keys of [components] are distinct, and a
    pair [(base, names)] is an item exactly when [names] is the non-empty
    list of the names whose first piece is [base], in their original
    order. *)
Theorem components_partition var_names :
  ∃ c, components var_names = inr c
       ∧ NoDup c.*1
       ∧ ∀ base names, (base, names) ∈ c ↔
           names ≠ [] ∧ names = names_of_component base var_names.
Proof.
  apply (group_names_spec var_names [] []); [constructor|].
  intros base names. split; [by intros ?%elem_of_nil|].
  intros [Hne ->]. done.
Qed.

Lemma split_head_prefix sep s base :
  split sep s !! 0%nat = Some base →
  String.prefix base s = true ∧ contains (String sep "") base = false.
Proof.
  revert base. induction s as [|c s IH]; intros base.
  - intros [= <-]. done.
  - destruct (decide (c = sep)) as [->|Hne].
    + rewrite split_cons_sep. intros [= <-]. done.
    + rewrite split_cons_other by done.
      destruct (split sep s) as [|piece pieces] eqn:Hsplit.
      { by destruct (split_head sep s) as [b Hb]; rewrite Hsplit in Hb. }
      intros [= <-]. destruct (IH piece eq_refl) as [Hp Hc].
      rewrite prefix_cons, contains_cons, prefix_cons.
      destruct (ascii_dec c c); [|done]. split; [done|].
      rewrite Hc. by destruct (ascii_dec sep c) as [->|].
Qed.

(** X22: the key of a group is the text of its names before their first
    dot: it contains no dot, and every name of the group starts with
    it. *)
Theorem components_key_is_prefix var_names c base names :
  components var_names = inr c → (base, names) ∈ c →
  contains "." base = false
  ∧ Forall (λ name, startswith name base = true) names.
Proof.
  intros Hrun Hin.
  destruct (components_partition var_names) as (c' & Hrun' & _ & Hspec).
  rewrite Hrun in Hrun'. injection Hrun' as <-.
  apply Hspec in Hin as [Hne ->].
  assert (Forall (λ name, split "." name !! 0%nat = Some base)
                 (names_of_component base var_names)) as Hall.
  { apply Forall_forall. intros name Hname.
    unfold names_of_component in Hname.
    by apply list_elem_of_filter in Hname as [Hname _]. }
  split.
  - destruct (names_of_component base var_names) as [|name names]; [done|].
    apply Forall_cons in Hall as [Hname _].
    by apply split_head_prefix in Hname as [_ Hdot].
  - eapply Forall_impl; [exact Hall|]. intros name Hname. simpl in Hname.
    by apply split_head_prefix in Hname as [Hp _].
Qed.

Lemma components_key_is_prefix_witness :
  let var_names := ["conv_block.weight"; "res_block_0.weight";
                    "conv_block.bias"; "res_block_0.bias__9"] in
  let c := [("conv_block", ["conv_block.weight"; "conv_block.bias"]);
            ("res_block_0", ["res_block_0.weight"; "res_block_0.bias__9"])] in
  components var_names = inr c
  ∧ ("res_block_0", ["res_block_0.weight"; "res_block_0.bias__9"]) ∈ c
  ∧ contains "." "res_block_0" = false
  ∧ Forall (λ name, startswith name "res_block_0" = true)
           ["res_block_0.weight"; "res_block_0.bias__9"].
Proof.
  intros var_names c.
  assert (components var_names = inr c) as Hrun by reflexivity.
  assert (("res_block_0", ["res_block_0.weight"; "res_block_0.bias__9"]) ∈ c)
    as Hin by (apply list_elem_of_further, list_elem_of_here).
  split; [exact Hrun|]. split; [exact Hin|].
  exact (components_key_is_prefix var_names c _ _ Hrun Hin).
Defined.

(** * Failures of the architecture detection *)

Lemma comprehension_raises {A B} (P : Exception → Prop) (f : A → Result B) l e :
  (∀ a e', a ∈ l → f a = inl e' → P e') →
  comprehension f l = inl e → P e.
Proof.
  induction l as [|a l IH]; intros Hall Hrun; [done|].
  cbn [comprehension] in Hrun.
  destruct (f a) as [e'|b] eqn:Ha.
  - injection Hrun as <-. eapply Hall; [apply list_elem_of_here|done].
  - cbn [bind] in Hrun.
    destruct (comprehension f l) as [e'|bs] eqn:Hl; [|done].
    injection Hrun as <-. apply IH; [|done].
    intros a' e0 Ha'. apply Hall. by apply list_elem_of_further.
Qed.

Lemma comprehension_fails {A B} (f : A → Result B) l a e0 :
  a ∈ l → f a = inl e0 → ∃ e, comprehension f l = inl e.
Proof.
  induction l as [|b l IH]; intros Hin Ha; [by apply elem_of_nil in Hin|].
  cbn [comprehension]. destruct (f b) as [e'|v] eqn:Hb; [by eexists|].
  apply elem_of_cons in Hin as [->|Hin]; [congruence|].
  destruct (IH Hin Ha) as [e ->]. by eexists.
Qed.

Lemma second_piece_of_block_name k :
  startswith k "residualBlocks." = true →
  ∃ piece, split "." k !! 1%nat = Some piece.
Proof.
  intros [t ->]%prefix_true_inv.
  change ("residualBlocks." +:+ t)
    with (String "r" (String "e" (String "s" (String "i" (String "d"
            (String "u" (String "a" (String "l" (String "B" (String "l"
            (String "o" (String "c" (String "k" (String "s"
            (String "." t))))))))))))))).
  do 14 (rewrite split_cons_other by done). rewrite split_cons_sep.
  destruct (split_head "." t) as [piece Hpiece].
  destruct (split "." t) as [|p ps]; [done|]. by exists p.
Qed.

Lemma block_index_raises k e :
  startswith k "residualBlocks." = true →
  (piece ←' list_getitem (split "." k) 1; int piece) = inl e →
  ∃ msg, e = ValueError msg.
Proof.
  intros [piece Hpiece]%second_piece_of_block_name.
  unfold list_getitem. rewrite Hpiece. unfold ret at 1. cbn [bind].
  apply int_raises.
Qed.

(** X26: the detection of the number of blocks can only fail with a
    [ValueError], that of [int] on a block index or that of [max] on an
    empty list: the test [k.startswith('residualBlocks.')] guarantees the
    piece that [k.split('.')[1]] reads, so no [IndexError] escapes. *)
Theorem detect_num_blocks_raises_only_ValueError (sd : gmap string Tensor) e :
  detect_num_blocks sd = inl e → ∃ msg, e = ValueError msg.
Proof.
  unfold detect_num_blocks. intros Hrun.
  destruct (comprehension _ _) as [e'|indices] eqn:Hcomp.
  - injection Hrun as <-.
    eapply (comprehension_raises (λ e, ∃ msg, e = ValueError msg));
      [|exact Hcomp].
    intros k e0 [Hstart _]%list_elem_of_filter. by apply block_index_raises.
  - cbn [bind] in Hrun. destruct indices as [|x indices]; [|done].
    injection Hrun as <-. by eexists.
Qed.

Lemma detect_num_blocks_raises_only_ValueError_witness :
  let sd : gmap string Tensor :=
    {[ "residualBlocks.first.conv1.weight" := sample_tensor 128 0 ]} in
  ∃ e, detect_num_blocks sd = inl e ∧ ∃ msg, e = ValueError msg.
Proof.
  intros sd.
  assert (detect_num_blocks sd
          = inl (ValueError
                   "invalid literal for int() with base 10: 'first'"))
    as Hrun by (vm_compute; reflexivity).
  eexists. split; [exact Hrun|].
  exact (detect_num_blocks_raises_only_ValueError sd _ Hrun).
Defined.

Lemma pretty_N_go_length_ge (x : N) s :
  (String.length s ≤ String.length (pretty_N_go x s))%nat.
Proof. rewrite pretty_N_go_app, string_length_append. lia. Qed.

Lemma pretty_N_go_length_lower (k : nat) (x : N) s :
  (10 ^ Z.of_nat k ≤ Z.of_N x)%Z →
  (k + String.length s < String.length (pretty_N_go x s))%nat.
Proof.
  revert x s. induction k as [|k IH]; intros x s Hx.
  - change (10 ^ Z.of_nat 0)%Z with 1%Z in Hx.
    rewrite pretty_N_go_step by lia.
    pose proof (pretty_N_go_length_ge (x `div` 10)
                  (String (pretty_N_char (x `mod` 10)) s)) as Hge.
    cbn [String.length] in Hge. lia.
  - rewrite Nat2Z.inj_succ, Z.pow_succ_r in Hx by lia.
    assert (0 < 10 ^ Z.of_nat k)%Z by (apply Z.pow_pos_nonneg; lia).
    rewrite pretty_N_go_step by lia.
    assert (10 ^ Z.of_nat k ≤ Z.of_N (x `div` 10))%Z as Hdiv
      by (rewrite N2Z.inj_div; apply Z.div_le_lower_bound; lia).
    pose proof (IH (x `div` 10)%N (String (pretty_N_char (x `mod` 10)) s) Hdiv)
      as Hlow.
    cbn [String.length] in Hlow. lia.
Qed.

Lemma int_str_too_long (i : Z) :
  (10 ^ int_max_str_digits ≤ i)%Z → ∃ msg, int (str i) = inl (ValueError msg).
Proof.
  intros Hi.
  assert (0 < 10 ^ int_max_str_digits)%Z as Hpos
    by (by apply Z.pow_pos_nonneg).
  destruct (int_of_digits_cases (str i) i) as [[Hlen _]|[_ ?]]; [..|done].
  - apply str_digits; lia.
  - apply str_nonempty; lia.
  - apply int_digits_str; lia.
  - exfalso. destruct i as [|p|p]; [lia| |lia].
    assert (str (Z.pos p) = pretty_N_go (N.pos p) "") as Hstr.
    { unfold str, pretty, pretty_Z, pretty, pretty_positive, pretty, pretty_N.
      by rewrite decide_False. }
    rewrite Hstr in Hlen.
    remember (Z.to_nat int_max_str_digits) as k eqn:Hk.
    assert (Z.of_nat k = int_max_str_digits) as Hmax
      by (subst k; by apply Z2Nat.id).
    rewrite <-Hmax in Hi, Hlen.
    pose proof (pretty_N_go_length_lower k (N.pos p) "" Hi) as Hlow.
    cbn [String.length] in Hlow. lia.
Qed.

(** X27: one name of a residual block whose index has more than
    [int_max_str_digits] digits stops the main block: [int] refuses the
    numeral, and the main block raises a [ValueError] before the conversion
    is called, whatever else the checkpoint holds. *)
Theorem main_convert_digit_limit (sd : gmap string Tensor) (i : Z) rest :
  (10 ^ int_max_str_digits ≤ i)%Z →
  block_key i rest ∈ dom sd →
  ∃ msg, main_convert sd = inl (ValueError msg).
Proof.
  intros Hi Hkey.
  assert (0 < 10 ^ int_max_str_digits)%Z as Hpos
    by (by apply Z.pow_pos_nonneg).
  assert (∃ e, detect_num_blocks sd = inl e) as [e He].
  { unfold detect_num_blocks.
    destruct (int_str_too_long i Hi) as [msg Hint].
    destruct (comprehension_fails
                (λ k, piece ←' list_getitem (split "." k) 1; int piece)
                (filter (λ k, startswith k "residualBlocks." = true) (keys sd))
                (block_key i rest) (ValueError msg)) as [e ->].
    - apply list_elem_of_filter.
      split; [apply startswith_block_key|by apply elem_of_keys].
    - rewrite split_block_key by lia.
      unfold list_getitem. cbn [lookup list_lookup]. unfold ret at 1.
      cbn [bind]. exact Hint.
    - by eexists. }
  destruct (detect_num_blocks_raises_only_ValueError sd e He) as [msg ->].
  exists msg. unfold main_convert. by rewrite He.
Qed.

Lemma main_convert_digit_limit_witness :
  let sd : gmap string Tensor :=
    {[ block_key (10 ^ int_max_str_digits) "conv1.weight"
       := sample_tensor 128 0 ]} in
  block_key (10 ^ int_max_str_digits) "conv1.weight" ∈ dom sd
  ∧ ∃ msg, main_convert sd = inl (ValueError msg).
Proof.
  intros sd.
  assert (block_key (10 ^ int_max_str_digits) "conv1.weight" ∈ dom sd)
    as Hkey by (apply elem_of_dom; unfold sd; by rewrite lookup_singleton_eq).
  split; [exact Hkey|].
  exact (main_convert_digit_limit sd (10 ^ int_max_str_digits) "conv1.weight"
           (Z.le_refl _) Hkey).
Defined.
